(** * Auto-uploader orchestration core: a shallow embedding and its properties

    The development follows the JavaScript sources:
    - [src/utils/helpers.js]            retryWithBackoff, cleanupFile, validateVideoFile,
                                        sanitizeFilename, formatDuration
    - [src/services/youtubeService.js]  uploadVideo, sanitizeMetadata, validateAndFormatTags,
                                        validatePrivacyStatus, and, in the same file, the
                                        email service with its three senders and escapeHtml
    - [unnamed/part_005]                the token service: refreshTokenIfNeeded,
                                        validateUserTokens, getValidTokens
    - [src/services/videoService.js]    getNextVideo, downloadVideo, markAsDownloaded
    - [src/jobs/uploadJob.js]           processUploads, processUserUpload
    - [src/models/User.js], [unnamed/part_001]  the two schemas

    Strings are sequences of code units below 256 ([string]); numbers that the
    code only uses as integers are [Z], [N] or [nat]; the persisted
    collections are a finite map and a list; every external reply (HTTP,
    OAuth, SMTP, database write, stream event) is read from a script, so each
    function is an executable state transformer that returns or throws.
    Logging is left out. *)

From Stdlib Require Import ZArith List Bool Ascii String DecimalString Lia.
From stdpp Require Import base option list gmap strings.
Import ListNotations.

Open Scope string_scope.
Open Scope Z_scope.
Open Scope list_scope.

(** ** JavaScript string primitives *)

Module JsString.

(** White space in the sense of [String.prototype.trim], restricted to code
    units below 256: TAB, LF, VT, FF, CR, SP and NBSP. *)
Definition is_space (c : ascii) : bool :=
  let n := nat_of_ascii c in
  ((9 <=? n)%nat && (n <=? 13)%nat) || (n =? 32)%nat || (n =? 160)%nat.

Fixpoint trimStart (s : string) : string :=
  match s with
  | EmptyString => EmptyString
  | String c t => if is_space c then trimStart t else s
  end.

Fixpoint trimEnd (s : string) : string :=
  match s with
  | EmptyString => EmptyString
  | String c t =>
      match trimEnd t with
      | EmptyString => if is_space c then EmptyString else String c EmptyString
      | t' => String c t'
      end
  end.

Definition trim (s : string) : string := trimEnd (trimStart s).

(** [hay.includes(needle)] *)
Fixpoint includes (needle hay : string) : bool :=
  if String.prefix needle hay then true
  else match hay with
       | EmptyString => false
       | String _ t => includes needle t
       end.

(** [s.split(sep)] for a one-character separator. *)
Fixpoint split (sep : ascii) (s : string) : list string :=
  match s with
  | EmptyString => [EmptyString]
  | String c t =>
      if Ascii.eqb c sep then EmptyString :: split sep t
      else match split sep t with
           | [] => [String c EmptyString]
           | w :: ws => String c w :: ws
           end
  end.

(** [s.substring(0, n)] *)
Definition take (n : nat) (s : string) : string := String.substring 0 n s.

(** Control characters removed by the class [[\x00-\x1F\x7F]]. *)
Definition is_control (c : ascii) : bool :=
  let n := nat_of_ascii c in (n <=? 31)%nat || (n =? 127)%nat.

Fixpoint remove_control (s : string) : string :=
  match s with
  | EmptyString => EmptyString
  | String c t => if is_control c then remove_control t else String c (remove_control t)
  end.

Definition lower_char (c : ascii) : ascii :=
  let n := nat_of_ascii c in
  if ((65 <=? n)%nat && (n <=? 90)%nat) then ascii_of_nat (n + 32) else c.

Fixpoint toLowerCase (s : string) : string :=
  match s with
  | EmptyString => EmptyString
  | String c t => String (lower_char c) (toLowerCase t)
  end.

Definition first_char (s : string) : option ascii :=
  match s with EmptyString => None | String c _ => Some c end.

Fixpoint last_char (s : string) : option ascii :=
  match s with
  | EmptyString => None
  | String c EmptyString => Some c
  | String _ t => last_char t
  end.

(** A string has no white space at either end. *)
Definition trimmed (s : string) : Prop :=
  (forall c, first_char s = Some c -> is_space c = false) /\
  (forall c, last_char s = Some c -> is_space c = false).

End JsString.

(** ** youtubeService.js: metadata sanitation *)

Module YouTubeMeta.
Import JsString.

(** The value of [config.youtube.tags] as [validateAndFormatTags] sees it:
    falsy, an array of strings, or any other value through [String(tags)]. *)
Inductive TagsValue :=
| TagsFalsy
| TagsArray (l : list string)
| TagsOther (str : string).

(** [Array.isArray(tags) ? tags : String(tags).split(',')] *)
Definition tagArray (tags : TagsValue) : list string :=
  match tags with
  | TagsFalsy => []
  | TagsArray l => l
  | TagsOther str => split "," str
  end.

Definition tag_ok (tag : string) : bool :=
  (0 <? String.length tag)%nat && (String.length tag <=? 30)%nat.

Definition validateAndFormatTags (tags : TagsValue) : list string :=
  match tags with
  | TagsFalsy => []
  | _ => firstn 30 (List.filter tag_ok (List.map trim (tagArray tags)))
  end.

(** [sanitizeMetadata]: the length limit is chosen on the raw text, the
    cut and the trim act on the text without control characters. *)
Definition sanitizeMetadata (text : option string) : string :=
  match text with
  | None => ""
  | Some "" => ""
  | Some text =>
      let sanitized := remove_control text in
      let sanitized :=
        if includes (String "010" "") text then take 5000 sanitized
        else take 100 sanitized in
      trim sanitized
  end.

Definition validatePrivacyStatus (status : string) : string :=
  let normalizedStatus := toLowerCase status in
  if existsb (String.eqb normalizedStatus) ["public"; "private"; "unlisted"]
  then normalizedStatus else "public".

End YouTubeMeta.

(** ** Control flow: exceptions over explicit state *)

Module Js.

(** [error.code] is a number for API errors and a string for axios errors. *)
Inductive Code :=
| CodeNum (n : Z)
| CodeStr (s : string).

#[global] Instance Code_eq_dec : EqDecision Code.
Proof. solve_decision. Defined.

(** A thrown value: [message], [code] and [response.status]. *)
Record Error := mkError {
  message : string;
  code : option Code;
  responseStatus : option Z
}.

(** [new Error(msg)] *)
Definition newError (msg : string) : Error := mkError msg None None.

Inductive Result (A : Type) :=
| Ok (a : A)
| Throw (e : Error).
Arguments Ok {A} a.
Arguments Throw {A} e.

(** A computation over a state [S]: it returns or throws, and in both
    cases leaves a state behind. *)
Definition M (S A : Type) : Type := S -> Result A * S.

Definition ret {S A} (a : A) : M S A := fun s => (Ok a, s).

Definition bind {S A B} (m : M S A) (k : A -> M S B) : M S B :=
  fun s => match m s with
           | (Ok a, s') => k a s'
           | (Throw e, s') => (Throw e, s')
           end.

Definition throw {S A} (e : Error) : M S A := fun s => (Throw e, s).

(** [try { m } catch (error) { h error }] *)
Definition tryCatch {S A} (m : M S A) (h : Error -> M S A) : M S A :=
  fun s => match m s with
           | (Ok a, s') => (Ok a, s')
           | (Throw e, s') => h e s'
           end.

(** [try { m } finally { f }] for a [finally] block that cannot throw. *)
Definition tryFinally {S A} (m : M S A) (f : S -> S) : M S A :=
  fun s => let (r, s') := m s in (r, f s').

Definition get {S} : M S S := fun s => (Ok s, s).
Definition gets {S A} (f : S -> A) : M S A := fun s => (Ok (f s), s).
Definition modify {S} (f : S -> S) : M S unit := fun s => (Ok tt, f s).

(** An awaited external call whose reply is scripted. *)
Definition reply {S} (r : option Error) : M S unit :=
  match r with
  | None => ret tt
  | Some e => throw e
  end.

(** Run a computation on the second component of the state. *)
Definition liftW {L W A} (m : M W A) : M (L * W) A :=
  fun '(l, w) => let (r, w') := m w in (r, (l, w')).

(** Run a function body that has local variables of its own. *)
Definition withLocals {L W A} (init : L) (m : M (L * W) A) : M W A :=
  fun w => let '(r, (_, w')) := m (init, w) in (r, w').

(** Run a computation on one local variable. *)
Definition onLocal {L L' W A} (proj : L -> L') (upd : L' -> L -> L)
    (m : M (L' * W) A) : M (L * W) A :=
  fun '(l, w) => let '(r, (l', w')) := m (proj l, w) in (r, (upd l' l, w')).

Definition getL {L W} : M (L * W) L := gets fst.
Definition setL {L W} (f : L -> L) : M (L * W) unit :=
  modify (fun '(l, w) => (f l, w)).

Declare Scope js_scope.
Delimit Scope js_scope with js.
Notation "x <- m ;; k" := (bind m (fun x => k))
  (at level 100, m at next level, right associativity) : js_scope.
Notation "m ;;; k" := (bind m (fun _ => k))
  (at level 100, right associativity) : js_scope.

End Js.

(** ** Data model: models/User.js, models/UploadLog.js, the cycle result *)

Module Model.

(** [user.tokens]; every member may be missing. *)
Record Tokens := mkTokens {
  access_token : option string;
  refresh_token : option string;
  scope : option string;
  token_type : option string;
  expiry_date : option Z
}.

(** The fields of an Account that the core reads or writes
    (dates are milliseconds since the epoch). *)
Record User := mkUser {
  email : string;
  channelTitle : string;
  tokens : option Tokens;
  isActive : bool;
  lastUploadDate : option Z;
  totalUploads : Z;
  failedUploads : Z;
  lastTokenRefresh : Z
}.

Inductive UserPath :=
| PathTokens | PathIsActive | PathLastUploadDate
| PathTotalUploads | PathFailedUploads | PathLastTokenRefresh.

(** A loaded document: its key, its in-memory fields and the paths
    assigned since it was loaded or last saved. *)
Record UserDoc := mkUserDoc {
  _id : N;
  fields : User;
  modifiedPaths : list UserPath
}.

Definition copyPath (p : UserPath) (src dst : User) : User :=
  match p with
  | PathTokens =>
      mkUser (email dst) (channelTitle dst) (tokens src) (isActive dst)
        (lastUploadDate dst) (totalUploads dst) (failedUploads dst) (lastTokenRefresh dst)
  | PathIsActive =>
      mkUser (email dst) (channelTitle dst) (tokens dst) (isActive src)
        (lastUploadDate dst) (totalUploads dst) (failedUploads dst) (lastTokenRefresh dst)
  | PathLastUploadDate =>
      mkUser (email dst) (channelTitle dst) (tokens dst) (isActive dst)
        (lastUploadDate src) (totalUploads dst) (failedUploads dst) (lastTokenRefresh dst)
  | PathTotalUploads =>
      mkUser (email dst) (channelTitle dst) (tokens dst) (isActive dst)
        (lastUploadDate dst) (totalUploads src) (failedUploads dst) (lastTokenRefresh dst)
  | PathFailedUploads =>
      mkUser (email dst) (channelTitle dst) (tokens dst) (isActive dst)
        (lastUploadDate dst) (totalUploads dst) (failedUploads src) (lastTokenRefresh dst)
  | PathLastTokenRefresh =>
      mkUser (email dst) (channelTitle dst) (tokens dst) (isActive dst)
        (lastUploadDate dst) (totalUploads dst) (failedUploads dst) (lastTokenRefresh src)
  end.

(** The stored record after a save: the modified paths are overwritten,
    every other field keeps what the store holds. *)
Definition writePaths (paths : list UserPath) (src stored : User) : User :=
  fold_right (fun p acc => copyPath p src acc) stored paths.

Definition withTokens (t : option Tokens) (u : User) : User :=
  mkUser (email u) (channelTitle u) t (isActive u)
    (lastUploadDate u) (totalUploads u) (failedUploads u) (lastTokenRefresh u).
Definition withIsActive (b : bool) (u : User) : User :=
  mkUser (email u) (channelTitle u) (tokens u) b
    (lastUploadDate u) (totalUploads u) (failedUploads u) (lastTokenRefresh u).
Definition withLastUploadDate (d : option Z) (u : User) : User :=
  mkUser (email u) (channelTitle u) (tokens u) (isActive u)
    d (totalUploads u) (failedUploads u) (lastTokenRefresh u).
Definition withTotalUploads (n : Z) (u : User) : User :=
  mkUser (email u) (channelTitle u) (tokens u) (isActive u)
    (lastUploadDate u) n (failedUploads u) (lastTokenRefresh u).
Definition withFailedUploads (n : Z) (u : User) : User :=
  mkUser (email u) (channelTitle u) (tokens u) (isActive u)
    (lastUploadDate u) (totalUploads u) n (lastTokenRefresh u).
Definition withLastTokenRefresh (d : Z) (u : User) : User :=
  mkUser (email u) (channelTitle u) (tokens u) (isActive u)
    (lastUploadDate u) (totalUploads u) (failedUploads u) d.

(** [user.<path> = value] on a document. *)
Definition setTokens (t : option Tokens) (d : UserDoc) : UserDoc :=
  mkUserDoc (_id d) (withTokens t (fields d)) (PathTokens :: modifiedPaths d).
Definition setIsActive (b : bool) (d : UserDoc) : UserDoc :=
  mkUserDoc (_id d) (withIsActive b (fields d)) (PathIsActive :: modifiedPaths d).
Definition setLastUploadDate (t : Z) (d : UserDoc) : UserDoc :=
  mkUserDoc (_id d) (withLastUploadDate (Some t) (fields d)) (PathLastUploadDate :: modifiedPaths d).
Definition setTotalUploads (n : Z) (d : UserDoc) : UserDoc :=
  mkUserDoc (_id d) (withTotalUploads n (fields d)) (PathTotalUploads :: modifiedPaths d).
Definition setFailedUploads (n : Z) (d : UserDoc) : UserDoc :=
  mkUserDoc (_id d) (withFailedUploads n (fields d)) (PathFailedUploads :: modifiedPaths d).
Definition setLastTokenRefresh (t : Z) (d : UserDoc) : UserDoc :=
  mkUserDoc (_id d) (withLastTokenRefresh t (fields d)) (PathLastTokenRefresh :: modifiedPaths d).

Inductive Status := Pending | Downloading | Uploading | Success | Failed.

(** Transfer Record (UploadLog). *)
Record UploadLog := mkUploadLog {
  userId : N;
  videoId : string;
  videoTitle : string;
  videoFilename : string;
  status : Status;
  youtubeVideoId : option string;
  errorMessage : option string;
  uploadedAt : option Z;
  duration : option Z
}.

(** An UploadLog document: [slot] is its place in the collection once a
    save has inserted it. *)
Record UploadLogDoc := mkUploadLogDoc {
  slot : option nat;
  logFields : UploadLog
}.

Definition withStatus (s : Status) (l : UploadLog) : UploadLog :=
  mkUploadLog (userId l) (videoId l) (videoTitle l) (videoFilename l) s
    (youtubeVideoId l) (errorMessage l) (uploadedAt l) (duration l).
Definition withErrorMessage (m : string) (l : UploadLog) : UploadLog :=
  mkUploadLog (userId l) (videoId l) (videoTitle l) (videoFilename l) (status l)
    (youtubeVideoId l) (Some m) (uploadedAt l) (duration l).
Definition withPublished (yt : string) (at_ : Z) (secs : Z) (l : UploadLog) : UploadLog :=
  mkUploadLog (userId l) (videoId l) (videoTitle l) (videoFilename l) (status l)
    (Some yt) (errorMessage l) (Some at_) (Some secs).

(** A resource descriptor of the remote catalogue; an empty string is a
    missing member. *)
Record VideoData := mkVideoData {
  id : string;
  title : string;
  filename : string;
  downloadUrl : string;
  description : option string
}.

Record SuccessEntry := mkSuccessEntry {
  okUserEmail : string;
  okVideoTitle : string;
  videoUrl : string;
  okDuration : Z          (* seconds; the rendering by formatDuration is left out *)
}.

Record FailedEntry := mkFailedEntry {
  userEmail : string;
  failedVideoTitle : string;
  error : string
}.

(** Cycle Result. *)
Record Results := mkResults {
  successful : list SuccessEntry;
  failed : list FailedEntry;
  totalUsers : nat;
  noVideos : bool;
  dbError : bool
}.

Definition pushSuccessful (e : SuccessEntry) (r : Results) : Results :=
  mkResults (successful r ++ [e]) (failed r) (totalUsers r) (noVideos r) (dbError r).
Definition pushFailed (e : FailedEntry) (r : Results) : Results :=
  mkResults (successful r) (failed r ++ [e]) (totalUsers r) (noVideos r) (dbError r).
Definition setNoVideos (r : Results) : Results :=
  mkResults (successful r) (failed r) (totalUsers r) true (dbError r).
Definition setDbError (r : Results) : Results :=
  mkResults (successful r) (failed r) (totalUsers r) (noVideos r) true.
Definition setTotalUsers (n : nat) (r : Results) : Results :=
  mkResults (successful r) (failed r) n (noVideos r) (dbError r).

(** What a message is rendered from; the HTML itself is left out. *)
Inductive MailBody :=
| ReportBody (results : Results)
| ErrorBody (userEmail videoTitle errorMessage : string)
| ReAuthBody (channelTitle : string).

Record Mail := mkMail {
  to : string;
  body : MailBody
}.

(** The request body of [youtube.videos.insert]. *)
Record VideoMetadata := mkVideoMetadata {
  metaTitle : string;
  metaDescription : string;
  metaTags : list string;
  categoryId : string;
  privacyStatus : string
}.

(** Calls that leave the process, in the order they happen. *)
Inductive Event :=
| EvSleep (ms : Z)
| EvSendMail (m : Mail) (accepted : bool)
| EvRefresh (refreshToken : option string)
| EvInsert (accessToken : option string) (meta : VideoMetadata)
| EvMarkDownloaded (videoId : string).

(** Everything outside the running function: the two collections, local
    storage (path to size in bytes), the clock, the replies the mail
    transport will give to the coming [sendMail] calls (none left means
    accepted), and the trace of outgoing calls. *)
Record World := mkWorld {
  users : gmap N User;
  uploadLogs : list UploadLog;
  files : gmap string N;
  clock : Z;
  smtp : list (option Js.Error);
  trace : list Event
}.

Definition withUsers (us : gmap N User) (w : World) : World :=
  mkWorld us (uploadLogs w) (files w) (clock w) (smtp w) (trace w).
Definition withUploadLogs (ls : list UploadLog) (w : World) : World :=
  mkWorld (users w) ls (files w) (clock w) (smtp w) (trace w).
Definition withFiles (fs : gmap string N) (w : World) : World :=
  mkWorld (users w) (uploadLogs w) fs (clock w) (smtp w) (trace w).
Definition withClock (t : Z) (w : World) : World :=
  mkWorld (users w) (uploadLogs w) (files w) t (smtp w) (trace w).
Definition withSmtp (q : list (option Js.Error)) (w : World) : World :=
  mkWorld (users w) (uploadLogs w) (files w) (clock w) q (trace w).
Definition emit (ev : Event) (w : World) : World :=
  mkWorld (users w) (uploadLogs w) (files w) (clock w) (smtp w) (trace w ++ [ev]).

(** config/config.js, as far as the core reads it. *)
Record Config := mkConfig {
  reportEmail : string;
  youtubeTags : YouTubeMeta.TagsValue;
  youtubePrivacy : string;
  youtubeCategory : string
}.

End Model.

(** ** utils/helpers.js *)

Module Helpers.
Import Js Model.
Local Open Scope js_scope.

(** What [throw lastError] throws when the loop body never ran. *)
Definition undefinedValue : Error := mkError "undefined" None None.

Section Backoff.
Context {S A : Type}.
(** [sleep(ms)]: the only effect besides [fn] itself; it always resolves. *)
Variable sleep : Z -> S -> S.

(** The loop [for (let i = ...; i < maxRetries; i++)], entered at [i]
    with [fuel = maxRetries - i] iterations to go. *)
Fixpoint retryLoop (fn : M S A) (maxRetries : nat) (baseDelay : Z)
    (fuel i : nat) (lastError : option Error) : M S A :=
  match fuel with
  | O => throw (default undefinedValue lastError)
  | Datatypes.S fuel' =>
      tryCatch fn (fun error =>
        (if (Z.of_nat i <? Z.of_nat maxRetries - 1)%Z
         then modify (sleep (baseDelay * 2 ^ Z.of_nat i)%Z)
         else ret tt) ;;;
        retryLoop fn maxRetries baseDelay fuel' (Datatypes.S i) (Some error))
  end.

Definition retryWithBackoff (fn : M S A) (maxRetries : nat) (baseDelay : Z) : M S A :=
  retryLoop fn maxRetries baseDelay maxRetries 0%nat None.
End Backoff.

(** [sleep] on the world: the delay is recorded. *)
Definition sleep (ms : Z) (w : World) : World := emit (EvSleep ms) w.

(** [cleanupFile(filePath)]; [removal] is the reply of [fs.remove]. *)
Definition cleanupFile (removal : option Error) (filePath : option string) : M World bool :=
  tryCatch
    (match filePath with
     | Some p =>
         w <- get ;;
         if bool_decide (is_Some (files w !! p)) then
           reply removal ;;;
           modify (fun w => withFiles (delete p (files w)) w) ;;;
           ret true
         else ret false
     | None => ret false
     end)
    (fun _ => ret false).

(** [validateVideoFile(filePath)] *)
Definition validateVideoFile (filePath : string) : M World bool :=
  tryCatch
    (w <- get ;;
     match files w !! filePath with
     | None => throw (newError "Video file does not exist")
     | Some size =>
         if (size =? 0)%N then throw (newError "Video file is empty")
         else if (size <? 1024)%N then throw (newError "Video file is too small")
         else ret true
     end)
    (fun error => throw error).

(** The characters [sanitizeFilename] keeps: [[a-zA-Z0-9._-]]. *)
Definition is_safe (c : ascii) : bool :=
  let n := nat_of_ascii c in
  ((97 <=? n)%nat && (n <=? 122)%nat) || ((65 <=? n)%nat && (n <=? 90)%nat)
  || ((48 <=? n)%nat && (n <=? 57)%nat)
  || (n =? 46)%nat || (n =? 95)%nat || (n =? 45)%nat.

(** [.replace(/[^a-zA-Z0-9._-]/g, '_')] *)
Fixpoint replaceUnsafe (s : string) : string :=
  match s with
  | EmptyString => EmptyString
  | String c t => String (if is_safe c then c else "_"%char) (replaceUnsafe t)
  end.

(** [.replace(/_{2,}/g, '_')]: of a run of underscores only the last stays. *)
Fixpoint collapseUnderscores (s : string) : string :=
  match s with
  | EmptyString => EmptyString
  | String c t =>
      if Ascii.eqb c "_" then
        match t with
        | String c' _ =>
            if Ascii.eqb c' "_" then collapseUnderscores t
            else String c (collapseUnderscores t)
        | EmptyString => String c EmptyString
        end
      else String c (collapseUnderscores t)
  end.

Definition sanitizeFilename (filename : string) : string :=
  JsString.take 200 (collapseUnderscores (replaceUnsafe filename)).

(** [ensureDownloadsDir()]: the directory [downloads] of the project, two
    levels above the module's own directory. Paths are written relative to
    the project root. *)
Definition downloadsDir : string := "downloads".

(** [normalizeString(path, allowAboveRoot, '/', ...)] of Node's [path]
    module, on the segments of the path; [res] holds the segments kept so
    far, the last one first. An empty segment and [.] are dropped; [..]
    takes the last kept segment away, unless there is none or it is [..]
    itself: then [..] is kept in a relative path and dropped in an absolute
    one. *)
Fixpoint normalizeString (allowAboveRoot : bool) (segments res : list string)
  : list string :=
  match segments with
  | [] => rev res
  | seg :: rest =>
      if (String.eqb seg "" || String.eqb seg ".")%bool then
        normalizeString allowAboveRoot rest res
      else if String.eqb seg ".." then
        match res with
        | top :: below =>
            if String.eqb top ".." then normalizeString allowAboveRoot rest (seg :: res)
            else normalizeString allowAboveRoot rest below
        | [] =>
            if allowAboveRoot then normalizeString allowAboveRoot rest [seg]
            else normalizeString allowAboveRoot rest []
        end
      else normalizeString allowAboveRoot rest (seg :: res)
  end.

(** [path.normalize(path)] (POSIX) *)
Definition normalize (path : string) : string :=
  if String.eqb path "" then "."
  else
    let isAbsolute := bool_decide (JsString.first_char path = Some "/"%char) in
    let trailingSeparator := bool_decide (JsString.last_char path = Some "/"%char) in
    let path' :=
      String.concat "/"
        (normalizeString (negb isAbsolute) (JsString.split "/" path) []) in
    if String.eqb path' "" then
      if isAbsolute then "/" else if trailingSeparator then "./" else "."
    else
      let path'' := if trailingSeparator then path' +:+ "/" else path' in
      if isAbsolute then "/" +:+ path'' else path''.

(** [path.join(dir, name)] (POSIX): the arguments that are not empty, joined
    by a slash, then normalised. *)
Definition pathJoin (dir name : string) : string :=
  if String.eqb dir "" then normalize name
  else if String.eqb name "" then normalize dir
  else normalize (dir +:+ "/" +:+ name).

End Helpers.

(** ** Persistence: the read/write contracts on the two collections *)

Module Persistence.
Import Js Model.
Local Open Scope js_scope.

(** [await user.save()]: on success the modified paths are written to the
    stored record and the document is clean again. *)
Definition saveUser (outcome : option Error) : M (UserDoc * World) unit :=
  fun '(d, w) =>
    match outcome with
    | Some e => (Throw e, (d, w))
    | None =>
        (Ok tt,
         (mkUserDoc (_id d) (fields d) [],
          withUsers (alter (writePaths (modifiedPaths d) (fields d)) (_id d) (users w)) w))
    end.

(** [await uploadLog.save()]: the first successful save inserts the
    record, later ones overwrite it in place. *)
Definition saveLog (outcome : option Error) : M (UploadLogDoc * World) unit :=
  fun '(d, w) =>
    match outcome with
    | Some e => (Throw e, (d, w))
    | None =>
        match slot d with
        | None =>
            (Ok tt,
             (mkUploadLogDoc (Some (length (uploadLogs w))) (logFields d),
              withUploadLogs (uploadLogs w ++ [logFields d]) w))
        | Some i =>
            (Ok tt, (d, withUploadLogs (<[i := logFields d]> (uploadLogs w)) w))
        end
    end.

(** [await User.findById(userId)] *)
Definition findById (outcome : option Error) (userId : N) : M World (option UserDoc) :=
  reply outcome ;;;
  w <- get ;;
  ret (match users w !! userId with
       | Some u => Some (mkUserDoc userId u [])
       | None => None
       end).

(** Ascending order on [lastUploadDate]; a missing date sorts first. *)
Definition dateLe (a b : option Z) : bool :=
  match a, b with
  | None, _ => true
  | Some _, None => false
  | Some x, Some y => (x <=? y)%Z
  end.

Fixpoint insertByDate (d : UserDoc) (l : list UserDoc) : list UserDoc :=
  match l with
  | [] => [d]
  | d' :: l' =>
      if dateLe (lastUploadDate (fields d)) (lastUploadDate (fields d'))
      then d :: l else d' :: insertByDate d l'
  end.

Definition sortByDate (l : list UserDoc) : list UserDoc :=
  fold_right insertByDate [] l.

(** The documents matched by [{ isActive: true }], sorted by
    [{ lastUploadDate: 1 }] and cut by [limit(100)]. *)
Definition activeUsers (us : gmap N User) : list UserDoc :=
  firstn 100
    (sortByDate
       (List.map (fun '(k, u) => mkUserDoc k u [])
          (List.filter (fun '(_, u) => isActive u) (map_to_list us)))).

(** [User.find({ isActive: true }).sort({ lastUploadDate: 1 }).limit(100).exec()] *)
Definition findActiveUsers (outcome : option Error) : M World (list UserDoc) :=
  reply outcome ;;;
  w <- get ;;
  ret (activeUsers (users w)).

End Persistence.

(** ** services/emailService.js *)

Module EmailService.
Import Js Model Helpers.
Local Open Scope js_scope.

(** [transporter.sendMail(mailOptions)]: the next scripted reply decides. *)
Definition sendMail (m : Mail) : M World unit :=
  fun w =>
    match smtp w with
    | [] => (Ok tt, emit (EvSendMail m true) w)
    | None :: q => (Ok tt, emit (EvSendMail m true) (withSmtp q w))
    | Some e :: q => (Throw e, emit (EvSendMail m false) (withSmtp q w))
    end.

(** The character [U+0022]. *)
Definition quoteChar : ascii := ascii_of_nat 34.

(** [map[m]] in [escapeHtml]. *)
Definition escapeChar (c : ascii) : string :=
  if Ascii.eqb c "&" then "&amp;"
  else if Ascii.eqb c "<" then "&lt;"
  else if Ascii.eqb c ">" then "&gt;"
  else if Ascii.eqb c quoteChar then "&quot;"
  else if Ascii.eqb c "'" then "&#039;"
  else String c EmptyString.

(** [text.replace(..., m => map[m])] over the five characters of [map]. *)
Fixpoint escapeChars (text : string) : string :=
  match text with
  | EmptyString => EmptyString
  | String c t => escapeChar c +:+ escapeChars t
  end.

(** [escapeHtml(text)]; a missing text gives the empty string. *)
Definition escapeHtml (text : option string) : string :=
  match text with
  | None => ""
  | Some t => escapeChars t
  end.

Section WithConfig.
Variable config : Config.

Definition sendUploadReport (results : Results) : M World bool :=
  tryCatch
    (retryWithBackoff sleep
       (sendMail (mkMail (reportEmail config) (ReportBody results))) 3 1000 ;;;
     ret true)
    (fun _ => ret false).

Definition sendErrorNotification (userEmail videoTitle errorMessage : string)
    : M World bool :=
  tryCatch
    (retryWithBackoff sleep
       (sendMail (mkMail (reportEmail config)
                    (ErrorBody userEmail videoTitle errorMessage))) 3 1000 ;;;
     ret true)
    (fun _ => ret false).

Definition sendReAuthenticationRequired (userEmail channelTitle : string)
    : M World bool :=
  tryCatch
    (retryWithBackoff sleep
       (sendMail (mkMail userEmail (ReAuthBody channelTitle))) 2 500 ;;;
     ret true)
    (fun _ => ret false).
End WithConfig.

End EmailService.

(** ** services/tokenService.js *)

Module TokenService.
Import Js Model Persistence.
Local Open Scope js_scope.

(** The reply of [oauth2Client.refreshAccessToken()]. *)
Record Credentials := mkCredentials {
  newAccessToken : option string;
  newExpiryDate : option Z
}.

Record TokenScript := mkTokenScript {
  findReply : option Error;                 (* User.findById *)
  refreshReply : Credentials + Error;       (* the refresh exchange *)
  refreshSave : option Error;               (* user.save() after a refresh *)
  deactivateSave : option Error             (* user.save() after isActive = false *)
}.

Definition fiveMinutes : Z := 5 * 60 * 1000.

(** [!expiryDate || now >= (expiryDate - fiveMinutes)] *)
Definition isExpiring (expiryDate : option Z) (now : Z) : bool :=
  match expiryDate with
  | None => true
  | Some e => (e =? 0)%Z || (now >=? e - fiveMinutes)%Z
  end.

Definition authExpiredMessage : string :=
  "User authentication token expired. Please re-authenticate by visiting /auth/login".

Definition refreshTokenIfNeeded (sc : TokenScript) : M (UserDoc * World) (option Tokens) :=
  tryCatch
    (user <- getL ;;
     match tokens (fields user) with
     | None =>
         throw (newError "Cannot read properties of undefined (reading 'expiry_date')")
     | Some tk =>
         let expiryDate := expiry_date tk in
         now <- liftW (gets clock) ;;
         if isExpiring expiryDate now then
           liftW (modify (emit (EvRefresh (refresh_token tk)))) ;;;
           credentials <- match refreshReply sc with
                          | inl c => ret c
                          | inr e => throw e
                          end ;;
           setL (setTokens
                   (Some (mkTokens (newAccessToken credentials) (refresh_token tk)
                            (scope tk) (token_type tk) (newExpiryDate credentials)))) ;;;
           today <- liftW (gets clock) ;;
           setL (setLastTokenRefresh today) ;;;
           saveUser (refreshSave sc) ;;;
           user <- getL ;;
           ret (tokens (fields user))
         else ret (tokens (fields user))
     end)
    (fun _ => throw (newError authExpiredMessage)).

Definition hasRefreshToken (u : User) : bool :=
  match tokens u with
  | Some tk =>
      match refresh_token tk with
      | Some r => negb (String.eqb r "")
      | None => false
      end
  | None => false
  end.

Definition getValidTokens (sc : TokenScript) (userId : N) : M World (option Tokens) :=
  found <- findById (findReply sc) userId ;;
  match found with
  | None => throw (newError "User not found")
  | Some user =>
      if negb (hasRefreshToken (fields user)) then
        throw (newError "User tokens not found. User needs to re-authenticate.")
      else
        withLocals user
          (tryCatch (refreshTokenIfNeeded sc)
             (fun error =>
                setL (setIsActive false) ;;;
                saveUser (deactivateSave sc) ;;;
                throw error))
  end.

(** [validateUserTokens(userId)]: the probe that never throws. *)
Definition validateUserTokens (sc : TokenScript) (userId : N) : M World bool :=
  tryCatch
    (found <- findById (findReply sc) userId ;;
     match found with
     | None => ret false
     | Some user =>
         if negb (hasRefreshToken (fields user)) then ret false
         else withLocals user (refreshTokenIfNeeded sc) ;;; ret true
     end)
    (fun _ => ret false).

End TokenService.

(** ** services/videoService.js *)

Module VideoService.
Import Js Model Helpers.
Local Open Scope js_scope.

Definition MAX_VIDEO_SIZE : Z := 256 * 1024 * 1024 * 1024.

(** The reply of [axios.get] on the next-video endpoint:
    [response.data.success] and [response.data.data], or an error. *)
Inductive NextReply :=
| NextResponse (success : bool) (data : option VideoData)
| NextError (e : Error).

Definition missing (s : string) : bool := String.eqb s "".

Definition getNextVideo {S} (r : NextReply) : M S (option VideoData) :=
  tryCatch
    (match r with
     | NextError e => throw e
     | NextResponse success data =>
         match success, data with
         | true, Some videoData =>
             if missing (id videoData) || missing (title videoData)
                || missing (filename videoData) || missing (downloadUrl videoData)
             then throw (newError "Invalid video data received from server")
             else ret (Some videoData)
         | _, _ => ret None
         end
     end)
    (fun error =>
       if bool_decide (responseStatus error = Some 404%Z) then ret None
       else if bool_decide (code error = Some (CodeStr "ECONNABORTED"))
       then throw (newError "Main server connection timeout")
       else throw error).

(** What the streams report while a download is in flight. *)
Inductive StreamEvent :=
| Chunk (bytes : N)
| WriterFinish
| WriterError (e : Error)
| StreamError (e : Error).

Record DownloadScript := mkDownloadScript {
  dirReply : option Error;              (* ensureDownloadsDir() *)
  response : option Z + Error;          (* axios: the parsed content-length (NaN: None), or an error *)
  events : list StreamEvent             (* what happens before the 15 minute ceiling *)
}.

(** The promise returned by [downloadVideo], the write stream and the
    timer armed by [setTimeout]. *)
Record Transfer := mkTransfer {
  promise : option (Result string);
  writerOpen : bool;
  timerArmed : bool
}.

Definition settle (r : Result string) (t : Transfer) : Transfer :=
  match promise t with
  | None => mkTransfer (Some r) (writerOpen t) (timerArmed t)
  | Some _ => t
  end.
Definition destroyWriter (t : Transfer) : Transfer :=
  mkTransfer (promise t) false (timerArmed t).
Definition clearTimer (t : Transfer) : Transfer :=
  mkTransfer (promise t) (writerOpen t) false.

(** [fs.removeSync(filePath)] *)
Definition removeSync (filePath : string) (w : World) : World :=
  withFiles (delete filePath (files w)) w.

Definition timeoutError : Error := newError "Download timeout - took too long".

(** The handlers registered on the two streams. A chunk reaches the file
    only while the write stream is open and the file is still there. *)
Definition onStreamEvent (filePath : string) (ev : StreamEvent)
    (s : Transfer * World) : Transfer * World :=
  let '(t, w) := s in
  match ev with
  | Chunk bytes =>
      if writerOpen t
      then (t, withFiles (alter (fun size => (size + bytes)%N) filePath (files w)) w)
      else (t, w)
  | WriterFinish =>
      (clearTimer (settle (Ok filePath) (mkTransfer (promise t) false (timerArmed t))), w)
  | WriterError e =>
      (clearTimer (settle (Throw e) (mkTransfer (promise t) false (timerArmed t))),
       removeSync filePath w)
  | StreamError e =>
      (settle (Throw e) (destroyWriter t), removeSync filePath w)
  end.

(** The callback of the 15 minute [setTimeout]; it runs only while the
    timer is armed. *)
Definition onTimeout (filePath : string) (s : Transfer * World) : Transfer * World :=
  let '(t, w) := s in
  if timerArmed t
  then (settle (Throw timeoutError) (destroyWriter t), removeSync filePath w)
  else (t, w).

(** The events are handled in order until the promise is settled. *)
Fixpoint awaitTransfer (filePath : string) (evs : list StreamEvent)
    (s : Transfer * World) : Transfer * World :=
  match promise (fst s) with
  | Some _ => s
  | None =>
      match evs with
      | [] => onTimeout filePath s
      | ev :: evs' => awaitTransfer filePath evs' (onStreamEvent filePath ev s)
      end
  end.

Definition showZ (z : Z) : string := NilZero.string_of_int (Z.to_int z).

Definition downloadPath (videoData : VideoData) : string :=
  pathJoin downloadsDir (id videoData +:+ "_" +:+ filename videoData).
#[global] Arguments downloadPath : simpl never.

(** A promise that is pending while its timer is armed is settled in the
    end: by a handler of the streams, or else by the callback of the timer. *)
Lemma awaitTransfer_settles filePath evs s :
  (promise (fst s) = None -> timerArmed (fst s) = true) ->
  promise (fst (awaitTransfer filePath evs s)) <> None.
Proof.
  revert s. induction evs as [|ev evs IH]; intros [t w] Harmed; cbn [awaitTransfer fst] in *.
  - destruct (promise t) eqn:Hp; [cbn; congruence|].
    cbn. rewrite (Harmed eq_refl). unfold settle. cbn. rewrite Hp. discriminate.
  - destruct (promise t) eqn:Hp; [cbn; congruence|].
    apply IH. destruct ev; cbn; [destruct (writerOpen t); cbn; auto|..];
      unfold settle; cbn; rewrite Hp; cbn; discriminate.
Qed.

(** How a settled promise was settled. A pending promise has no outcome:
    [await] on it does not return. *)
Definition settlement (t : Transfer) : promise t <> None -> Result string :=
  match promise t as p return p <> None -> Result string with
  | Some r => fun _ => r
  | None => fun pending => match pending eq_refl with end
  end.

(** The promise [downloadVideo] returns, awaited by the caller: the handlers
    run until one of them settles it, and the outcome is the one it was
    settled with. *)
Definition transferPromise (filePath : string) (evs : list StreamEvent) : M World string :=
  fun w =>
    let pending := (mkTransfer None true true, w) in
    let s := awaitTransfer filePath evs pending in
    (settlement (fst s) (awaitTransfer_settles filePath evs pending (fun _ => eq_refl)),
     snd s).

(** The [catch] block covers the request, the size check and the creation
    of the write stream; the promise is returned without being awaited, so
    its rejection passes the [catch] block by. *)
Definition downloadVideo (sc : DownloadScript) (videoData : VideoData) : M World string :=
  reply (dirReply sc) ;;;
  let filePath := downloadPath videoData in
  tryCatch
    (contentLength <- match response sc with
                      | inl len => ret len
                      | inr e => throw e
                      end ;;
     (match contentLength with
      | Some len =>
          if (len >? MAX_VIDEO_SIZE)%Z
          then throw (newError ("Video file too large: " +:+ showZ len +:+ " bytes (max: "
                                  +:+ showZ MAX_VIDEO_SIZE +:+ " bytes)"))
          else ret tt
      | None => ret tt
      end) ;;;
     (* fs.createWriteStream(filePath) *)
     modify (fun w => withFiles (<[filePath := 0%N]> (files w)) w))
    (fun error =>
       modify (removeSync filePath) ;;;
       throw error) ;;;
  transferPromise filePath (events sc).

(** [markAsDownloaded(videoId)]; [r] is the reply of [axios.post]. *)
Definition markAsDownloaded (r : option Error) (videoId : string) : M World bool :=
  tryCatch
    (modify (emit (EvMarkDownloaded videoId)) ;;;
     reply r ;;;
     ret true)
    (fun _ => ret false).

End VideoService.

(** ** utils/helpers.js: formatDuration *)

Module Duration.

(** The largest whole number up to which JavaScript numbers hold every
    whole number exactly ([Number.MAX_SAFE_INTEGER]). *)
Definition MAX_SAFE_INTEGER : Z := 2 ^ 53 - 1.

(** [formatDuration(seconds)] on whole seconds, which is what
    [processUserUpload] passes. The code computes in double precision: up to
    [MAX_SAFE_INTEGER] its quotients, rounded down, and its remainders are the
    exact ones written here, and the numbers are printed digit by digit;
    above it they are not, and the definition says nothing about the code
    there. *)
Definition formatDuration (seconds : Z) : string :=
  if (seconds =? 0) || (seconds <? 0) then "0s"
  else
    let hours := seconds / 3600 in
    let minutes := (seconds mod 3600) / 60 in
    let secs := seconds mod 60 in
    let parts := [] in
    let parts := if hours >? 0 then parts ++ [VideoService.showZ hours +:+ "h"] else parts in
    let parts := if minutes >? 0 then parts ++ [VideoService.showZ minutes +:+ "m"] else parts in
    let parts := if (secs >? 0) || (length parts =? 0)%nat
                 then parts ++ [VideoService.showZ secs +:+ "s"] else parts in
    String.concat " " parts.

End Duration.

(** ** services/youtubeService.js: uploadVideo *)

Module YouTubeService.
Import Js JsString Model YouTubeMeta TokenService.
Local Open Scope js_scope.

Definition MAX_YOUTUBE_FILE_SIZE : Z := 256 * 1024 * 1024 * 1024.

(** The reply of [youtube.videos.insert] raced against the one hour timer. *)
Inductive InsertReply :=
| InsertOk (videoId : string)         (* response.data.id *)
| InsertFails (e : Error)
| InsertHangs.                        (* the timer wins the race *)

Record UploadScript := mkUploadScript {
  tokenScript : TokenScript;
  insertReply : InsertReply;
  insertMs : Z                          (* time spent in the upload *)
}.

Record UploadResult := mkUploadResult {
  resultVideoId : string;
  resultVideoUrl : string
}.

Definition twoDigits (n : Z) : string :=
  if (n <? 10)%Z then "0" +:+ VideoService.showZ n else VideoService.showZ n.

(** [(size / 2^30).toFixed(2)], rounded on integers. *)
Definition fileSizeGB (size : N) : string :=
  let hundredths := ((Z.of_N size * 100 + 2 ^ 29) / 2 ^ 30)%Z in
  VideoService.showZ (hundredths / 100) +:+ "." +:+ twoDigits (hundredths mod 100).

Definition quotaMessage : string :=
  "YouTube API quota exceeded - please try again later".
Definition authFailedMessage : string :=
  "YouTube authentication failed - user needs to re-authenticate".
Definition fileGoneMessage : string :=
  "Video file was deleted before upload completed".

(** The [catch] block of [uploadVideo]: every failure is rethrown under
    one of four messages. *)
Definition classify (error : Error) : Error :=
  if bool_decide (code error = Some (CodeNum 403)) || includes "quota" (message error)
  then newError quotaMessage
  else if bool_decide (code error = Some (CodeNum 401))
          || includes "invalid_grant" (message error)
  then newError authFailedMessage
  else if includes "ENOENT" (message error) || includes "file not found" (message error)
  then newError fileGoneMessage
  else newError ("Upload failed: " +:+ message error).

Section WithConfig.
Variable config : Config.

Definition videoMetadata (videoData : VideoData) : VideoMetadata :=
  mkVideoMetadata
    (sanitizeMetadata (Some (title videoData)))
    (sanitizeMetadata
       (Some (match description videoData with
              | Some d => if String.eqb d "" then
                            "Uploaded via Auto-Uploader" +:+ String "010" (String "010" "")
                            +:+ "Original filename: " +:+ filename videoData
                          else d
              | None => "Uploaded via Auto-Uploader" +:+ String "010" (String "010" "")
                        +:+ "Original filename: " +:+ filename videoData
              end)))
    (validateAndFormatTags (youtubeTags config))
    (youtubeCategory config)
    (validatePrivacyStatus (youtubePrivacy config)).

Definition uploadVideo (sc : UploadScript) (user : UserDoc) (videoData : VideoData)
    (filePath : string) : M World UploadResult :=
  tryCatch
    (w <- get ;;
     match files w !! filePath with
     | None => throw (newError "Video file not found")
     | Some size =>
         if (Z.of_N size >? MAX_YOUTUBE_FILE_SIZE)%Z then
           throw (newError ("Video file too large: " +:+ fileSizeGB size
                              +:+ "GB (YouTube limit: 256GB)"))
         else
           tokens <- tryCatch (getValidTokens (tokenScript sc) (_id user))
                       (fun tokenError => throw tokenError) ;;
           modify (emit (EvInsert (tokens ≫= access_token) (videoMetadata videoData))) ;;;
           modify (fun w => withClock (clock w + insertMs sc) w) ;;;
           match insertReply sc with
           | InsertOk youtubeVideoId =>
               ret (mkUploadResult youtubeVideoId
                      ("https://www.youtube.com/watch?v=" +:+ youtubeVideoId))
           | InsertFails e => throw e
           | InsertHangs => throw (newError "YouTube upload timeout after 1 hour")
           end
     end)
    (fun error => throw (classify error)).
End WithConfig.

End YouTubeService.

(** ** jobs/uploadJob.js *)

Module UploadJob.
Import Js JsString Model Helpers Persistence.
Local Open Scope js_scope.

(** The replies one run of [processUserUpload] receives. *)
Record RunScript := mkRunScript {
  nextVideo : VideoService.NextReply;
  logSaveCreate : option Error;         (* uploadLog.save(), status downloading *)
  download : VideoService.DownloadScript;
  logSaveUploading : option Error;      (* uploadLog.save(), status uploading *)
  upload : YouTubeService.UploadScript;
  logSaveSuccess : option Error;        (* uploadLog.save(), status success *)
  userSaveSuccess : option Error;       (* user.save() after the counters of a success *)
  markReply : option Error;             (* markAsDownloaded *)
  cleanupReply : option Error;          (* fs.remove after a success *)
  logSaveFailed : option Error;         (* uploadLog.save(), status failed *)
  userSaveFailed : option Error;        (* user.save() after failedUploads += 1 *)
  cleanupReplyFailed : option Error     (* fs.remove in the catch block *)
}.

(** The arguments and local variables of [processUserUpload]. *)
Record Locals := mkLocals {
  user : UserDoc;
  results : Results;
  videoData : option VideoData;
  filePath : option string;
  uploadLog : option UploadLogDoc
}.

Definition withUser (u : UserDoc) (l : Locals) : Locals :=
  mkLocals u (results l) (videoData l) (filePath l) (uploadLog l).
Definition withResults (r : Results) (l : Locals) : Locals :=
  mkLocals (user l) r (videoData l) (filePath l) (uploadLog l).
Definition withVideoData (v : option VideoData) (l : Locals) : Locals :=
  mkLocals (user l) (results l) v (filePath l) (uploadLog l).
Definition withFilePath (p : option string) (l : Locals) : Locals :=
  mkLocals (user l) (results l) (videoData l) p (uploadLog l).
Definition withUploadLog (d : option UploadLogDoc) (l : Locals) : Locals :=
  mkLocals (user l) (results l) (videoData l) (filePath l) d.

Definition entry (u : UserDoc) (r : Results) : Locals := mkLocals u r None None None.

(** [await user.save()] and [await uploadLog.save()] on the locals. *)
Definition userSave (outcome : option Error) : M (Locals * World) unit :=
  onLocal user withUser (saveUser outcome).

Definition uploadLogSave (outcome : option Error) : M (Locals * World) unit :=
  fun '(l, w) =>
    match uploadLog l with
    | Some d =>
        let '(r, (d', w')) := saveLog outcome (d, w) in
        (r, (withUploadLog (Some d') l, w'))
    | None => (Ok tt, (l, w))
    end.

(** [uploadLog.<field> = ...] *)
Definition editUploadLog (f : UploadLog -> UploadLog) : M (Locals * World) unit :=
  setL (fun l => withUploadLog
                   (match uploadLog l with
                    | Some d => Some (mkUploadLogDoc (slot d) (f (logFields d)))
                    | None => None
                    end) l).

(** [videoData?.title || 'Unknown'] *)
Definition titleOrUnknown (v : option VideoData) : string :=
  match v with
  | Some vd => if String.eqb (title vd) "" then "Unknown" else title vd
  | None => "Unknown"
  end.

Definition isAuthError (msg : string) : bool :=
  includes "authentication" msg || includes "re-authenticate" msg.

Section WithConfig.
Variable config : Config.

(** The [try] block of [processUserUpload], first part (lines 132-165):
    fetch, Transfer Record, download, validation, status [uploading].
    It returns nothing when no video is available, and otherwise the
    video and the path of the downloaded file. *)
Definition acquire (sc : RunScript) : M (Locals * World) (option (VideoData * string)) :=
  next <- VideoService.getNextVideo (nextVideo sc) ;;
  setL (withVideoData next) ;;;
  match next with
  | None =>
      setL (fun l => withResults (setNoVideos (results l)) l) ;;;
      ret None
  | Some video =>
      l <- getL ;;
      setL (withUploadLog
              (Some (mkUploadLogDoc None
                       (mkUploadLog (_id (user l)) (id video) (title video)
                          (filename video) Downloading None None None None)))) ;;;
      uploadLogSave (logSaveCreate sc) ;;;
      path <- liftW (VideoService.downloadVideo (download sc) video) ;;
      setL (withFilePath (Some path)) ;;;
      tryCatch (liftW (validateVideoFile path) ;;; ret tt)
        (fun validationError =>
           throw (newError ("Video file validation failed: "
                              +:+ message validationError))) ;;;
      editUploadLog (withStatus Uploading) ;;;
      uploadLogSave (logSaveUploading sc) ;;;
      ret (Some (video, path))
  end.

(** What follows a successful [uploadVideo] (lines 170-201). *)
Definition complete (sc : RunScript) (video : VideoData) (path : string)
    (uploadStartTime : Z) (uploadResult : YouTubeService.UploadResult)
    : M (Locals * World) unit :=
  finished <- liftW (gets clock) ;;
  let uploadDuration := ((finished - uploadStartTime) / 1000)%Z in
  editUploadLog (withStatus Success) ;;;
  editUploadLog (withPublished (YouTubeService.resultVideoId uploadResult)
                   finished uploadDuration) ;;;
  uploadLogSave (logSaveSuccess sc) ;;;
  today <- liftW (gets clock) ;;
  setL (fun l => withUser (setLastUploadDate today (user l)) l) ;;;
  setL (fun l => withUser
                   (setTotalUploads (totalUploads (fields (user l)) + 1) (user l)) l) ;;;
  userSave (userSaveSuccess sc) ;;;
  liftW (VideoService.markAsDownloaded (markReply sc) (id video)) ;;;
  liftW (cleanupFile (cleanupReply sc) (Some path)) ;;;
  setL (fun l =>
          withResults
            (pushSuccessful
               (mkSuccessEntry (email (fields (user l))) (title video)
                  (YouTubeService.resultVideoUrl uploadResult) uploadDuration)
               (results l)) l).

(** The publish step and what follows it (lines 167-201). *)
Definition publish (sc : RunScript) (video : VideoData) (path : string)
    : M (Locals * World) unit :=
  uploadStartTime <- liftW (gets clock) ;;
  l <- getL ;;
  uploadResult <- liftW (YouTubeService.uploadVideo config (upload sc)
                           (user l) video path) ;;
  complete sc video path uploadStartTime uploadResult.

(** The whole [try] block. *)
Definition pipeline (sc : RunScript) : M (Locals * World) unit :=
  acquired <- acquire sc ;;
  match acquired with
  | None => ret tt
  | Some (video, path) => publish sc video path
  end.

(** The [catch] block of [processUserUpload]. *)
Definition onFailure (sc : RunScript) (error : Error) : M (Locals * World) unit :=
  l <- getL ;;
  (match uploadLog l with
   | Some _ =>
       editUploadLog (withStatus Failed) ;;;
       editUploadLog (withErrorMessage (message error)) ;;;
       tryCatch (uploadLogSave (logSaveFailed sc)) (fun logError => ret tt)
   | None => ret tt
   end) ;;;
  setL (fun l => withUser
                   (setFailedUploads (failedUploads (fields (user l)) + 1) (user l)) l) ;;;
  tryCatch (userSave (userSaveFailed sc)) (fun userError => ret tt) ;;;
  l <- getL ;;
  (match filePath l with
   | Some p => liftW (cleanupFile (cleanupReplyFailed sc) (Some p)) ;;; ret tt
   | None => ret tt
   end) ;;;
  (if isAuthError (message error) then
     liftW (EmailService.sendReAuthenticationRequired
              (email (fields (user l))) (channelTitle (fields (user l)))) ;;; ret tt
   else
     liftW (EmailService.sendErrorNotification config
              (email (fields (user l))) (titleOrUnknown (videoData l))
              (message error)) ;;; ret tt) ;;;
  setL (fun l =>
          withResults
            (pushFailed
               (mkFailedEntry (email (fields (user l))) (titleOrUnknown (videoData l))
                  (message error))
               (results l)) l).

Definition processUserUpload (sc : RunScript) : M (Locals * World) unit :=
  tryCatch (pipeline sc) (onFailure sc).

(** The state of the job object: [this.isRunning], [this.cronJob]
    (the expression it was scheduled with) and [this.skippedCycles]. *)
Record Job := mkJob {
  isRunning : bool;
  cronJob : option string;
  skippedCycles : nat
}.

(** The replies one cycle receives. *)
Record CycleScript := mkCycleScript {
  dbReady : bool;                       (* mongoose.connection.readyState === 1 *)
  findUsers : option Error;             (* User.find(...).exec() *)
  runs : nat -> RunScript               (* the replies for the i-th selected user *)
}.

Definition checkDatabaseConnection {S} (cy : CycleScript) : M S bool :=
  tryCatch
    (if negb (dbReady cy) then throw (newError "Database connection not ready")
     else ret true)
    (fun _ => ret false).

Definition emptyResults : Results := mkResults [] [] 0 false false.

(** [for (const user of users) { try { ... } catch (error) { ... } }],
    entered at the user with index [i]. *)
Fixpoint forEachUser (cy : CycleScript) (i : nat) (us : list UserDoc)
    : M (Results * World) unit :=
  match us with
  | [] => ret tt
  | u :: rest =>
      tryCatch
        (onLocal (entry u) (fun l _ => results l) (processUserUpload (runs cy i)))
        (fun error =>
           setL (pushFailed (mkFailedEntry (email (fields u)) "N/A" (message error)))) ;;;
      forEachUser cy (S i) rest
  end.

(** The [try]/[catch] of [processUploads] around a fresh [results]. *)
Definition cycle (cy : CycleScript) : M (Results * World) unit :=
  tryCatch
    (dbConnected <- checkDatabaseConnection cy ;;
     if negb dbConnected then
       setL setDbError ;;;
       r <- getL ;;
       liftW (EmailService.sendUploadReport config r) ;;;
       ret tt
     else
       us <- liftW (findActiveUsers (findUsers cy)) ;;
       setL (setTotalUsers (length us)) ;;;
       match us with
       | [] =>
           r <- getL ;;
           liftW (EmailService.sendUploadReport config r) ;;;
           ret tt
       | _ =>
           forEachUser cy 0 us ;;;
           r <- getL ;;
           liftW (EmailService.sendUploadReport config r) ;;;
           ret tt
       end)
    (fun error =>
       tryCatch
         (r <- getL ;;
          liftW (EmailService.sendUploadReport config r) ;;;
          ret tt)
         (fun emailError => ret tt)).

Definition setRunning (b : bool) (j : Job) : Job :=
  mkJob b (cronJob j) (skippedCycles j).
Definition setSkipped (n : nat) (j : Job) : Job :=
  mkJob (isRunning j) (cronJob j) n.

(** Calls that the scheduler or [runNow] make on the same job while a call
    is suspended at an [await], in the order in which they are made. Each
    runs on the job and the world as it finds them, and what it returns goes
    to its own caller. A call that finds the job running has no [await] of
    its own, so it is over before anything else runs; a call that found the
    job idle would be suspended in its turn, which is not followed here. *)
Definition interleave (calls : list (M (Job * World) unit)) (s : Job * World)
  : Job * World :=
  fold_left (fun s call => snd (call s)) calls s.

(** [processUploads()], with the calls that arrive while it is suspended at
    [await this.checkDatabaseConnection()], the first [await] of the cycle. *)
Definition processUploadsDuring (arriving : list (M (Job * World) unit))
    (cy : CycleScript) : M (Job * World) unit :=
  this <- getL ;;
  if isRunning this then
    setL (fun j => setSkipped (skippedCycles j + 1) j) ;;;
    this <- getL ;;
    (if (3 <=? skippedCycles this)%nat then setL (setSkipped 0) else ret tt) ;;;
    ret tt
  else
    setL (setRunning true) ;;;
    setL (setSkipped 0) ;;;
    tryFinally
      (modify (interleave arriving) ;;;
       liftW (withLocals emptyResults (cycle cy)))
      (fun '(j, w) => (setRunning false j, w)).

(** [processUploads()] when no other call arrives before it is over. *)
Definition processUploads (cy : CycleScript) : M (Job * World) unit :=
  processUploadsDuring [] cy.

End WithConfig.

End UploadJob.

(** * Vocabulary of the properties *)

Module Spec.
Import Js Model.

Section Backoff.
Context {S A : Type}.
Variables (sleep : Z -> S -> S) (fn : M S A) (base : Z) (s0 : S).

(** [failedAttempts k s]: starting in [s0], the first [k] attempts have
    failed, attempt [i] was followed by a wait of [base * 2^(i-1)]
    (attempts counted from 1), and [s] is the state in which the next
    attempt would start. *)
Inductive failedAttempts : nat -> S -> Prop :=
| failed_none : failedAttempts 0 s0
| failed_next k s e s' :
    failedAttempts k s ->
    fn s = (Throw e, s') ->
    failedAttempts (Datatypes.S k) (sleep (base * 2 ^ Z.of_nat k) s').
End Backoff.

(** The number of refresh exchanges in a trace. *)
Definition refreshCalls (tr : list Event) : nat :=
  length (List.filter (fun ev => match ev with EvRefresh _ => true | _ => false end) tr).

(** The [sendMail] attempts of a trace, in order, with the transport's
    answer to each. *)
Definition mailAttempts (tr : list Event) : list (Mail * bool) :=
  flat_map (fun ev => match ev with EvSendMail m ok => [(m, ok)] | _ => [] end) tr.

(** The attempts of one message sent under a retry policy of [max]
    attempts: refusals, ended by the first acceptance or by the [max]-th
    refusal. *)
Definition oneSend (max : nat) (m : Mail) (attempts : list (Mail * bool)) : Prop :=
  exists k,
    (k < max)%nat /\ attempts = repeat (m, false) k ++ [(m, true)]
    \/ k = max /\ attempts = repeat (m, false) max.

(** Everything but local storage is the same in both worlds. *)
Definition sameButFiles (w w' : World) : Prop :=
  users w' = users w /\ uploadLogs w' = uploadLogs w /\ clock w' = clock w
  /\ smtp w' = smtp w /\ trace w' = trace w.

(** A notification was sent between [w] and [w']: the collections,
    local storage and the clock are the same, and the trace grew by the
    attempts of that one message (and the waits between them). *)
Definition sent (max : nat) (m : Mail) (w w' : World) : Prop :=
  users w' = users w /\ uploadLogs w' = uploadLogs w /\ files w' = files w
  /\ clock w' = clock w
  /\ exists extra,
      trace w' = trace w ++ extra
      /\ oneSend max m (mailAttempts extra)
      /\ refreshCalls extra = 0%nat.

(** A stream event that carries data, as opposed to one that ends the
    transfer. *)
Definition isChunk (ev : VideoService.StreamEvent) : bool :=
  match ev with VideoService.Chunk _ => true | _ => false end.

(** The handlers run over a sequence of events, whether or not the promise
    is settled already. *)
Definition handleAll (filePath : string) (evs : list VideoService.StreamEvent)
    (s : VideoService.Transfer * World) : VideoService.Transfer * World :=
  fold_left (fun s ev => VideoService.onStreamEvent filePath ev s) evs s.

(** Two versions of an Account that differ at most in the credential
    bundle, the refresh timestamp and the activation flag. *)
Definition sameAccounting (u u' : User) : Prop :=
  email u' = email u /\ channelTitle u' = channelTitle u
  /\ lastUploadDate u' = lastUploadDate u
  /\ totalUploads u' = totalUploads u /\ failedUploads u' = failedUploads u.

(** Two states of the Account collection with the same keys, whose records
    differ at most as above. *)
Definition credentialsOnly (us us' : gmap N User) : Prop :=
  forall k,
    match us !! k, us' !! k with
    | Some u, Some u' => sameAccounting u u'
    | None, None => True
    | _, _ => False
    end.

(** What [getNextVideo] makes of a reply; it has no effect of its own. *)
Definition nextOutcome (r : VideoService.NextReply) : Result (option VideoData) :=
  fst (VideoService.getNextVideo r tt).

(** The fetch interface reports that no resource is available. *)
Definition noneAvailable (r : VideoService.NextReply) : bool :=
  match nextOutcome r with
  | Ok None => true
  | _ => false
  end.

(** One Transfer Record may still be inserted for the document held in
    [uploadLog]: it exists and no save has stored it yet. *)
Definition recordPending (l : UploadJob.Locals) : nat :=
  match UploadJob.uploadLog l with
  | Some d => match slot d with None => 1 | Some _ => 0 end
  | None => 0
  end.

(** The attempts to send a cycle report. *)
Definition reportAttempts (tr : list Event) : list (Mail * bool) :=
  List.filter (fun a => match body (fst a) with ReportBody _ => true | _ => false end)
    (mailAttempts tr).

(** Every character of a string passes a test. *)
Fixpoint allChars (P : ascii -> bool) (s : string) : bool :=
  match s with
  | EmptyString => true
  | String c t => P c && allChars P t
  end.

(** No two underscores in a row. *)
Fixpoint noDoubleUnderscore (s : string) : bool :=
  match s with
  | EmptyString => true
  | String c t =>
      match t with
      | String c' _ => negb (Ascii.eqb c "_" && Ascii.eqb c' "_") && noDoubleUnderscore t
      | EmptyString => true
      end
  end.

(** The characters that open or close markup or an attribute value. *)
Definition rawMarkup (c : ascii) : bool :=
  Ascii.eqb c "<" || Ascii.eqb c ">" || Ascii.eqb c EmailService.quoteChar
  || Ascii.eqb c "'".

(** Reading the five entities back. *)
Fixpoint unescapeHtml (s : string) : string :=
  match s with
  | EmptyString => EmptyString
  | String c t =>
      if Ascii.eqb c "&" then
        match t with
        | String "a" (String "m" (String "p" (String ";" r))) =>
            String "&" (unescapeHtml r)
        | String "l" (String "t" (String ";" r)) => String "<" (unescapeHtml r)
        | String "g" (String "t" (String ";" r)) => String ">" (unescapeHtml r)
        | String "q" (String "u" (String "o" (String "t" (String ";" r)))) =>
            String EmailService.quoteChar (unescapeHtml r)
        | String "#" (String "0" (String "3" (String "9" (String ";" r)))) =>
            String "'" (unescapeHtml r)
        | _ => String c (unescapeHtml t)
        end
      else String c (unescapeHtml t)
  end.

(** One component of a rendered duration, and whether it is shown. *)
Definition render (c : Z * string) : string := VideoService.showZ (fst c) +:+ snd c.
Definition shown (c : Z * string) : bool := 0 <? fst c.

(** The waits recorded in a trace, in order. *)
Definition waits (tr : list Event) : list Z :=
  flat_map (fun ev => match ev with EvSleep ms => [ms] | _ => [] end) tr.

(** The delays [base * 2^i], ..., [base * 2^(i+k-1)]. *)
Definition backoff (base : Z) (i k : nat) : list Z :=
  List.map (fun j => base * 2 ^ Z.of_nat j) (seq i k).

(** [send] is a sender under a retry policy of [max] attempts and base
    delay [base]: it returns whether the message was accepted, after [k]
    refusals; only the mail queue and the trace move. *)
Definition delivery (max : nat) (base : Z) (m : Mail) (send : M World bool)
    (w : World) : Prop :=
  exists ok w' extra k,
    send w = (Ok ok, w')
    /\ users w' = users w /\ uploadLogs w' = uploadLogs w /\ files w' = files w
    /\ clock w' = clock w
    /\ trace w' = trace w ++ extra
    /\ mailAttempts extra = repeat (m, false) k ++ (if ok then [(m, true)] else [])
    /\ waits extra = backoff base 0 (if ok then k else k - 1)
    /\ (if ok then k < max else k = max)%nat.


(** Two finite maps that agree outside one key. *)
Definition onlyAt `{Countable K} {V} (k : K) (m m' : gmap K V) : Prop :=
  forall k', k' <> k -> m' !! k' = m !! k'.

(** The request bodies of the publish calls in a trace. *)
Definition published (tr : list Event) : list VideoMetadata :=
  flat_map (fun ev => match ev with EvInsert _ meta => [meta] | _ => [] end) tr.

(** A Transfer Record is the one of this Account and this video. *)
Definition describes (uid : N) (v : VideoData) (r : UploadLog) : Prop :=
  userId r = uid /\ videoId r = id v /\ videoTitle r = title v
  /\ videoFilename r = filename v.

(** The Transfer Record of a run that started with the collection [base]:
    the document held in [uploadLog] is not stored yet, or it is the one
    record added to [base]. *)
Definition recordAt (base : list UploadLog) (uid : N) (v : VideoData)
    (l : UploadJob.Locals) (w : World) : Prop :=
  exists d,
    UploadJob.uploadLog l = Some d /\ describes uid v (logFields d)
    /\ ((slot d = None /\ uploadLogs w = base)
        \/ (slot d = Some (length base) /\ exists x, uploadLogs w = base ++ [x])).

(** The same replies, but for the one to [markAsDownloaded]. *)
Definition withMarkReply (r : option Error) (sc : UploadJob.RunScript)
    : UploadJob.RunScript :=
  UploadJob.mkRunScript (UploadJob.nextVideo sc) (UploadJob.logSaveCreate sc)
    (UploadJob.download sc) (UploadJob.logSaveUploading sc) (UploadJob.upload sc)
    (UploadJob.logSaveSuccess sc) (UploadJob.userSaveSuccess sc) r
    (UploadJob.cleanupReply sc) (UploadJob.logSaveFailed sc)
    (UploadJob.userSaveFailed sc) (UploadJob.cleanupReplyFailed sc).

(** [wp m s Q]: run in [s], [m] ends, returning or throwing, with a result
    and a state that satisfy [Q]. *)
Definition wp {S A} (m : M S A) (s : S) (Q : Result A -> S -> Prop) : Prop :=
  Q (fst (m s)) (snd (m s)).

(** The notice a failure is answered with, and its retry policy. *)
Definition noticeFor (config : Config) (l : UploadJob.Locals) (error : Error) : nat * Mail :=
  if UploadJob.isAuthError (message error)
  then (2%nat, mkMail (email (fields (UploadJob.user l)))
                 (ReAuthBody (channelTitle (fields (UploadJob.user l)))))
  else (3%nat, mkMail (reportEmail config)
                 (ErrorBody (email (fields (UploadJob.user l)))
                    (UploadJob.titleOrUnknown (UploadJob.videoData l))
                    (message error))).

(** The number of entries of a cycle result. *)
Definition entries (r : Results) : nat :=
  (length (successful r) + length (failed r))%nat.

(** Among the [n] selected accounts from index [i] on, those whose run was
    not cut short by "no resource available". *)
Fixpoint attempted (cy : UploadJob.CycleScript) (i n : nat) : nat :=
  match n with
  | O => 0
  | Datatypes.S n' =>
      ((if noneAvailable (UploadJob.nextVideo (UploadJob.runs cy i)) then 0 else 1)
       + attempted cy (Datatypes.S i) n')%nat
  end.

(** Some account among the [n] selected from index [i] on found no
    resource available. *)
Fixpoint someNoneAvailable (cy : UploadJob.CycleScript) (i n : nat) : bool :=
  match n with
  | O => false
  | Datatypes.S n' =>
      noneAvailable (UploadJob.nextVideo (UploadJob.runs cy i))
      || someNoneAvailable cy (Datatypes.S i) n'
  end.

(** The accounts a cycle goes through: none when the storage backend is not
    reachable or the query fails. *)
Definition selected (cy : UploadJob.CycleScript) (w : World) : list UserDoc :=
  if UploadJob.dbReady cy then
    match UploadJob.findUsers cy with
    | None => Persistence.activeUsers (users w)
    | Some _ => []
    end
  else [].

(** The publish interface was called. *)
Definition publishCalled (tr : list Event) : bool :=
  existsb (fun ev => match ev with EvInsert _ _ => true | _ => false end) tr.

End Spec.

(** * Concrete inputs used by the examples *)

Module Samples.
Import Js Model.

(** An operation that fails twice and then succeeds, on a state that counts
    the attempts and records the waits. *)
Definition flaky : M (nat * list Z) string :=
  fun '(calls, waits) =>
    if (calls <? 2)%nat then (Throw (newError "busy"), (Datatypes.S calls, waits))
    else (Ok "sent", (Datatypes.S calls, waits)).

Definition recordWait (ms : Z) (s : nat * list Z) : nat * list Z :=
  (fst s, (snd s ++ [ms])%list).

Definition bundle : Tokens :=
  mkTokens (Some "access-1") (Some "refresh-1") None (Some "Bearer") (Some 1000%Z).
Definition alice : User :=
  mkUser "alice@example.com" "Alice" (Some bundle) true None 0 0 0.
Definition aliceDoc : UserDoc := mkUserDoc 1 alice [].
Definition world0 : World := mkWorld {[ 1%N := alice ]} [] ∅ 5000%Z [] [].

Definition clip : VideoData :=
  mkVideoData "v1" "Clip" "clip.mp4" "http://catalog.example/v1" None.

(** A download that is still receiving data when the ceiling elapses. *)
Definition stalled : VideoService.DownloadScript :=
  VideoService.mkDownloadScript None (inl (Some 4096%Z))
    [VideoService.Chunk 1024; VideoService.Chunk 512].

Definition refreshOk : TokenService.TokenScript :=
  TokenService.mkTokenScript None
    (inl (TokenService.mkCredentials (Some "access-2") (Some 3605000%Z))) None None.
Definition refreshRevoked : TokenService.TokenScript :=
  TokenService.mkTokenScript None (inr (newError "invalid_grant")) None None.

Definition sampleConfig : Config :=
  mkConfig "ops@example.com" (YouTubeMeta.TagsArray ["shorts"; "funny"]) "public" "24".

Definition downloadOk : VideoService.DownloadScript :=
  VideoService.mkDownloadScript None (inl (Some 2048%Z))
    [VideoService.Chunk 2048; VideoService.WriterFinish].

(** Everything works. *)
Definition okRun : UploadJob.RunScript :=
  UploadJob.mkRunScript (VideoService.NextResponse true (Some clip)) None downloadOk None
    (YouTubeService.mkUploadScript refreshOk (YouTubeService.InsertOk "yt-1") 3000)
    None None None None None None None.

(** The publish interface answers with a quota error. *)
Definition quotaRun : UploadJob.RunScript :=
  UploadJob.mkRunScript (VideoService.NextResponse true (Some clip)) None downloadOk None
    (YouTubeService.mkUploadScript refreshOk
       (YouTubeService.InsertFails (mkError "quotaExceeded" (Some (CodeNum 403)) None)) 3000)
    None None None None None None None.

(** The authorization service refuses the refresh token. *)
Definition revokedRun : UploadJob.RunScript :=
  UploadJob.mkRunScript (VideoService.NextResponse true (Some clip)) None downloadOk None
    (YouTubeService.mkUploadScript refreshRevoked (YouTubeService.InsertOk "yt-1") 3000)
    None None None None None None None.

(** An account whose stored bundle has no refresh token, and one that was
    deactivated. *)
Definition bob : User :=
  mkUser "bob@example.com" "Bob" (Some (mkTokens (Some "access-b") None None None None))
    true (Some 100%Z) 3 0 0.
Definition carol : User :=
  mkUser "carol@example.com" "Carol" (Some bundle) false None 0 0 0.
Definition world1 : World :=
  mkWorld {[ 1%N := alice; 2%N := bob; 3%N := carol ]} [] ∅ 5000%Z
    [Some (newError "smtp unavailable")] [].



(** The storage backend is not reachable. *)
Definition offline : UploadJob.CycleScript :=
  UploadJob.mkCycleScript false None (fun _ => okRun).

(** The catalogue has nothing pending. *)
Definition emptyCatalogue : UploadJob.RunScript :=
  UploadJob.mkRunScript (VideoService.NextResponse false None) None downloadOk None
    (YouTubeService.mkUploadScript refreshOk (YouTubeService.InsertOk "yt-1") 3000)
    None None None None None None None.

End Samples.

(** * Properties *)

(** ** Tags handed to the publish step *)

Module TagsFacts.
Import JsString YouTubeMeta.

Lemma trimStart_first s c : first_char (trimStart s) = Some c -> is_space c = false.
Proof.
  induction s as [|a t IH]; simpl; [discriminate|].
  destruct (is_space a) eqn:Ha; [exact IH|].
  simpl. intros [= <-]. exact Ha.
Qed.

Lemma trimEnd_first s c : first_char (trimEnd s) = Some c -> first_char s = Some c.
Proof.
  destruct s as [|a t]; simpl; [discriminate|].
  destruct (trimEnd t); [destruct (is_space a)|]; simpl; congruence.
Qed.

Lemma trimEnd_last s c : last_char (trimEnd s) = Some c -> is_space c = false.
Proof.
  induction s as [|a t IH]; simpl; [discriminate|].
  destruct (trimEnd t) as [|b t'] eqn:Ht.
  - destruct (is_space a) eqn:Ha; simpl; [discriminate|]. intros [= <-]. exact Ha.
  - intros H. apply IH. exact H.
Qed.

Lemma trim_trimmed s : trimmed (trim s).
Proof.
  split; intros c H.
  - apply (trimStart_first s). apply trimEnd_first. exact H.
  - apply (trimEnd_last (trimStart s)). exact H.
Qed.


Lemma validateAndFormatTags_eq tags :
  validateAndFormatTags tags
  = firstn 30 (List.filter tag_ok (List.map trim (tagArray tags))).
Proof. destruct tags; reflexivity. Qed.



End TagsFacts.

(** ** The backoff executor *)

Module BackoffFacts.
Import Js Model Helpers Spec Samples.

Section Generic.
Context {S A : Type}.
Variables (sleep : Z -> S -> S) (fn : M S A).

(** After [k] failed attempts the loop is where it would be had it been
    entered at [k] in the state reached. *)
Lemma retryLoop_skip n b s0 k s e :
  failedAttempts sleep fn b s0 k s ->
  (k < n)%nat ->
  retryWithBackoff sleep fn n b s0 = retryLoop sleep fn n b (n - k) k e s.
Proof.
  intros H. revert e. induction H as [|k s e1 s' H IH Hfn]; intros e Hk.
  - unfold retryWithBackoff. rewrite Nat.sub_0_r.
    destruct n; [lia|]. reflexivity.
  - rewrite (IH None) by lia.
    replace (n - k)%nat with (Datatypes.S (n - Datatypes.S k)) by lia.
    destruct (n - Datatypes.S k)%nat as [|fuel] eqn:Hfuel; [lia|].
    cbn [retryLoop]. unfold tryCatch at 1. rewrite Hfn.
    replace (Z.of_nat k <? Z.of_nat n - 1)%Z with true
      by (symmetry; apply Z.ltb_lt; lia).
    reflexivity.
Qed.

(** C3: with at least one attempt allowed, [retryWithBackoff] returns the
    result of the first attempt that succeeds, having waited
    [base * 2^(i-1)] after each failed attempt [i] before it; when all
    [n] attempts fail it throws the error of the last one, with no wait
    after it. *)
Theorem retryWithBackoff_contract (n : nat) (base : Z) (s0 : S) :
  (1 <= n)%nat ->
  (forall k s v s',
      (k < n)%nat ->
      failedAttempts sleep fn base s0 k s ->
      fn s = (Ok v, s') ->
      retryWithBackoff sleep fn n base s0 = (Ok v, s')) /\
  (forall s e s',
      failedAttempts sleep fn base s0 (n - 1) s ->
      fn s = (Throw e, s') ->
      retryWithBackoff sleep fn n base s0 = (Throw e, s')).
Proof.
  intros Hn. split.
  - intros k s v s' Hk Hfail Hfn.
    rewrite (retryLoop_skip n base s0 k s None Hfail Hk).
    destruct (n - k)%nat as [|fuel] eqn:Hfuel; [lia|].
    cbn [retryLoop]. unfold tryCatch. rewrite Hfn. reflexivity.
  - intros s e s' Hfail Hfn.
    rewrite (retryLoop_skip n base s0 (n - 1) s None Hfail) by lia.
    replace (n - (n - 1))%nat with 1%nat by lia.
    cbn [retryLoop]. unfold tryCatch. rewrite Hfn.
    replace (Z.of_nat (n - 1) <? Z.of_nat n - 1)%Z with false
      by (symmetry; apply Z.ltb_ge; lia).
    reflexivity.
Qed.
End Generic.

Lemma retryWithBackoff_contract_witness :
  (1 <= 3)%nat /\
  retryWithBackoff recordWait flaky 3 1000 (0%nat, [])
    = (Ok "sent", (3%nat, [1000; 2000]%Z)).
Proof.
  split; [lia|].
  apply (proj1 (retryWithBackoff_contract recordWait flaky 3 1000 (0%nat, []) ltac:(lia))
           2%nat (2%nat, [1000; 2000]%Z)); [lia| |reflexivity].
  apply (failed_next recordWait flaky 1000 (0%nat, []) 1 (1%nat, [1000]%Z)
           (newError "busy") (2%nat, [1000]%Z)); [|reflexivity].
  apply (failed_next recordWait flaky 1000 (0%nat, []) 0 (0%nat, [])
           (newError "busy") (1%nat, [])); [|reflexivity].
  apply failed_none.
Defined.

End BackoffFacts.

(** ** The credential lifecycle manager *)

Module TokenFacts.
Import Js Model Persistence TokenService Spec Samples.

Lemma refreshCalls_app tr tr' :
  refreshCalls (tr ++ tr') = (refreshCalls tr + refreshCalls tr')%nat.
Proof. unfold refreshCalls. rewrite List.filter_app, length_app. reflexivity. Qed.

(** The read path: nothing is called and nothing is written. *)
Lemma refresh_not_needed sc d w tk :
  tokens (fields d) = Some tk ->
  isExpiring (expiry_date tk) (clock w) = false ->
  refreshTokenIfNeeded sc (d, w) = (Ok (Some tk), (d, w)).
Proof.
  intros Htk Hexp. unfold refreshTokenIfNeeded, tryCatch, bind, getL, gets, liftW.
  cbn. rewrite Htk. cbn. rewrite Hexp. reflexivity.
Qed.

(** The refresh path makes one exchange, whatever its reply. *)
Lemma refresh_needed_trace sc d w tk r d' w' :
  tokens (fields d) = Some tk ->
  isExpiring (expiry_date tk) (clock w) = true ->
  refreshTokenIfNeeded sc (d, w) = (r, (d', w')) ->
  trace w' = trace w ++ [EvRefresh (refresh_token tk)].
Proof.
  intros Htk Hexp. unfold refreshTokenIfNeeded, tryCatch, bind, getL, gets, liftW.
  cbn. rewrite Htk. cbn. rewrite Hexp. cbn.
  destruct (refreshReply sc) as [c|e]; cbn.
  - destruct (refreshSave sc); cbn; intros [= <- <- <-]; reflexivity.
  - intros [= <- <- <-]. reflexivity.
Qed.

(** A failed exchange: the call throws the authentication-expired error
    and leaves the document as it was. *)
Lemma refresh_exchange_fails sc d w tk e :
  tokens (fields d) = Some tk ->
  isExpiring (expiry_date tk) (clock w) = true ->
  refreshReply sc = inr e ->
  refreshTokenIfNeeded sc (d, w)
  = (Throw (newError authExpiredMessage), (d, emit (EvRefresh (refresh_token tk)) w)).
Proof.
  intros Htk Hexp Hr. unfold refreshTokenIfNeeded, tryCatch, bind, getL, gets, liftW.
  cbn. rewrite Htk. cbn. rewrite Hexp. cbn. rewrite Hr. reflexivity.
Qed.

(** C8: with the clock after the epoch, the credential counts as expiring
    exactly when no expiry is recorded or the clock is within 300000 ms
    (5 minutes) of it; an expiry in the past makes [refreshTokenIfNeeded]
    perform exactly one refresh exchange; a credential that is not expiring
    is returned as stored, with the world and the document untouched. The
    function itself follows that criterion: whenever no expiry is recorded or
    the clock is within 5 minutes of it (or past it), it performs exactly one
    refresh exchange, whatever the replies; whenever an expiry is recorded
    and the clock is more than 5 minutes before it, it returns the stored
    bundle and touches neither the world nor the document. *)
Theorem refreshTokenIfNeeded_contract sc (d : UserDoc) (w : World) (tk : Tokens) :
  tokens (fields d) = Some tk ->
  0 <= clock w ->
  (isExpiring (expiry_date tk) (clock w) = true <->
     expiry_date tk = None \/
     exists e, expiry_date tk = Some e /\ e - 300000 <= clock w) /\
  (forall e r d' w',
      expiry_date tk = Some e -> e < clock w ->
      refreshTokenIfNeeded sc (d, w) = (r, (d', w')) ->
      trace w' = trace w ++ [EvRefresh (refresh_token tk)] /\
      refreshCalls (trace w') = (refreshCalls (trace w) + 1)%nat) /\
  (isExpiring (expiry_date tk) (clock w) = false ->
     refreshTokenIfNeeded sc (d, w) = (Ok (Some tk), (d, w))) /\
  (forall r d' w',
      (expiry_date tk = None \/
       exists e, expiry_date tk = Some e /\ e - 300000 <= clock w) ->
      refreshTokenIfNeeded sc (d, w) = (r, (d', w')) ->
      trace w' = trace w ++ [EvRefresh (refresh_token tk)] /\
      refreshCalls (trace w') = (refreshCalls (trace w) + 1)%nat) /\
  (forall e,
      expiry_date tk = Some e -> clock w < e - 300000 ->
      refreshTokenIfNeeded sc (d, w) = (Ok (Some tk), (d, w))).
Proof.
  intros Htk Hclock.
  assert (Hiff : isExpiring (expiry_date tk) (clock w) = true <->
                 expiry_date tk = None \/
                 exists e, expiry_date tk = Some e /\ e - 300000 <= clock w).
  { unfold isExpiring, fiveMinutes. destruct (expiry_date tk) as [e|].
    + rewrite orb_true_iff, Z.eqb_eq, Z.geb_le. split.
      * intros H. right. exists e. split; [reflexivity|lia].
      * intros [H|(e' & [= <-] & H)]; [discriminate|right; lia].
    + split; [left; reflexivity|reflexivity]. }
  split; [exact Hiff|]. split; [|split; [|split]].
  - intros e r d' w' He Hpast Hrun.
    assert (Hexp : isExpiring (expiry_date tk) (clock w) = true).
    { rewrite He. unfold isExpiring, fiveMinutes.
      apply orb_true_iff. right. apply Z.geb_le. lia. }
    pose proof (refresh_needed_trace sc d w tk r d' w' Htk Hexp Hrun) as Htr.
    split; [exact Htr|]. rewrite Htr, refreshCalls_app. reflexivity.
  - apply refresh_not_needed. exact Htk.
  - intros r d' w' Hcrit Hrun. apply Hiff in Hcrit.
    pose proof (refresh_needed_trace sc d w tk r d' w' Htk Hcrit Hrun) as Htr.
    split; [exact Htr|]. rewrite Htr, refreshCalls_app. reflexivity.
  - intros e He Hearly. apply refresh_not_needed; [exact Htk|].
    rewrite He. unfold isExpiring, fiveMinutes.
    apply orb_false_iff. split; [apply Z.eqb_neq; lia|].
    destruct (Z.geb_spec (clock w) (e - 5 * 60 * 1000)); [lia|reflexivity].
Qed.

Lemma refreshTokenIfNeeded_contract_witness :
  0 <= clock world0 /\
  refreshCalls (trace (snd (snd (refreshTokenIfNeeded refreshOk (aliceDoc, world0))))) = 1%nat.
Proof.
  split; [vm_compute; discriminate|].
  destruct (refreshTokenIfNeeded refreshOk (aliceDoc, world0)) as [r [d' w']] eqn:Hrun.
  apply (proj1 (proj2 (refreshTokenIfNeeded_contract refreshOk aliceDoc world0 bundle
                         eq_refl ltac:(vm_compute; discriminate)))
           1000 r d' w' eq_refl ltac:(reflexivity) Hrun).
Defined.

End TokenFacts.

(** ** What each service may change *)

Module WorldFacts.
Import Js Model Helpers Persistence EmailService VideoService Spec.

Ltac unfold_js :=
  unfold bind, ret, throw, tryCatch, tryFinally, get, gets, modify, reply,
    liftW, withLocals, onLocal, getL, setL in *.

Lemma mailAttempts_app tr tr' :
  mailAttempts (tr ++ tr') = mailAttempts tr ++ mailAttempts tr'.
Proof. unfold mailAttempts. apply flat_map_app. Qed.

Lemma sameButFiles_refl w : sameButFiles w w.
Proof. repeat split. Qed.

Lemma sameButFiles_trans w1 w2 w3 :
  sameButFiles w1 w2 -> sameButFiles w2 w3 -> sameButFiles w1 w3.
Proof. unfold sameButFiles. intros (?&?&?&?&?) (?&?&?&?&?). repeat split; congruence. Qed.

Lemma sameButFiles_withFiles fs w : sameButFiles w (withFiles fs w).
Proof. repeat split. Qed.

(** The retry loop around [sendMail]: only the mail queue and the trace
    move, and the attempts are those of one message. *)
Lemma retry_sendMail m n b fuel i le w :
  exists r w' extra,
    retryLoop sleep (sendMail m) n b fuel i le w = (r, w')
    /\ users w' = users w /\ uploadLogs w' = uploadLogs w /\ files w' = files w
    /\ clock w' = clock w
    /\ trace w' = trace w ++ extra
    /\ refreshCalls extra = 0%nat
    /\ ((r = Ok tt /\ exists k, (k < fuel)%nat
                       /\ mailAttempts extra = repeat (m, false) k ++ [(m, true)])
        \/ ((exists e, r = Throw e) /\ mailAttempts extra = repeat (m, false) fuel)).
Proof.
  revert i le w. induction fuel as [|fuel IH]; intros i le w.
  - exists (Throw (default undefinedValue le)), w, []. cbn.
    rewrite app_nil_r. repeat split; try reflexivity. right. split; [eauto|reflexivity].
  - cbn [retryLoop]. unfold tryCatch at 1. unfold sendMail at 1.
    destruct (smtp w) as [|[e|] q] eqn:Hq.
    + exists (Ok tt), (emit (EvSendMail m true) w), [EvSendMail m true].
      repeat split; try reflexivity. left. split; [reflexivity|].
      exists 0%nat. split; [lia|reflexivity].
    + set (w1 := emit (EvSendMail m false) (withSmtp q w)).
      unfold bind at 1.
      set (w2 := if (Z.of_nat i <? Z.of_nat n - 1)%Z
                 then sleep (b * 2 ^ Z.of_nat i) w1 else w1).
      assert (Hstep : (if (Z.of_nat i <? Z.of_nat n - 1)%Z
                       then modify (sleep (b * 2 ^ Z.of_nat i)) else ret tt) w1
                      = (Ok tt, w2)).
      { unfold w2. destruct (Z.of_nat i <? Z.of_nat n - 1)%Z; reflexivity. }
      rewrite Hstep.
      destruct (IH (Datatypes.S i) (Some e) w2)
        as (r & w' & extra & Hrun & Hu & Hl & Hf & Hc & Ht & Hrc & Hcases).
      assert (Hw2 : exists pre, trace w2 = trace w ++ EvSendMail m false :: pre
                                /\ mailAttempts pre = [] /\ refreshCalls pre = 0%nat
                                /\ users w2 = users w /\ uploadLogs w2 = uploadLogs w
                                /\ files w2 = files w /\ clock w2 = clock w).
      { unfold w2. destruct (Z.of_nat i <? Z.of_nat n - 1)%Z.
        - exists [EvSleep (b * 2 ^ Z.of_nat i)]. cbn. rewrite <- app_assoc.
          repeat split; reflexivity.
        - exists []. repeat split; reflexivity. }
      destruct Hw2 as (pre & Htr2 & Hpre & Hprc & Hu2 & Hl2 & Hf2 & Hc2).
      exists r, w', (EvSendMail m false :: pre ++ extra).
      split; [exact Hrun|].
      split; [congruence|]. split; [congruence|]. split; [congruence|].
      split; [congruence|]. split.
      { rewrite Ht, Htr2, <- app_assoc. reflexivity. }
      split.
      { change (EvSendMail m false :: pre ++ extra)
          with ([EvSendMail m false] ++ pre ++ extra).
        unfold refreshCalls in *. rewrite !List.filter_app, !length_app.
        rewrite Hprc, Hrc. reflexivity. }
      change (EvSendMail m false :: pre ++ extra)
        with ([EvSendMail m false] ++ pre ++ extra).
      rewrite !mailAttempts_app, Hpre. cbn [mailAttempts flat_map app].
      destruct Hcases as [[-> (k & Hk & ->)]|[He ->]].
      * left. split; [reflexivity|]. exists (Datatypes.S k). split; [lia|reflexivity].
      * right. split; [exact He|reflexivity].
    + exists (Ok tt), (emit (EvSendMail m true) (withSmtp q w)), [EvSendMail m true].
      repeat split; try reflexivity. left. split; [reflexivity|].
      exists 0%nat. split; [lia|reflexivity].
Qed.

(** A sender built on the retry loop never throws and sends one message. *)
Lemma retried_send m n b w :
  exists ok w',
    tryCatch (bind (retryWithBackoff sleep (sendMail m) n b) (fun _ => ret true))
      (fun _ => ret false) w = (Ok ok, w')
    /\ sent n m w w'.
Proof.
  unfold retryWithBackoff.
  destruct (retry_sendMail m n b n 0%nat None w)
    as (r & w' & extra & Hrun & Hu & Hl & Hf & Hc & Ht & Hrc & Hcases).
  unfold tryCatch, bind. rewrite Hrun.
  assert (Hs : sent n m w w').
  { repeat split; try assumption. exists extra. repeat split; try assumption.
    destruct Hcases as [[_ (k & Hk & ->)]|[_ ->]].
    - exists k. left. split; [exact Hk|reflexivity].
    - exists n. right. split; reflexivity. }
  destruct Hcases as [[-> _]|[[e ->] _]]; cbn; eauto.
Qed.

Lemma sendUploadReport_sent config results w :
  exists ok w',
    sendUploadReport config results w = (Ok ok, w')
    /\ sent 3 (mkMail (reportEmail config) (ReportBody results)) w w'.
Proof. apply retried_send. Qed.

Lemma sendErrorNotification_sent config userEmail videoTitle errorMessage w :
  exists ok w',
    sendErrorNotification config userEmail videoTitle errorMessage w = (Ok ok, w')
    /\ sent 3 (mkMail (reportEmail config) (ErrorBody userEmail videoTitle errorMessage)) w w'.
Proof. apply retried_send. Qed.

Lemma sendReAuthenticationRequired_sent userEmail channelTitle w :
  exists ok w',
    sendReAuthenticationRequired userEmail channelTitle w = (Ok ok, w')
    /\ sent 2 (mkMail userEmail (ReAuthBody channelTitle)) w w'.
Proof. apply retried_send. Qed.

Lemma cleanupFile_files r p w :
  exists ok w', cleanupFile r p w = (Ok ok, w') /\ sameButFiles w w'.
Proof.
  unfold cleanupFile. unfold_js. destruct p as [p|]; cbn.
  - destruct (bool_decide (is_Some (files w !! p))); cbn.
    + destruct r; cbn; eexists _, _; (split; [reflexivity|]); repeat split.
    + eexists _, _; (split; [reflexivity|]); repeat split.
  - eexists _, _; (split; [reflexivity|]); repeat split.
Qed.

Lemma validateVideoFile_pure p w r w' :
  validateVideoFile p w = (r, w') ->
  w' = w /\ (forall ok, r = Ok ok -> exists size, files w !! p = Some size /\ (1024 <= size)%N).
Proof.
  unfold validateVideoFile. unfold_js. cbn.
  destruct (files w !! p) as [size|]; cbn.
  - destruct (size =? 0)%N eqn:H0; cbn.
    + intros [= <- <-]. split; [reflexivity|]. intros ok [=].
    + destruct (size <? 1024)%N eqn:H1; cbn; intros [= <- <-];
        (split; [reflexivity|]); intros ok [=].
      exists size. split; [reflexivity|]. apply N.ltb_ge in H1. exact H1.
  - intros [= <- <-]. split; [reflexivity|]. intros ok [=].
Qed.

Lemma markAsDownloaded_trace r videoId w :
  exists ok, markAsDownloaded r videoId w = (Ok ok, emit (EvMarkDownloaded videoId) w).
Proof.
  unfold markAsDownloaded. unfold_js. destruct r; cbn; eauto.
Qed.

End WorldFacts.

(** ** The download step *)

Module DownloadFacts.
Import Js Model Helpers VideoService Spec Samples WorldFacts.

Lemma onStreamEvent_sameButFiles p ev t w :
  sameButFiles w (snd (onStreamEvent p ev (t, w))).
Proof.
  destruct ev; cbn; [destruct (writerOpen t)|..]; cbn; repeat split.
Qed.

Lemma onTimeout_sameButFiles p t w : sameButFiles w (snd (onTimeout p (t, w))).
Proof. cbn. destruct (timerArmed t); cbn; repeat split. Qed.

Lemma awaitTransfer_sameButFiles p evs t w :
  sameButFiles w (snd (awaitTransfer p evs (t, w))).
Proof.
  revert t w. induction evs as [|ev evs IH]; intros t w; cbn [awaitTransfer fst].
  - destruct (promise t); [apply sameButFiles_refl|apply onTimeout_sameButFiles].
  - destruct (promise t); [apply sameButFiles_refl|].
    destruct (onStreamEvent p ev (t, w)) as [t1 w1] eqn:Hev.
    eapply sameButFiles_trans; [|apply IH].
    change w1 with (snd (t1, w1)). rewrite <- Hev. apply onStreamEvent_sameButFiles.
Qed.

(** The outcome of the awaited promise is the one a handler settled it
    with. *)
Lemma transferPromise_inv p evs w r w' :
  transferPromise p evs w = (r, w') ->
  exists t, awaitTransfer p evs (mkTransfer None true true, w) = (t, w')
            /\ promise t = Some r.
Proof.
  unfold transferPromise. cbv zeta.
  generalize (awaitTransfer_settles p evs (mkTransfer None true true, w) (fun _ => eq_refl)).
  destruct (awaitTransfer p evs _) as [[settled open armed] w1]. cbn [fst snd].
  unfold settlement. cbn [promise]. intros H.
  destruct settled as [r0|]; [|destruct (H eq_refl)].
  intros [= <- <-]. eexists. split; reflexivity.
Qed.

Lemma transferPromise_eq p evs w t r w' :
  awaitTransfer p evs (mkTransfer None true true, w) = (t, w') ->
  promise t = Some r ->
  transferPromise p evs w = (r, w').
Proof.
  intros Hrun Hp. destruct (transferPromise p evs w) as [r1 w1] eqn:E.
  apply transferPromise_inv in E as (t1 & E1 & E2).
  rewrite Hrun in E1. injection E1 as <- <-. congruence.
Qed.

Lemma transferPromise_sameButFiles p evs w r w' :
  transferPromise p evs w = (r, w') -> sameButFiles w w'.
Proof.
  intros H. apply transferPromise_inv in H as (t1 & Hrun & _).
  change w' with (snd (t1, w')). rewrite <- Hrun. apply awaitTransfer_sameButFiles.
Qed.

(** [downloadVideo] touches local storage only. *)
Lemma downloadVideo_sameButFiles sc video w r w' :
  downloadVideo sc video w = (r, w') -> sameButFiles w w'.
Proof.
  unfold downloadVideo. unfold_js. destruct (dirReply sc); cbn.
  { intros [= <- <-]. apply sameButFiles_refl. }
  destruct (response sc) as [[len|]|e]; cbn.
  - destruct (len >? MAX_VIDEO_SIZE)%Z; cbn.
    { intros [= <- <-]. repeat split. }
    intros Hrun. apply transferPromise_sameButFiles in Hrun.
    eapply sameButFiles_trans; [|exact Hrun]. repeat split.
  - intros Hrun. apply transferPromise_sameButFiles in Hrun.
    eapply sameButFiles_trans; [|exact Hrun]. repeat split.
  - intros [= <- <-]. repeat split.
Qed.

(** While only data arrives the promise stays pending and the timer armed,
    so the timer fires. *)
Lemma awaitTransfer_chunks p evs t w :
  forallb isChunk evs = true ->
  promise t = None -> timerArmed t = true ->
  exists t' w',
    awaitTransfer p evs (t, w) = (t', w')
    /\ promise t' = Some (Throw timeoutError)
    /\ files w' !! p = None.
Proof.
  revert t w. induction evs as [|ev evs IH]; intros t w Hall Hp Ht; cbn [awaitTransfer fst].
  - rewrite Hp. cbn. rewrite Ht. unfold settle. cbn. rewrite Hp.
    eexists _, _. split; [reflexivity|]. split; [reflexivity|].
    cbn. apply lookup_delete_eq.
  - rewrite Hp. cbn in Hall. apply andb_true_iff in Hall as [Hev Hall].
    destruct ev; try discriminate. cbn.
    destruct (writerOpen t); apply IH; assumption.
Qed.

(** Once the timer has fired, no later event brings the file back or
    changes how the promise was settled. *)
Lemma handleAll_after_timeout p later t w :
  promise t = Some (Throw timeoutError) ->
  files w !! p = None ->
  promise (fst (handleAll p later (t, w))) = Some (Throw timeoutError)
  /\ files (snd (handleAll p later (t, w))) !! p = None.
Proof.
  revert t w. induction later as [|ev later IH]; intros t w Hp Hf; [split; assumption|].
  unfold handleAll in *. cbn [fold_left].
  destruct (onStreamEvent p ev (t, w)) as [t1 w1] eqn:Hev.
  apply IH.
  - destruct ev; cbn in Hev; [destruct (writerOpen t)|..]; injection Hev as <- <-;
      unfold settle, clearTimer, destroyWriter; cbn; rewrite ?Hp; cbn;
      first [reflexivity | exact Hp].
  - destruct ev; cbn in Hev; [destruct (writerOpen t)|..]; injection Hev as <- <-; cbn;
      rewrite ?lookup_delete_eq, ?lookup_alter_eq, ?Hf; first [reflexivity | exact Hf].
Qed.

(** While only data arrives, the handlers leave the promise, the timer and
    the write stream as they are, and the call ends with the callback of the
    timer. *)
Lemma awaitTransfer_chunks_timer p evs t w :
  forallb isChunk evs = true ->
  promise t = None ->
  fst (handleAll p evs (t, w)) = t
  /\ awaitTransfer p evs (t, w) = onTimeout p (handleAll p evs (t, w)).
Proof.
  revert w. induction evs as [|ev evs IH]; intros w Hall Hp.
  - split; [reflexivity|]. cbn. rewrite Hp. reflexivity.
  - cbn in Hall. apply andb_true_iff in Hall as [Hev Hall].
    destruct ev; try discriminate.
    unfold handleAll in *. cbn [fold_left awaitTransfer fst]. rewrite Hp.
    cbn [onStreamEvent]. destruct (writerOpen t); apply IH; assumption.
Qed.

(** C9: when the response has arrived and only data has been seen by the
    time the 15 minute timer fires, [downloadVideo] fails with the timeout
    error, the file is gone from local storage, nothing else in the world has
    changed, and the handlers of any later stream event leave both the
    rejection and the absence of the file as they are. The error is the one
    the callback of the timer rejects with: when the handlers have run over
    all the data the promise is still pending and the timer armed, and the
    callback of the timer is what destroys the write stream, removes the
    file and settles the promise. *)
Theorem downloadVideo_timeout sc video w len :
  dirReply sc = None ->
  response sc = inl len ->
  (forall n, len = Some n -> n <= MAX_VIDEO_SIZE) ->
  forallb isChunk (events sc) = true ->
  exists w',
    downloadVideo sc video w = (Throw timeoutError, w')
    /\ message timeoutError = "Download timeout - took too long"
    /\ files w' !! downloadPath video = None
    /\ sameButFiles w w'
    /\ (forall later t,
         promise t = Some (Throw timeoutError) ->
         promise (fst (handleAll (downloadPath video) later (t, w')))
           = Some (Throw timeoutError)
         /\ files (snd (handleAll (downloadPath video) later (t, w')))
              !! downloadPath video = None)
    /\ exists t0 w0,
         handleAll (downloadPath video) (events sc)
           (mkTransfer None true true,
            withFiles (<[downloadPath video := 0%N]> (files w)) w) = (t0, w0)
         /\ promise t0 = None /\ timerArmed t0 = true
         /\ onTimeout (downloadPath video) (t0, w0)
            = (mkTransfer (Some (Throw timeoutError)) false true, w')
         /\ w' = removeSync (downloadPath video) w0.
Proof.
  intros Hdir Hresp Hlen Hchunks.
  set (w0 := withFiles (<[downloadPath video := 0%N]> (files w)) w).
  destruct (awaitTransfer_chunks (downloadPath video) (events sc)
              (mkTransfer None true true) w0 Hchunks eq_refl eq_refl)
    as (t' & w1 & Hawait & Hp & Hf).
  destruct (awaitTransfer_chunks_timer (downloadPath video) (events sc)
              (mkTransfer None true true) w0 Hchunks eq_refl) as [Hkept Htimer].
  assert (Hbody : transferPromise (downloadPath video) (events sc) w0
                  = (Throw timeoutError, w1)).
  { eapply transferPromise_eq; eassumption. }
  assert (Hrun : downloadVideo sc video w = (Throw timeoutError, w1)).
  { unfold downloadVideo. unfold_js. rewrite Hdir, Hresp. cbn.
    destruct len as [n|]; cbn.
    - specialize (Hlen n eq_refl).
      replace (n >? MAX_VIDEO_SIZE)%Z with false
        by (symmetry; rewrite Z.gtb_ltb; apply Z.ltb_ge; exact Hlen).
      cbn. fold w0. exact Hbody.
    - fold w0. exact Hbody. }
  exists w1. split; [exact Hrun|]. split; [reflexivity|]. split; [exact Hf|].
  split; [apply (downloadVideo_sameButFiles _ _ _ _ _ Hrun)|].
  split; [intros later t Ht; apply handleAll_after_timeout; assumption|].
  destruct (handleAll (downloadPath video) (events sc) (mkTransfer None true true, w0))
    as [t0 w00] eqn:Hh.
  cbn [fst] in Hkept. subst t0. rewrite Hawait in Htimer. cbn in Htimer.
  injection Htimer as _ ->.
  exists (mkTransfer None true true), w00. repeat split.
Qed.

Lemma downloadVideo_timeout_witness :
  forallb isChunk (events stalled) = true /\
  exists w',
    downloadVideo stalled clip world0 = (Throw timeoutError, w')
    /\ files w' !! downloadPath clip = None.
Proof.
  split; [reflexivity|].
  destruct (downloadVideo_timeout stalled clip world0 (Some 4096) eq_refl eq_refl
              ltac:(intros n [= <-]; vm_compute; discriminate) eq_refl)
    as (w' & Hrun & _ & Hgone & _).
  exists w'. split; assumption.
Defined.

End DownloadFacts.

(** ** getValidTokens and uploadVideo *)

Module PublishFacts.
Import Js JsString Model Helpers Persistence TokenService YouTubeService.
Import Spec Samples WorldFacts TokenFacts.

Lemma sameAccounting_refl u : sameAccounting u u.
Proof. repeat split. Qed.

Lemma credentialsOnly_refl us : credentialsOnly us us.
Proof. intros k. destruct (us !! k); [apply sameAccounting_refl|exact I]. Qed.

Lemma credentialsOnly_trans us1 us2 us3 :
  credentialsOnly us1 us2 -> credentialsOnly us2 us3 -> credentialsOnly us1 us3.
Proof.
  intros H12 H23 k. specialize (H12 k). specialize (H23 k).
  destruct (us1 !! k), (us2 !! k), (us3 !! k); try contradiction; try exact I.
  unfold sameAccounting in *. intuition congruence.
Qed.

Lemma credentialsOnly_alter (us : gmap N User) k f :
  (forall u, sameAccounting u (f u)) -> credentialsOnly us (alter f k us).
Proof.
  intros Hf j. rewrite lookup_alter. destruct (decide (k = j)) as [->|_].
  - destruct (us !! j); cbn; [apply Hf|exact I].
  - destruct (us !! j); [apply sameAccounting_refl|exact I].
Qed.

Lemma credentialsOnly_lastUploadDate us us' k :
  credentialsOnly us us' ->
  lastUploadDate <$> us' !! k = lastUploadDate <$> us !! k.
Proof.
  intros H. specialize (H k). destruct (us !! k), (us' !! k); try contradiction.
  - cbn. f_equal. apply H.
  - reflexivity.
Qed.

(** What [getValidTokens] may touch: credential fields of stored Accounts,
    and the trace by at most one refresh exchange. *)
Lemma getValidTokens_effects sc userId w r w' :
  getValidTokens sc userId w = (r, w') ->
  uploadLogs w' = uploadLogs w /\ files w' = files w /\ clock w' = clock w
  /\ smtp w' = smtp w
  /\ credentialsOnly (users w) (users w')
  /\ exists extra,
      trace w' = trace w ++ extra /\ mailAttempts extra = []
      /\ (refreshCalls extra <= 1)%nat.
Proof.
  unfold getValidTokens, findById, refreshTokenIfNeeded. unfold_js.
  destruct (findReply sc); cbn.
  { intros [= <- <-]. repeat split; try apply credentialsOnly_refl.
    exists []. rewrite app_nil_r. repeat split. cbn. lia. }
  destruct (users w !! userId) as [u|] eqn:Hu; cbn.
  2:{ intros [= <- <-]. repeat split; try apply credentialsOnly_refl.
      exists []. rewrite app_nil_r. repeat split. cbn. lia. }
  destruct (hasRefreshToken u); cbn.
  2:{ intros [= <- <-]. repeat split; try apply credentialsOnly_refl.
      exists []. rewrite app_nil_r. repeat split. cbn. lia. }
  destruct (tokens u) as [tk|]; cbn.
  2:{ destruct (deactivateSave sc); cbn; intros [= <- <-]; cbn;
      (repeat split; [first [apply credentialsOnly_refl
                            |apply credentialsOnly_alter; intros; cbn; repeat split]|]);
      exists []; rewrite app_nil_r; repeat split; cbn; lia. }
  destruct (isExpiring (expiry_date tk) (clock w)); cbn.
  2:{ intros [= <- <-]. repeat split; try apply credentialsOnly_refl.
      exists []. rewrite app_nil_r. repeat split. cbn. lia. }
  destruct (refreshReply sc) as [c|e]; cbn.
  - destruct (refreshSave sc); cbn.
    + destruct (deactivateSave sc); cbn; intros [= <- <-]; cbn;
        (repeat split; [first [apply credentialsOnly_refl
                              |apply credentialsOnly_alter; intros; cbn; repeat split]|]);
        exists [EvRefresh (refresh_token tk)]; repeat split; cbn; lia.
    + intros [= <- <-]; cbn.
      repeat split; [apply credentialsOnly_alter; intros; cbn; repeat split|].
      exists [EvRefresh (refresh_token tk)]; repeat split; cbn; lia.
  - destruct (deactivateSave sc); cbn; intros [= <- <-]; cbn;
      (repeat split; [first [apply credentialsOnly_refl
                            |apply credentialsOnly_alter; intros; cbn; repeat split]|]);
      exists [EvRefresh (refresh_token tk)]; repeat split; cbn; lia.
Qed.

(** A bundle without refresh token: the call fails before anything is
    called or written. *)
Lemma getValidTokens_bundle_missing sc userId w u :
  findReply sc = None ->
  users w !! userId = Some u ->
  hasRefreshToken u = false ->
  getValidTokens sc userId w
  = (Throw (newError "User tokens not found. User needs to re-authenticate."), w).
Proof.
  intros Hfind Hu Hno. unfold getValidTokens, findById. unfold_js.
  rewrite Hfind. cbn. rewrite Hu. cbn. rewrite Hno. reflexivity.
Qed.

(** A refresh exchange that fails, with the deactivation written. *)
Lemma getValidTokens_exchange_fails sc userId w u tk e :
  findReply sc = None ->
  users w !! userId = Some u ->
  hasRefreshToken u = true ->
  tokens u = Some tk ->
  isExpiring (expiry_date tk) (clock w) = true ->
  refreshReply sc = inr e ->
  deactivateSave sc = None ->
  getValidTokens sc userId w
  = (Throw (newError authExpiredMessage),
     withUsers (alter (writePaths [PathIsActive] (withIsActive false u)) userId (users w))
       (emit (EvRefresh (refresh_token tk)) w)).
Proof.
  intros Hfind Hu Hhas Htk Hexp Hr Hsave.
  unfold getValidTokens, findById. unfold_js.
  rewrite Hfind. cbn. rewrite Hu. cbn. rewrite Hhas. cbn.
  rewrite (refresh_exchange_fails sc (mkUserDoc userId u []) w tk e Htk Hexp Hr).
  cbn. rewrite Hsave. reflexivity.
Qed.

Lemma deactivated_lookup (us : gmap N User) userId u :
  us !! userId = Some u ->
  alter (writePaths [PathIsActive] (withIsActive false u)) userId us !! userId
  = Some (withIsActive false u).
Proof. intros Hu. rewrite lookup_alter_eq, Hu. reflexivity. Qed.

(** What [uploadVideo] may touch: what [getValidTokens] may, the clock,
    and the trace by the insert call. *)
Lemma uploadVideo_effects config sc user video path w r w' :
  uploadVideo config sc user video path w = (r, w') ->
  uploadLogs w' = uploadLogs w /\ files w' = files w /\ smtp w' = smtp w
  /\ credentialsOnly (users w) (users w')
  /\ exists extra,
      trace w' = trace w ++ extra /\ mailAttempts extra = []
      /\ (refreshCalls extra <= 1)%nat.
Proof.
  unfold uploadVideo. unfold tryCatch at 1. unfold bind at 1. unfold get at 1.
  destruct (files w !! path) as [size|]; cbn.
  2:{ intros [= <- <-]. repeat split; try apply credentialsOnly_refl.
      exists []. rewrite app_nil_r. repeat split. cbn. lia. }
  destruct (Z.of_N size >? MAX_YOUTUBE_FILE_SIZE)%Z; cbn.
  { intros [= <- <-]. repeat split; try apply credentialsOnly_refl.
    exists []. rewrite app_nil_r. repeat split. cbn. lia. }
  unfold bind at 1. unfold tryCatch at 1.
  destruct (getValidTokens (tokenScript sc) (_id user) w) as [[tk|e] w1] eqn:Htok;
    destruct (getValidTokens_effects _ _ _ _ _ Htok)
      as (Hl & Hf & Hc & Hs & Hu & extra & Ht & Hm & Hr); cbn.
  - destruct (insertReply sc); cbn; intros [= <- <-]; cbn;
      (repeat split; try assumption);
      exists (extra ++ [EvInsert (tk ≫= access_token) (videoMetadata config video)]);
      rewrite Ht, <- app_assoc, mailAttempts_app, refreshCalls_app, Hm;
      repeat split; cbn; lia.
  - intros [= <- <-]. repeat split; try assumption.
    exists extra. repeat split; assumption.
Qed.

Lemma classify_authExpired :
  classify (newError authExpiredMessage)
  = newError ("Upload failed: " +:+ authExpiredMessage).
Proof. reflexivity. Qed.

Lemma classify_bundle_missing :
  classify (newError "User tokens not found. User needs to re-authenticate.")
  = newError "Upload failed: User tokens not found. User needs to re-authenticate.".
Proof. reflexivity. Qed.

(** The publish step when the refresh exchange fails. *)
Lemma uploadVideo_exchange_fails config sc user video path w size u tk e :
  files w !! path = Some size ->
  (Z.of_N size <= MAX_YOUTUBE_FILE_SIZE)%Z ->
  findReply (tokenScript sc) = None ->
  users w !! _id user = Some u ->
  hasRefreshToken u = true ->
  tokens u = Some tk ->
  isExpiring (expiry_date tk) (clock w) = true ->
  refreshReply (tokenScript sc) = inr e ->
  deactivateSave (tokenScript sc) = None ->
  uploadVideo config sc user video path w
  = (Throw (newError ("Upload failed: " +:+ authExpiredMessage)),
     withUsers (alter (writePaths [PathIsActive] (withIsActive false u)) (_id user) (users w))
       (emit (EvRefresh (refresh_token tk)) w)).
Proof.
  intros Hfile Hsize Hfind Hu Hhas Htk Hexp Hr Hsave.
  unfold uploadVideo. unfold tryCatch at 1. unfold bind at 1. unfold get at 1.
  rewrite Hfile.
  replace (Z.of_N size >? MAX_YOUTUBE_FILE_SIZE)%Z with false
    by (symmetry; rewrite Z.gtb_ltb; apply Z.ltb_ge; exact Hsize).
  unfold bind at 1. unfold tryCatch at 1.
  rewrite (getValidTokens_exchange_fails _ _ _ u tk e Hfind Hu Hhas Htk Hexp Hr Hsave).
  unfold throw. rewrite classify_authExpired. reflexivity.
Qed.

(** The publish step when the stored bundle has no refresh token. *)
Lemma uploadVideo_bundle_missing config sc user video path w size u :
  files w !! path = Some size ->
  (Z.of_N size <= MAX_YOUTUBE_FILE_SIZE)%Z ->
  findReply (tokenScript sc) = None ->
  users w !! _id user = Some u ->
  hasRefreshToken u = false ->
  uploadVideo config sc user video path w
  = (Throw (newError
              "Upload failed: User tokens not found. User needs to re-authenticate."), w).
Proof.
  intros Hfile Hsize Hfind Hu Hno.
  unfold uploadVideo. unfold tryCatch at 1. unfold bind at 1. unfold get at 1.
  rewrite Hfile.
  replace (Z.of_N size >? MAX_YOUTUBE_FILE_SIZE)%Z with false
    by (symmetry; rewrite Z.gtb_ltb; apply Z.ltb_ge; exact Hsize).
  unfold bind at 1. unfold tryCatch at 1.
  rewrite (getValidTokens_bundle_missing _ _ _ u Hfind Hu Hno).
  unfold throw. rewrite classify_bundle_missing. reflexivity.
Qed.

End PublishFacts.

(** ** Rules for running a computation symbolically *)

Module WpRules.
Import Js Spec.

Lemma wp_bind {S A B} (m : M S A) (k : A -> M S B) s Q :
  wp m s (fun r s' => match r with
                      | Ok a => wp (k a) s' Q
                      | Throw e => Q (Throw e) s'
                      end) ->
  wp (bind m k) s Q.
Proof. unfold wp, bind. destruct (m s) as [[a|e] s']; cbn; trivial. Qed.

Lemma wp_tryCatch {S A} (m : M S A) (h : Error -> M S A) s Q :
  wp m s (fun r s' => match r with
                      | Ok a => Q (Ok a) s'
                      | Throw e => wp (h e) s' Q
                      end) ->
  wp (tryCatch m h) s Q.
Proof. unfold wp, tryCatch. destruct (m s) as [[a|e] s']; cbn; trivial. Qed.

Lemma wp_liftW {L W A} (m : M W A) (l : L) w Q :
  wp m w (fun r w' => Q r (l, w')) -> wp (liftW m) (l, w) Q.
Proof. unfold wp, liftW. destruct (m w) as [r w']; cbn; trivial. Qed.

Lemma wp_mono {S A} (m : M S A) s (Q Q' : Result A -> S -> Prop) :
  wp m s Q -> (forall r s', Q r s' -> Q' r s') -> wp m s Q'.
Proof. unfold wp. auto. Qed.

Lemma wp_of_eq {S A} (m : M S A) s (Q : Result A -> S -> Prop) :
  (forall r s', m s = (r, s') -> Q r s') -> wp m s Q.
Proof. unfold wp. intros H. apply H. destruct (m s); reflexivity. Qed.

Lemma wp_eq {S A} (m : M S A) s (Q : Result A -> S -> Prop) r s' :
  wp m s Q -> m s = (r, s') -> Q r s'.
Proof. unfold wp. intros H Heq. rewrite Heq in H. exact H. Qed.

Lemma wp_ret {S A} (a : A) (s : S) Q : Q (Ok a) s -> wp (ret a) s Q.
Proof. trivial. Qed.

Lemma wp_throw {S A} e (s : S) (Q : Result A -> S -> Prop) : Q (Throw e) s -> wp (throw e) s Q.
Proof. trivial. Qed.

Lemma wp_setL {L W} (f : L -> L) (l : L) (w : W) Q :
  Q (Ok tt) (f l, w) -> wp (setL f) (l, w) Q.
Proof. trivial. Qed.

Lemma wp_getL {L W} (l : L) (w : W) Q : Q (Ok l) (l, w) -> wp getL (l, w) Q.
Proof. trivial. Qed.

Lemma wp_gets {S A} (f : S -> A) (s : S) Q : Q (Ok (f s)) s -> wp (gets f) s Q.
Proof. trivial. Qed.

Lemma wp_get {S} (s : S) Q : Q (Ok s) s -> wp get s Q.
Proof. trivial. Qed.

Lemma wp_modify {S} (f : S -> S) (s : S) Q : Q (Ok tt) (f s) -> wp (modify f) s Q.
Proof. trivial. Qed.

Lemma wp_onLocal {L L' W A} (proj : L -> L') (upd : L' -> L -> L) (m : M (L' * W) A) l w Q :
  wp m (proj l, w) (fun r s' => Q r (upd (fst s') l, snd s')) ->
  wp (onLocal proj upd m) (l, w) Q.
Proof. unfold wp, onLocal. destruct (m (proj l, w)) as [r [l' w']]. trivial. Qed.

Lemma wp_withLocals {L W A} (init : L) (m : M (L * W) A) w Q :
  wp m (init, w) (fun r s' => Q r (snd s')) ->
  wp (withLocals init m) w Q.
Proof. unfold wp, withLocals. destruct (m (init, w)) as [r [l' w']]. trivial. Qed.

Lemma wp_tryFinally {S A} (m : M S A) (f : S -> S) s Q :
  wp m s (fun r s' => Q r (f s')) -> wp (tryFinally m f) s Q.
Proof. unfold wp, tryFinally. destruct (m s) as [r s']. trivial. Qed.

Lemma wp_reply {S} (r : option Error) (s : S) Q :
  match r with None => Q (Ok tt) s | Some e => Q (Throw e) s end -> wp (reply r) s Q.
Proof. destruct r; trivial. Qed.

(** One step of symbolic execution. *)
Ltac wp_step :=
  lazymatch goal with
  | |- wp (bind _ _) _ _ => apply wp_bind
  | |- wp (tryCatch _ _) _ _ => apply wp_tryCatch
  | |- wp (liftW _) (_, _) _ => apply wp_liftW
  | |- wp (ret _) _ _ => apply wp_ret
  | |- wp (throw _) _ _ => apply wp_throw
  | |- wp (setL _) (_, _) _ => apply wp_setL
  | |- wp getL (_, _) _ => apply wp_getL
  | |- wp (gets _) _ _ => apply wp_gets
  | |- wp get _ _ => apply wp_get
  | |- wp (modify _) _ _ => apply wp_modify
  | |- wp (reply _) _ _ => apply wp_reply
  end.

Ltac wp_steps := repeat (wp_step; cbv beta iota).

Lemma wp_result {S A} (m : M S A) s r s' (Q : Result A -> S -> Prop) :
  m s = (r, s') -> Q r s' -> wp m s Q.
Proof. unfold wp. intros ->. trivial. Qed.
End WpRules.

(** ** The pipeline runner, stage by stage *)

Module RunFacts.
Import Js JsString Model Helpers Persistence TokenService VideoService YouTubeService.
Import UploadJob Spec Samples WorldFacts TokenFacts DownloadFacts PublishFacts WpRules.

Ltac norm :=
  cbn [fst snd user results videoData filePath uploadLog withUser withResults
       withVideoData withFilePath withUploadLog slot logFields clock withUploadLogs
       withUsers withFiles withClock withSmtp emit users uploadLogs files smtp trace
       fields _id modifiedPaths setLastUploadDate setTotalUploads setFailedUploads
       entry].

Ltac go := cbv beta iota; repeat (wp_step; cbv beta iota); norm.

(** Services that always return: replace the call by its summary. *)
Ltac run_total :=
  lazymatch goal with
  | |- wp (markAsDownloaded ?r ?v) ?w0 _ =>
      let ok := fresh "ok" in
      let H := fresh "Hmark" in
      destruct (markAsDownloaded_trace r v w0) as [ok H];
      eapply wp_result; [exact H|]
  | |- wp (cleanupFile ?r ?p) ?w0 _ =>
      let ok := fresh "ok" in
      let w2 := fresh "w" in
      let H := fresh "Hclean" in
      let Hs := fresh "Hsame" in
      destruct (cleanupFile_files r p w0) as (ok & w2 & H & Hs);
      eapply wp_result; [exact H|]
  | |- wp (EmailService.sendReAuthenticationRequired ?a ?b) ?w0 _ =>
      let ok := fresh "ok" in
      let w2 := fresh "w" in
      let H := fresh "Hsend" in
      let Hs := fresh "Hsent" in
      destruct (sendReAuthenticationRequired_sent a b w0) as (ok & w2 & H & Hs);
      eapply wp_result; [exact H|]
  | |- wp (EmailService.sendErrorNotification ?c ?a ?b ?d) ?w0 _ =>
      let ok := fresh "ok" in
      let w2 := fresh "w" in
      let H := fresh "Hsend" in
      let Hs := fresh "Hsent" in
      destruct (sendErrorNotification_sent c a b d w0) as (ok & w2 & H & Hs);
      eapply wp_result; [exact H|]
  | |- wp (EmailService.sendUploadReport ?c ?a) ?w0 _ =>
      let ok := fresh "ok" in
      let w2 := fresh "w" in
      let H := fresh "Hsend" in
      let Hs := fresh "Hsent" in
      destruct (sendUploadReport_sent c a w0) as (ok & w2 & H & Hs);
      eapply wp_result; [exact H|]
  end.

Lemma getNextVideo_pure {S} (r : NextReply) (s : S) :
  getNextVideo r s = (nextOutcome r, s).
Proof.
  unfold nextOutcome, getNextVideo. unfold_js.
  destruct r as [[|] [v|]|e]; cbn; try reflexivity.
  - destruct (missing (id v) || missing (title v) || missing (filename v)
              || missing (downloadUrl v)); reflexivity.
  - destruct (bool_decide (responseStatus e = Some 404)); [reflexivity|].
    destruct (bool_decide (code e = Some (CodeStr "ECONNABORTED"))); reflexivity.
Qed.

Lemma wp_uploadLogSave outcome l w Q :
  match outcome, uploadLog l with
  | Some e, Some d => Q (Throw e) (withUploadLog (Some d) l, w)
  | None, Some d =>
      match slot d with
      | None => Q (Ok tt) (withUploadLog
                             (Some (mkUploadLogDoc (Some (length (uploadLogs w))) (logFields d))) l,
                           withUploadLogs (uploadLogs w ++ [logFields d]) w)
      | Some i => Q (Ok tt) (withUploadLog (Some d) l,
                             withUploadLogs (<[i := logFields d]> (uploadLogs w)) w)
      end
  | _, None => Q (Ok tt) (l, w)
  end ->
  wp (uploadLogSave outcome) (l, w) Q.
Proof.
  unfold wp, uploadLogSave, saveLog. destruct (uploadLog l) as [d|]; [|destruct outcome; trivial].
  destruct outcome; [trivial|]. destruct (slot d); trivial.
Qed.

Lemma wp_userSave outcome l w Q :
  match outcome with
  | Some e => Q (Throw e) (withUser (user l) l, w)
  | None =>
      Q (Ok tt)
        (withUser (mkUserDoc (_id (user l)) (fields (user l)) []) l,
         withUsers (alter (writePaths (modifiedPaths (user l)) (fields (user l)))
                      (_id (user l)) (users w)) w)
  end ->
  wp (userSave outcome) (l, w) Q.
Proof. unfold wp, userSave, onLocal, saveUser. destruct outcome; trivial. Qed.

Lemma wp_editUploadLog f l w Q :
  Q (Ok tt) (withUploadLog
               (match uploadLog l with
                | Some d => Some (mkUploadLogDoc (slot d) (f (logFields d)))
                | None => None
                end) l, w) ->
  wp (editUploadLog f) (l, w) Q.
Proof. trivial. Qed.

Lemma acquire_effects sc l w :
  uploadLog l = None ->
  wp (acquire sc) (l, w) (fun r s' =>
    let l' := fst s' in let w' := snd s' in
    user l' = user l
    /\ results l' = (if noneAvailable (nextVideo sc)
                     then setNoVideos (results l) else results l)
    /\ users w' = users w /\ clock w' = clock w /\ smtp w' = smtp w /\ trace w' = trace w
    /\ (length (uploadLogs w') + recordPending l' <= length (uploadLogs w) + 1)%nat
    /\ (length (uploadLogs w) <= length (uploadLogs w'))%nat
    /\ match r with
       | Ok None =>
           noneAvailable (nextVideo sc) = true
           /\ l' = withResults (setNoVideos (results l)) (withVideoData None l)
           /\ w' = w
       | Ok (Some (video, path)) =>
           noneAvailable (nextVideo sc) = false
           /\ videoData l' = Some video /\ filePath l' = Some path
           /\ exists size, files w' !! path = Some size /\ (1024 <= size)%N
       | Throw e =>
           noneAvailable (nextVideo sc) = false
           /\ (videoData l' = videoData l \/ exists video, videoData l' = Some video)
       end).
Proof.
  intros Hlog. unfold acquire. wp_step.
  unfold wp at 1. rewrite getNextVideo_pure. cbn [fst snd]. unfold noneAvailable.
  destruct (nextOutcome (nextVideo sc)) as [[video|]|e] eqn:Hnext.
  2:{ wp_steps. cbn. unfold recordPending. cbn. rewrite Hlog. repeat split; lia. }
  2:{ cbn. unfold recordPending. rewrite Hlog. repeat split; try lia. left. reflexivity. }
  wp_steps. apply wp_uploadLogSave. cbn [uploadLog withUploadLog slot logFields].
  destruct (logSaveCreate sc) as [e|].
  { cbn. unfold recordPending. cbn. repeat split; try lia. right. eauto. }
  wp_steps. apply wp_of_eq. intros [path|e] w2 Hdl;
    destruct (downloadVideo_sameButFiles _ _ _ _ _ Hdl) as (Hu2 & Hl2 & Hc2 & Hs2 & Ht2).
  2:{ cbn. unfold recordPending. cbn. rewrite Hu2, Hl2, Hc2, Hs2, Ht2. cbn.
      rewrite length_app. cbn. repeat split; try lia. right. eauto. }
  wp_steps. apply wp_of_eq. intros [ok|e] w3 Hval;
    destruct (validateVideoFile_pure _ _ _ _ Hval) as [-> Hsize].
  2:{ wp_steps. cbn. unfold recordPending. cbn. rewrite Hu2, Hl2, Hc2, Hs2, Ht2. cbn.
      rewrite length_app. cbn. repeat split; try lia. right. eauto. }
  destruct (Hsize ok eq_refl) as (size & Hfile & Hbig).
  wp_steps. apply wp_editUploadLog. wp_step. apply wp_uploadLogSave.
  cbn [uploadLog withUploadLog withFilePath slot logFields].
  destruct (logSaveUploading sc) as [e|].
  { cbn. unfold recordPending. cbn. rewrite Hu2, Hl2, Hc2, Hs2, Ht2. cbn.
    rewrite length_app. cbn. repeat split; try lia. right. eauto. }
  wp_steps. cbn. unfold recordPending. cbn. rewrite Hu2, Hc2, Hs2, Ht2, length_insert, Hl2. cbn.
  rewrite length_app. cbn. repeat split; try lia. eauto.
Qed.


Lemma reportAttempts_app tr tr' :
  reportAttempts (tr ++ tr') = reportAttempts tr ++ reportAttempts tr'.
Proof. unfold reportAttempts. rewrite mailAttempts_app, List.filter_app. reflexivity. Qed.

Lemma reportAttempts_no_mail extra : mailAttempts extra = [] -> reportAttempts extra = [].
Proof. unfold reportAttempts. intros ->. reflexivity. Qed.

(** The publish stage: the result lists grow by one success exactly when it
    returns; no notification is sent; no Transfer Record is created beyond
    the one accounted for. *)
Lemma publish_effects config sc video path l w :
  wp (publish config sc video path) (l, w) (fun r s' =>
    let l' := fst s' in let w' := snd s' in
    videoData l' = videoData l /\ filePath l' = filePath l
    /\ _id (user l') = _id (user l)
    /\ email (fields (user l')) = email (fields (user l))
    /\ channelTitle (fields (user l')) = channelTitle (fields (user l))
    /\ (length (uploadLogs w') + recordPending l'
        = length (uploadLogs w) + recordPending l)%nat
    /\ (length (uploadLogs w) <= length (uploadLogs w'))%nat
    /\ (exists extra, trace w' = trace w ++ extra /\ mailAttempts extra = [])
    /\ match r with
       | Ok _ => exists e, results l' = pushSuccessful e (results l)
       | Throw _ => results l' = results l
       end).
Proof.
  unfold publish. go. apply wp_of_eq. intros [res|e] w1 Hup;
    destruct (uploadVideo_effects _ _ _ _ _ _ _ _ Hup)
      as (Hl1 & Hf1 & Hs1 & Hu1 & extra & Ht1 & Hm1 & Hr1).
  2:{ cbn. rewrite Hl1. repeat split; try lia. exists extra. split; assumption. }
  unfold complete. go. apply wp_editUploadLog. go. apply wp_editUploadLog.
  go. apply wp_uploadLogSave.
  destruct l as [u rs vd fp [[[i|] lf]|]]; norm; destruct (logSaveSuccess sc) as [err1|].
  all: try (cbn; unfold recordPending; cbn; rewrite ?Hl1; repeat split; try lia;
            exists extra; split; assumption).
  all: go; apply wp_userSave; norm; destruct (userSaveSuccess sc) as [err2|].
  all: try (cbn; unfold recordPending; cbn;
            rewrite ?length_insert, ?length_app, ?Hl1; cbn; repeat split; try lia;
            exists extra; split; assumption).
  all: go.
  all: run_total; go; run_total; go.
  all: destruct Hsame as (Hu2 & Hl2 & Hc2 & Hs2 & Ht2).
  all: cbn; unfold recordPending; cbn; rewrite Hl2, Ht2; cbn;
    rewrite ?length_insert, ?length_app, ?Hl1, Ht1; cbn; repeat split; try lia; eauto.
  all: exists (extra ++ [EvMarkDownloaded (id video)]); rewrite <- app_assoc;
    (split; [reflexivity|]); rewrite mailAttempts_app, Hm1; reflexivity.
Qed.


(** The [catch] block always returns. It adds one failure entry, counts the
    failure on the Account, writes at most the modified paths of the
    document, and sends exactly one notice, chosen by the error text. *)
Lemma onFailure_effects config sc error l w :
  wp (onFailure config sc error) (l, w) (fun r s' =>
    let l' := fst s' in let w' := snd s' in
    r = Ok tt
    /\ results l'
       = pushFailed (mkFailedEntry (email (fields (user l))) (titleOrUnknown (videoData l))
                       (message error)) (results l)
    /\ _id (user l') = _id (user l)
    /\ fields (user l')
       = withFailedUploads (failedUploads (fields (user l)) + 1) (fields (user l))
    /\ (users w' = users w
        \/ users w' = alter (writePaths (PathFailedUploads :: modifiedPaths (user l))
                               (fields (user l')))
                        (_id (user l)) (users w))
    /\ (length (uploadLogs w') + recordPending l'
        = length (uploadLogs w) + recordPending l)%nat
    /\ (length (uploadLogs w) <= length (uploadLogs w'))%nat
    /\ clock w' = clock w
    /\ exists extra,
        trace w' = trace w ++ extra
        /\ refreshCalls extra = 0%nat
        /\ oneSend (fst (noticeFor config l error)) (snd (noticeFor config l error))
             (mailAttempts extra)).
Proof.
  unfold onFailure, noticeFor. go.
  destruct l as [u rs vd fp [[sl lf]|]]; norm.
  - go. apply wp_editUploadLog. go. apply wp_editUploadLog. go.
    apply wp_uploadLogSave. norm.
    destruct (logSaveFailed sc) as [err1|], sl as [i|]; go; apply wp_userSave; norm;
      destruct (userSaveFailed sc) as [err2|]; go;
      destruct fp as [p|]; go; try (run_total; go);
      destruct (isAuthError (message error)); go; run_total; go;
      repeat match goal with
             | H : sameButFiles _ _ |- _ => destruct H as (? & ? & ? & ? & ?)
             | H : sent _ _ _ _ |- _ =>
                 destruct H as (? & ? & ? & ? & extra & ? & ? & ?)
             end;
      cbn; unfold recordPending; cbn;
      repeat match goal with H : _ = _ |- _ => rewrite H end; cbn;
      rewrite ?length_insert, ?length_app; cbn;
      (repeat split; try lia; try (left; reflexivity); try (right; reflexivity));
      exists extra; repeat split; assumption.
  - go. apply wp_userSave; norm;
      destruct (userSaveFailed sc) as [err2|]; go;
      destruct fp as [p|]; go; try (run_total; go);
      destruct (isAuthError (message error)); go; run_total; go;
      repeat match goal with
             | H : sameButFiles _ _ |- _ => destruct H as (? & ? & ? & ? & ?)
             | H : sent _ _ _ _ |- _ =>
                 destruct H as (? & ? & ? & ? & extra & ? & ? & ?)
             end;
      cbn; unfold recordPending; cbn;
      repeat match goal with H : _ = _ |- _ => rewrite H end; cbn;
      (repeat split; try lia; try (left; reflexivity); try (right; reflexivity));
      exists extra; repeat split; assumption.
Qed.

Lemma filter_repeat_none {A} (f : A -> bool) (a : A) n :
  f a = false -> List.filter f (repeat a n) = [].
Proof. intros Hf. induction n as [|n IH]; cbn; [reflexivity|]. rewrite Hf. exact IH. Qed.

(** The attempts of one message that is not a report contain no report. *)
Lemma oneSend_not_report n m extra :
  match body m with ReportBody _ => False | _ => True end ->
  oneSend n m (mailAttempts extra) ->
  reportAttempts extra = [].
Proof.
  intros Hm (k & [[_ Heq]|[_ Heq]]); unfold reportAttempts; rewrite Heq.
  - rewrite List.filter_app, filter_repeat_none by (cbn; destruct (body m); tauto).
    cbn. destruct (body m); [contradiction|reflexivity..].
  - apply filter_repeat_none. cbn. destruct (body m); tauto.
Qed.

Lemma notice_not_report config l error :
  match body (snd (noticeFor config l error)) with ReportBody _ => False | _ => True end.
Proof. unfold noticeFor. destruct (isAuthError (message error)); exact I. Qed.

(** One run of the pipeline runner, seen from the cycle. *)
Lemma processUserUpload_effects config sc u rs w :
  wp (processUserUpload config sc) (entry u rs, w) (fun r s' =>
    let l' := fst s' in let w' := snd s' in
    r = Ok tt
    /\ (length (uploadLogs w) <= length (uploadLogs w') <= length (uploadLogs w) + 1)%nat
    /\ (exists extra, trace w' = trace w ++ extra /\ reportAttempts extra = [])
    /\ (if noneAvailable (nextVideo sc)
        then results l' = setNoVideos rs /\ w' = w /\ user l' = u
        else (exists e, results l' = pushSuccessful e rs)
             \/ (exists e, results l' = pushFailed e rs))).
Proof.
  unfold processUserUpload, pipeline. apply wp_tryCatch, wp_bind.
  eapply wp_mono; [apply acquire_effects; reflexivity|].
  intros r [l1 w1]. cbn [fst snd entry user results uploadLog].
  intros (Hu1 & Hr1 & Hus1 & Hc1 & Hs1 & Ht1 & Hlog1 & Hmono1 & Hcase).
  unfold recordPending in Hlog1.
  destruct r as [[[video path]|]|e]; cbv beta iota.
  - destruct Hcase as (Hnone & _). rewrite Hnone in *.
    eapply wp_mono; [apply publish_effects|].
    intros r2 [l2 w2]. cbn [fst snd].
    intros (_ & _ & _ & _ & _ & Hlog2 & Hmono2 & (extra2 & Ht2 & Hm2) & Hres2).
    unfold recordPending in Hlog2.
    destruct r2 as [[]|e2].
    + split; [reflexivity|]. split.
      { destruct (uploadLog l1) as [[[i|] lf]|], (uploadLog l2) as [[[i2|] lf2]|]; lia. }
      split.
      { exists extra2. rewrite Ht2, Ht1. split; [reflexivity|].
        apply reportAttempts_no_mail, Hm2. }
      left. rewrite <- Hr1. exact Hres2.
    + eapply wp_mono; [apply onFailure_effects|].
      intros r3 [l3 w3]. cbn [fst snd].
      intros (-> & Hres3 & _ & _ & _ & Hlog3 & Hmono3 & _ & extra3 & Ht3 & _ & Hsend3).
      unfold recordPending in Hlog3.
      split; [reflexivity|]. split.
      { destruct (uploadLog l1) as [[[i|] lf]|], (uploadLog l2) as [[[i2|] lf2]|],
          (uploadLog l3) as [[[i3|] lf3]|]; lia. }
      split.
      { exists (extra2 ++ extra3). rewrite Ht3, Ht2, Ht1, <- app_assoc.
        split; [reflexivity|]. rewrite reportAttempts_app.
        rewrite (reportAttempts_no_mail _ Hm2).
        apply (oneSend_not_report _ _ _ (notice_not_report config l2 e2) Hsend3). }
      right. rewrite Hres3, Hres2, Hr1. eauto.
  - destruct Hcase as (Hnone & -> & ->). rewrite Hnone.
    cbn. repeat split; try lia. exists []. rewrite app_nil_r. split; reflexivity.
  - destruct Hcase as (Hnone & _). rewrite Hnone in *.
    eapply wp_mono; [apply onFailure_effects|].
    intros r3 [l3 w3]. cbn [fst snd].
    intros (-> & Hres3 & _ & _ & _ & Hlog3 & Hmono3 & _ & extra3 & Ht3 & _ & Hsend3).
    unfold recordPending in Hlog3.
    split; [reflexivity|]. split.
    { destruct (uploadLog l1) as [[[i|] lf]|], (uploadLog l3) as [[[i3|] lf3]|]; lia. }
    split.
    { exists extra3. rewrite Ht3, Ht1. split; [reflexivity|].
      apply (oneSend_not_report _ _ _ (notice_not_report config l1 e) Hsend3). }
    right. rewrite Hres3, Hr1. eauto.
Qed.

Lemma filter_repeat_all {A} (f : A -> bool) (a : A) n :
  f a = true -> List.filter f (repeat a n) = repeat a n.
Proof. intros Hf. induction n as [|n IH]; cbn; [reflexivity|]. rewrite Hf, IH. reflexivity. Qed.

Lemma oneSend_report n to_ rs extra :
  oneSend n (mkMail to_ (ReportBody rs)) (mailAttempts extra) ->
  oneSend n (mkMail to_ (ReportBody rs)) (reportAttempts extra).
Proof.
  intros (k & [[Hk Heq]|[Hk Heq]]); exists k; unfold reportAttempts; rewrite Heq.
  - left. split; [exact Hk|]. rewrite List.filter_app, filter_repeat_all by reflexivity.
    reflexivity.
  - right. split; [exact Hk|]. apply filter_repeat_all. reflexivity.
Qed.

(** The loop over the selected accounts. *)
Lemma forEachUser_effects config cy us : forall i rs w,
  wp (forEachUser config cy i us) (rs, w) (fun r s' =>
    let rs' := fst s' in let w' := snd s' in
    r = Ok tt
    /\ entries rs' = (entries rs + attempted cy i (length us))%nat
    /\ totalUsers rs' = totalUsers rs /\ dbError rs' = dbError rs
    /\ noVideos rs' = noVideos rs || someNoneAvailable cy i (length us)
    /\ (length (uploadLogs w) <= length (uploadLogs w')
        <= length (uploadLogs w) + attempted cy i (length us))%nat
    /\ exists extra, trace w' = trace w ++ extra /\ reportAttempts extra = []).
Proof.
  induction us as [|u rest IH]; intros i rs w.
  - apply wp_ret. cbn. rewrite orb_false_r, !Nat.add_0_r.
    split; [reflexivity|]. split; [reflexivity|]. split; [reflexivity|].
    split; [reflexivity|]. split; [reflexivity|]. split; [lia|].
    exists []. rewrite app_nil_r. split; reflexivity.
  - cbn [forEachUser length attempted someNoneAvailable].
    apply wp_bind, wp_tryCatch, wp_onLocal.
    eapply wp_mono; [apply processUserUpload_effects|].
    intros r [l1 w1]. cbn [fst snd].
    intros (-> & Hlogs & (extra1 & Ht1 & Hrep1) & Hcase).
    eapply wp_mono; [apply IH|].
    intros r2 [rs2 w2]. cbn [fst snd].
    intros (-> & Hent & Htot & Hdb & Hnov & Hlogs2 & extra2 & Ht2 & Hrep2).
    split; [reflexivity|].
    destruct (noneAvailable (nextVideo (runs cy i))).
    + destruct Hcase as (Hres & Hw & _). subst w1.
      split. { rewrite Hent, Hres. unfold entries. cbn. lia. }
      split. { rewrite Htot, Hres. reflexivity. }
      split. { rewrite Hdb, Hres. reflexivity. }
      split. { rewrite Hnov, Hres. cbn. rewrite orb_true_r. reflexivity. }
      split. { cbn [Nat.add]. lia. }
      exists extra2. split; assumption.
    + assert (Hone : entries (results l1) = Datatypes.S (entries rs)
                     /\ totalUsers (results l1) = totalUsers rs
                     /\ dbError (results l1) = dbError rs
                     /\ noVideos (results l1) = noVideos rs).
      { destruct Hcase as [[e ->]|[e ->]]; unfold entries; cbn;
          rewrite length_app; cbn; repeat split; lia. }
      destruct Hone as (Hone & Htot1 & Hdb1 & Hnov1).
      cbn [orb].
      split. { rewrite Hent, Hone. lia. }
      split. { congruence. }
      split. { congruence. }
      split. { rewrite Hnov, Hnov1. reflexivity. }
      split. { lia. }
      exists (extra1 ++ extra2). rewrite Ht2, Ht1, <- app_assoc.
      split; [reflexivity|]. rewrite reportAttempts_app, Hrep1, Hrep2. reflexivity.
Qed.

(** One cycle, from a fresh result: it returns, every attempted account
    has exactly one entry, and exactly one report is sent, rendered from
    the final result. *)
Lemma cycle_effects config cy w :
  wp (cycle config cy) (emptyResults, w) (fun r s' =>
    let rs' := fst s' in let w' := snd s' in
    let n := length (selected cy w) in
    r = Ok tt
    /\ entries rs' = attempted cy 0 n
    /\ (someNoneAvailable cy 0 n = true -> noVideos rs' = true)
    /\ (length (uploadLogs w) <= length (uploadLogs w')
        <= length (uploadLogs w) + attempted cy 0 n)%nat
    /\ exists extra,
        trace w' = trace w ++ extra
        /\ oneSend 3 (mkMail (reportEmail config) (ReportBody rs')) (reportAttempts extra)).
Proof.
  unfold cycle, selected, checkDatabaseConnection, findActiveUsers.
  apply wp_tryCatch, wp_bind, wp_tryCatch.
  destruct (dbReady cy); cbn [negb]; go; cbn [negb]; go.
  - destruct (findUsers cy) as [e|]; go.
    + run_total. go. destruct Hsent as (_ & Hl & _ & _ & extra & Ht & Hone3 & _).
      cbn. rewrite Hl. repeat split; try lia; try discriminate.
      exists extra. split; [exact Ht|]. apply oneSend_report, Hone3.
    + destruct (activeUsers (users w)) as [|u us] eqn:Hsel; go.
      * run_total. go. destruct Hsent as (_ & Hl & _ & _ & extra & Ht & Hone3 & _).
        cbn. rewrite Hl. repeat split; try lia; try discriminate.
        exists extra. split; [exact Ht|]. apply oneSend_report, Hone3.
      * eapply wp_mono; [apply forEachUser_effects|].
        intros r [rs1 w1]. cbn [fst snd].
        intros (-> & Hent & Htot & Hdb & Hnov & Hlogs & extra1 & Ht1 & Hrep1).
        go. run_total. go.
        destruct Hsent as (_ & Hl & _ & _ & extra & Ht & Hone3 & _).
        cbn [fst snd]. rewrite Hl. split; [reflexivity|].
        split; [rewrite Hent; reflexivity|].
        split; [intros Hsome; rewrite Hnov, Hsome; reflexivity|].
        split; [exact Hlogs|].
        exists (extra1 ++ extra). rewrite Ht, Ht1, <- app_assoc.
        split; [reflexivity|]. rewrite reportAttempts_app, Hrep1. cbn [app].
        apply oneSend_report, Hone3.
  - run_total. go. destruct Hsent as (_ & Hl & _ & _ & extra & Ht & Hone3 & _).
    cbn. rewrite Hl. repeat split; try lia; try discriminate.
    exists extra. split; [exact Ht|]. apply oneSend_report, Hone3.
Qed.

End RunFacts.

(** ** The cycle scheduler *)

Module SchedulerFacts.
Import Js JsString Model Helpers Persistence TokenService VideoService YouTubeService.
Import UploadJob Spec Samples WorldFacts TokenFacts DownloadFacts PublishFacts WpRules RunFacts.

(** A trigger that finds a cycle running. *)
Lemma processUploads_running config cy j w :
  isRunning j = true ->
  processUploads config cy (j, w)
  = (Ok tt, (mkJob true (cronJob j)
               (if (3 <=? skippedCycles j + 1)%nat then 0%nat
                else (skippedCycles j + 1)%nat), w)).
Proof.
  intros Hrun. unfold processUploads, processUploadsDuring. unfold_js.
  cbn -[Nat.leb Nat.add].
  rewrite Hrun. cbn -[Nat.leb Nat.add].
  destruct (3 <=? skippedCycles j + 1)%nat; unfold setSkipped; cbn -[Nat.leb Nat.add];
    rewrite ?Hrun; reflexivity.
Qed.

(** A trigger that starts a cycle. *)
Lemma processUploads_idle config cy j w :
  isRunning j = false ->
  wp (processUploads config cy) (j, w) (fun r s' =>
    r = Ok tt
    /\ fst s' = mkJob false (cronJob j) 0
    /\ snd s' = snd (withLocals emptyResults (cycle config cy) w)
    /\ exists rs,
        entries rs = attempted cy 0 (length (selected cy w))
        /\ (someNoneAvailable cy 0 (length (selected cy w)) = true -> noVideos rs = true)
        /\ (length (uploadLogs w) <= length (uploadLogs (snd s'))
            <= length (uploadLogs w) + attempted cy 0 (length (selected cy w)))%nat
        /\ exists extra,
            trace (snd s') = trace w ++ extra
            /\ oneSend 3 (mkMail (reportEmail config) (ReportBody rs))
                 (reportAttempts extra)).
Proof.
  intros Hidle. unfold processUploads, processUploadsDuring. go. rewrite Hidle. go.
  apply wp_tryFinally. go. cbn [interleave fold_left]. apply wp_liftW.
  unfold wp at 1. unfold withLocals.
  pose proof (cycle_effects config cy w) as H. unfold wp in H.
  destruct (cycle config cy (emptyResults, w)) as [r [rs w']].
  cbn [fst snd] in *. destruct H as (-> & Hent & Hnone & Hlogs & Hrep).
  split; [reflexivity|]. split; [reflexivity|]. split; [reflexivity|].
  exists rs. split; [exact Hent|]. split; [exact Hnone|]. split; [exact Hlogs|]. exact Hrep.
Qed.

(** Calls that find a cycle running, one after the other: the world is left
    alone, the job stays running, and the skip counter counts them modulo
    three. *)
Lemma interleave_running config late j w :
  isRunning j = true ->
  (skippedCycles j < 3)%nat ->
  interleave (map (processUploads config) late) (j, w)
  = (mkJob true (cronJob j) ((skippedCycles j + length late) mod 3)%nat, w).
Proof.
  revert j. induction late as [|cy late IH]; intros [run cron k] Hrun Hk; cbn in Hrun, Hk; subst.
  - cbn [map interleave fold_left length cronJob skippedCycles].
    rewrite Nat.add_0_r, Nat.mod_small by exact Hk. reflexivity.
  - cbn [map interleave fold_left]. rewrite processUploads_running by reflexivity.
    cbn [snd cronJob skippedCycles length].
    change (fold_left (fun s call => snd (call s)) (map (processUploads config) late))
      with (interleave (map (processUploads config) late)).
    destruct (Nat.leb_spec 3 (k + 1)) as [Hfull|Hroom].
    + rewrite IH by (cbn; first [reflexivity | lia]). cbn [cronJob skippedCycles].
      replace (k + S (length late))%nat with (length late + 1 * 3)%nat by lia.
      rewrite Nat.Div0.mod_add. reflexivity.
    + rewrite IH by (cbn; first [reflexivity | lia]). cbn [cronJob skippedCycles].
      replace (k + 1 + length late)%nat with (k + S (length late))%nat by lia.
      reflexivity.
Qed.

(** A call that starts a cycle while further calls arrive at its first
    [await]. *)
Lemma processUploadsDuring_idle config late cy j w :
  isRunning j = false ->
  processUploadsDuring config (map (processUploads config) late) cy (j, w)
  = (Ok tt, (mkJob false (cronJob j) (length late mod 3)%nat,
             snd (withLocals emptyResults (cycle config cy) w))).
Proof.
  intros Hidle. unfold processUploadsDuring. unfold_js. cbn -[interleave Nat.modulo].
  rewrite Hidle. cbn -[interleave Nat.modulo].
  change (setSkipped 0 (setRunning true j)) with (mkJob true (cronJob j) 0).
  rewrite (interleave_running config late (mkJob true (cronJob j) 0) w eq_refl)
    by (cbn; lia).
  cbn -[Nat.modulo]. unfold withLocals.
  pose proof (cycle_effects config cy w) as H. unfold wp in H.
  destruct (cycle config cy (emptyResults, w)) as [r [rs w']].
  cbn [fst snd] in *. destruct H as (-> & _). reflexivity.
Qed.

(** C5: a trigger that arrives while a cycle is running changes nothing but
    the skip counter, which goes up by one and back to zero when it reaches
    three; three such triggers in a row, from a counter of zero, leave it at
    zero again; a trigger that starts a cycle leaves, when the cycle is over,
    the running flag cleared and the skip counter at zero, whatever happened
    in the cycle. A trigger that finds the job idle does run the cycle, once,
    with the running flag set: every call that arrives while it is suspended
    finds the job running, starts no cycle of its own and leaves the world to
    the cycle that runs, and is counted by the skip counter, which starts
    from zero; when the cycle is over the flag is cleared. Calls that find
    the job running leave the world alone whatever their number, so it makes
    no difference between which two steps of the cycle they arrive. *)
Theorem skip_counter_and_running_flag config :
  (forall cy j w,
      isRunning j = true ->
      processUploads config cy (j, w)
      = (Ok tt, (mkJob true (cronJob j)
                   (if (3 <=? skippedCycles j + 1)%nat then 0%nat
                    else (skippedCycles j + 1)%nat), w)))
  /\ (forall cy1 cy2 cy3 j w,
        isRunning j = true -> skippedCycles j = 0%nat ->
        let s1 := snd (processUploads config cy1 (j, w)) in
        let s2 := snd (processUploads config cy2 s1) in
        let s3 := snd (processUploads config cy3 s2) in
        skippedCycles (fst s1) = 1%nat /\ skippedCycles (fst s2) = 2%nat
        /\ s3 = (j, w))
  /\ (forall cy j w,
        isRunning j = false ->
        let out := processUploads config cy (j, w) in
        fst out = Ok tt
        /\ isRunning (fst (snd out)) = false
        /\ skippedCycles (fst (snd out)) = 0%nat
        /\ cronJob (fst (snd out)) = cronJob j)
  /\ (forall late cy j w,
        isRunning j = false ->
        processUploadsDuring config (map (processUploads config) late) cy (j, w)
        = (Ok tt, (mkJob false (cronJob j) (length late mod 3)%nat,
                   snd (withLocals emptyResults (cycle config cy) w))))
  /\ (forall cy j w,
        isRunning j = false ->
        processUploads config cy (j, w)
        = (Ok tt, (mkJob false (cronJob j) 0,
                   snd (withLocals emptyResults (cycle config cy) w))))
  /\ (forall late j w,
        isRunning j = true -> (skippedCycles j < 3)%nat ->
        interleave (map (processUploads config) late) (j, w)
        = (mkJob true (cronJob j) ((skippedCycles j + length late) mod 3)%nat, w))
  /\ (forall A (step : M World A) late j w,
        isRunning j = true -> (skippedCycles j < 3)%nat ->
        liftW step (interleave (map (processUploads config) late) (j, w))
        = (fst (liftW step (j, w)),
           interleave (map (processUploads config) late) (snd (liftW step (j, w))))).
Proof.
  split; [|split; [|split; [|split; [|split; [|split]]]]].
  - intros cy j w. apply processUploads_running.
  - intros cy1 cy2 cy3 [run cron skipped] w Hrun Hskip. cbn in Hrun, Hskip. subst.
    cbn zeta. rewrite processUploads_running by reflexivity. cbn [snd fst skippedCycles cronJob].
    rewrite processUploads_running by reflexivity. cbn [snd fst skippedCycles cronJob].
    rewrite processUploads_running by reflexivity. cbn. repeat split.
  - intros cy j w Hidle. cbn zeta.
    pose proof (processUploads_idle config cy j w Hidle) as H. unfold wp in H.
    destruct H as (Hr & Hj & _). rewrite Hr, Hj. repeat split.
  - intros late cy j w. apply processUploadsDuring_idle.
  - intros cy j w Hidle. apply (processUploadsDuring_idle config [] cy j w Hidle).
  - intros late j w. apply interleave_running.
  - intros A step late j w Hrun Hk.
    rewrite (interleave_running config late j w Hrun Hk).
    unfold liftW. destruct (step w) as [r w1]. cbn [fst snd].
    rewrite (interleave_running config late j w1 Hrun Hk). reflexivity.
Qed.

(** C6: a run for which the fetch interface reports that nothing is
    available sets [noVideos] and returns; the world (both collections, local
    storage, the trace) and the Account document are what they were. And
    every cycle that starts sends exactly one report, rendered from the final
    result, which carries [noVideos] whenever one of its accounts found
    nothing available. *)
Theorem no_resource_no_effect_one_report config :
  (forall sc u rs w,
      noneAvailable (nextVideo sc) = true ->
      processUserUpload config sc (entry u rs, w)
      = (Ok tt, (mkLocals u (setNoVideos rs) None None None, w)))
  /\ (forall cy j w,
        isRunning j = false ->
        exists rs extra,
          trace (snd (snd (processUploads config cy (j, w)))) = trace w ++ extra
          /\ oneSend 3 (mkMail (reportEmail config) (ReportBody rs)) (reportAttempts extra)
          /\ (someNoneAvailable cy 0 (length (selected cy w)) = true -> noVideos rs = true)).
Proof.
  split.
  - intros sc u rs w Hnone.
    unfold processUserUpload, pipeline, acquire.
    unfold tryCatch at 1. unfold bind at 1 2. rewrite getNextVideo_pure.
    unfold noneAvailable in Hnone.
    destruct (nextOutcome (nextVideo sc)) as [[v|]|e]; try discriminate. reflexivity.
  - intros cy j w Hidle.
    pose proof (processUploads_idle config cy j w Hidle) as H. unfold wp in H.
    destruct H as (_ & _ & _ & rs & _ & Hnone & _ & extra & Ht & Hsend).
    exists rs, extra. repeat split; assumption.
Qed.

(** C4: a run creates at most one Transfer Record and adds at most one
    entry, to one list only: none when nothing was available, exactly one
    otherwise. Over a cycle the entries of the result are as many as the
    selected accounts whose run was not cut short, in the result the cycle
    ends with and in the result the report is rendered from. *)
Theorem one_entry_per_attempted_account config :
  (forall sc u rs w,
      let out := processUserUpload config sc (entry u rs, w) in
      let rs' := results (fst (snd out)) in
      let w' := snd (snd out) in
      (length (uploadLogs w) <= length (uploadLogs w') <= length (uploadLogs w) + 1)%nat
      /\ if noneAvailable (nextVideo sc)
         then successful rs' = successful rs /\ failed rs' = failed rs
              /\ uploadLogs w' = uploadLogs w
         else (exists e, successful rs' = successful rs ++ [e] /\ failed rs' = failed rs)
              \/ (exists e, failed rs' = failed rs ++ [e] /\ successful rs' = successful rs))
  /\ (forall cy w,
        let out := cycle config cy (emptyResults, w) in
        let rs' := fst (snd out) in
        (length (successful rs') + length (failed rs'))%nat
        = attempted cy 0 (length (selected cy w)))
  /\ (forall cy j w,
        isRunning j = false ->
        let w' := snd (snd (processUploads config cy (j, w))) in
        exists rs extra,
          trace w' = trace w ++ extra
          /\ oneSend 3 (mkMail (reportEmail config) (ReportBody rs)) (reportAttempts extra)
          /\ (length (successful rs) + length (failed rs))%nat
             = attempted cy 0 (length (selected cy w))
          /\ (length (uploadLogs w')
              <= length (uploadLogs w) + attempted cy 0 (length (selected cy w)))%nat).
Proof.
  split; [|split].
  - intros sc u rs w. cbn zeta.
    pose proof (processUserUpload_effects config sc u rs w) as H. unfold wp in H.
    destruct (processUserUpload config sc (entry u rs, w)) as [r [l' w']].
    cbn [fst snd] in *. destruct H as (_ & Hlogs & _ & Hcase).
    split; [exact Hlogs|].
    destruct (noneAvailable (nextVideo sc)).
    + destruct Hcase as (-> & -> & _). repeat split.
    + destruct Hcase as [[e ->]|[e ->]]; [left|right]; exists e; split; reflexivity.
  - intros cy w. cbn zeta.
    pose proof (cycle_effects config cy w) as H. unfold wp in H.
    destruct H as (_ & Hent & _). exact Hent.
  - intros cy j w Hidle. cbn zeta.
    pose proof (processUploads_idle config cy j w Hidle) as H. unfold wp in H.
    destruct H as (_ & _ & _ & rs & Hent & _ & Hlogs & extra & Ht & Hsend).
    exists rs, extra. repeat split; try assumption. lia.
Qed.

Lemma skip_counter_and_running_flag_witness :
  isRunning (mkJob true None 2) = true
  /\ processUploads sampleConfig (mkCycleScript true None (fun _ => okRun))
       (mkJob true None 2, world1)
     = (Ok tt, (mkJob true None 0, world1))
  /\ isRunning (mkJob false None 2) = false
  /\ processUploadsDuring sampleConfig
       (map (processUploads sampleConfig)
          [mkCycleScript true None (fun _ => okRun);
           mkCycleScript true None (fun _ => emptyCatalogue);
           mkCycleScript true None (fun _ => okRun);
           mkCycleScript true None (fun _ => okRun)])
       (mkCycleScript true None (fun _ => okRun)) (mkJob false None 2, world1)
     = (Ok tt, (mkJob false None 1,
                snd (withLocals emptyResults
                       (cycle sampleConfig (mkCycleScript true None (fun _ => okRun)))
                       world1))).
Proof.
  split; [reflexivity|]. split.
  - apply (proj1 (skip_counter_and_running_flag sampleConfig)
             (mkCycleScript true None (fun _ => okRun)) (mkJob true None 2) world1 eq_refl).
  - split; [reflexivity|].
    apply (proj1 (proj2 (proj2 (proj2 (skip_counter_and_running_flag sampleConfig))))
             [mkCycleScript true None (fun _ => okRun);
              mkCycleScript true None (fun _ => emptyCatalogue);
              mkCycleScript true None (fun _ => okRun);
              mkCycleScript true None (fun _ => okRun)]
             (mkCycleScript true None (fun _ => okRun)) (mkJob false None 2) world1 eq_refl).
Defined.

Lemma no_resource_no_effect_one_report_witness :
  noneAvailable (nextVideo emptyCatalogue) = true
  /\ processUserUpload sampleConfig emptyCatalogue (entry aliceDoc emptyResults, world1)
     = (Ok tt, (mkLocals aliceDoc (setNoVideos emptyResults) None None None, world1)).
Proof.
  split; [reflexivity|].
  apply (proj1 (no_resource_no_effect_one_report sampleConfig)
           emptyCatalogue aliceDoc emptyResults world1 eq_refl).
Defined.

Lemma one_entry_per_attempted_account_witness :
  isRunning (mkJob false None 0) = false
  /\ attempted (mkCycleScript true None (fun _ => okRun)) 0
       (length (selected (mkCycleScript true None (fun _ => okRun)) world1)) = 2%nat
  /\ exists rs extra,
      trace (snd (snd (processUploads sampleConfig (mkCycleScript true None (fun _ => okRun))
                         (mkJob false None 0, world1))))
      = trace world1 ++ extra
      /\ oneSend 3 (mkMail (reportEmail sampleConfig) (ReportBody rs)) (reportAttempts extra)
      /\ (length (successful rs) + length (failed rs))%nat = 2%nat.
Proof.
  split; [reflexivity|]. split; [reflexivity|].
  destruct (proj2 (proj2 (one_entry_per_attempted_account sampleConfig))
              (mkCycleScript true None (fun _ => okRun)) (mkJob false None 0) world1 eq_refl)
    as (rs & extra & Ht & Hsend & Hent & _).
  exists rs, extra. split; [exact Ht|]. split; [exact Hsend|]. exact Hent.
Defined.

(** A cycle over an empty catalogue: both active accounts are visited, the
    world keeps its collections and files, and the one report, sent at the
    second attempt, says that no video was available. *)
Example empty_catalogue_cycle :
  let out := processUploads sampleConfig (mkCycleScript true None (fun _ => emptyCatalogue))
               (mkJob false None 2, world1) in
  fst out = Ok tt
  /\ fst (snd out) = mkJob false None 0
  /\ users (snd (snd out)) = users world1
  /\ uploadLogs (snd (snd out)) = []
  /\ mailAttempts (trace (snd (snd out)))
     = [(mkMail "ops@example.com" (ReportBody (mkResults [] [] 2 true false)), false);
        (mkMail "ops@example.com" (ReportBody (mkResults [] [] 2 true false)), true)].
Proof. vm_compute. repeat split. Qed.

(** A cycle in which the first account succeeds and the second has no
    refresh token: one entry each, two Transfer Records, the second account
    still active. *)
Example mixed_cycle :
  let out := processUploads sampleConfig (mkCycleScript true None (fun _ => okRun))
               (mkJob false None 0, world1) in
  List.map status (uploadLogs (snd (snd out))) = [Success; Failed]
  /\ isActive <$> users (snd (snd out)) !! 2%N = Some true
  /\ lastUploadDate <$> users (snd (snd out)) !! 1%N = Some (Some 8000)
  /\ lastUploadDate <$> users (snd (snd out)) !! 2%N = Some (Some 100)
  /\ List.map (fun a => (to (fst a), snd a)) (mailAttempts (trace (snd (snd out))))
     = [("bob@example.com", false); ("bob@example.com", true); ("ops@example.com", true)].
Proof. vm_compute. repeat split. Qed.

End SchedulerFacts.

(** ** Accounts: last-served timestamp and activation *)

Module AccountFacts.
Import Js JsString Model Helpers Persistence TokenService VideoService YouTubeService.
Import UploadJob Spec Samples WorldFacts TokenFacts DownloadFacts PublishFacts WpRules RunFacts.

(** What [acquire] guarantees when it hands over to the publish step. *)
Lemma acquire_handover sc u rs w video path l1 w1 :
  acquire sc (entry u rs, w) = (Ok (Some (video, path)), (l1, w1)) ->
  user l1 = u /\ results l1 = rs /\ users w1 = users w /\ clock w1 = clock w
  /\ trace w1 = trace w /\ videoData l1 = Some video /\ filePath l1 = Some path
  /\ exists size, files w1 !! path = Some size /\ (1024 <= size)%N.
Proof.
  intros Hacq.
  pose proof (wp_eq _ _ _ _ _ (acquire_effects sc (entry u rs) w eq_refl) Hacq) as H.
  cbn [fst snd entry user results] in H.
  destruct H as (Hu & Hr & Hus & Hc & _ & Ht & _ & _ & Hnone & Hv & Hp & Hsize).
  rewrite Hnone in Hr. repeat split; assumption.
Qed.

(** Saving a document on which only [failedUploads] was assigned. *)
Lemma failure_save_lastUploadDate (us : gmap N User) uid src k :
  lastUploadDate <$> alter (writePaths [PathFailedUploads] src) uid us !! k
  = lastUploadDate <$> us !! k.
Proof.
  rewrite lookup_alter. destruct (decide (uid = k)) as [->|_]; [|reflexivity].
  destruct (us !! k); reflexivity.
Qed.

Lemma failure_save_isActive (us : gmap N User) uid src k :
  isActive <$> alter (writePaths [PathFailedUploads] src) uid us !! k
  = isActive <$> us !! k.
Proof.
  rewrite lookup_alter. destruct (decide (uid = k)) as [->|_]; [|reflexivity].
  destruct (us !! k); reflexivity.
Qed.

Lemma failure_save_tokens (us : gmap N User) uid src k :
  tokens <$> alter (writePaths [PathFailedUploads] src) uid us !! k
  = tokens <$> us !! k.
Proof.
  rewrite lookup_alter. destruct (decide (uid = k)) as [->|_]; [|reflexivity].
  destruct (us !! k); reflexivity.
Qed.

(** C1, as the code has it: for a run that reaches the publish step with a
    freshly loaded Account document, a failing publish step leaves
    [lastUploadDate] as it was, in the document and in every stored Account,
    and the run ends in the failure list; a publish step that succeeds,
    followed by successful saves of the Transfer Record and of the Account,
    sets [lastUploadDate] to the time the upload ended, in the document and in
    the store, and the run ends in the success list. *)
Theorem lastUploadDate_written_on_success_only config sc u rs w video path l1 w1 :
  modifiedPaths u = [] ->
  acquire sc (entry u rs, w) = (Ok (Some (video, path)), (l1, w1)) ->
  (forall e w2,
      uploadVideo config (upload sc) u video path w1 = (Throw e, w2) ->
      let out := processUserUpload config sc (entry u rs, w) in
      fst out = Ok tt
      /\ lastUploadDate (fields (user (fst (snd out)))) = lastUploadDate (fields u)
      /\ (forall k, lastUploadDate <$> users (snd (snd out)) !! k
                    = lastUploadDate <$> users w !! k)
      /\ exists entry, results (fst (snd out)) = pushFailed entry rs)
  /\ (forall res w2,
        uploadVideo config (upload sc) u video path w1 = (Ok res, w2) ->
        logSaveSuccess sc = None -> userSaveSuccess sc = None ->
        let out := processUserUpload config sc (entry u rs, w) in
        fst out = Ok tt
        /\ lastUploadDate (fields (user (fst (snd out)))) = Some (clock w2)
        /\ (is_Some (users w !! _id u) ->
            lastUploadDate <$> users (snd (snd out)) !! _id u = Some (Some (clock w2)))
        /\ exists entry, results (fst (snd out)) = pushSuccessful entry rs).
Proof.
  intros Hfresh Hacq.
  destruct (acquire_handover _ _ _ _ _ _ _ _ Hacq)
    as (Hu1 & Hr1 & Hus1 & Hc1 & Ht1 & Hv1 & Hp1 & size & Hfile & Hsize).
  split.
  - intros e w2 Hup. cbn zeta.
    change (wp (processUserUpload config sc) (entry u rs, w) (fun r s' =>
      r = Ok tt
      /\ lastUploadDate (fields (user (fst s'))) = lastUploadDate (fields u)
      /\ (forall k, lastUploadDate <$> users (snd s') !! k = lastUploadDate <$> users w !! k)
      /\ exists entry, results (fst s') = pushFailed entry rs)).
    unfold processUserUpload, pipeline. apply wp_tryCatch, wp_bind.
    eapply wp_result; [exact Hacq|]. cbv beta iota. unfold publish. go.
    rewrite Hu1. eapply wp_result; [exact Hup|]. cbv beta iota.
    destruct (uploadVideo_effects _ _ _ _ _ _ _ _ Hup) as (_ & _ & _ & Hcred & _).
    eapply wp_mono; [apply onFailure_effects|].
    intros r3 [l3 w3]. cbn [fst snd].
    intros (-> & Hres3 & _ & Hf3 & Hus3 & _).
    split; [reflexivity|]. split; [rewrite Hf3, Hu1; reflexivity|]. split.
    + intros k. rewrite <- Hus1, <- (credentialsOnly_lastUploadDate _ _ k Hcred).
      destruct Hus3 as [->| ->]; [reflexivity|].
      rewrite Hu1, Hfresh. apply failure_save_lastUploadDate.
    + rewrite Hres3, Hr1. eauto.
  - intros res w2 Hup Hlog Huser. cbn zeta.
    change (wp (processUserUpload config sc) (entry u rs, w) (fun r s' =>
      r = Ok tt
      /\ lastUploadDate (fields (user (fst s'))) = Some (clock w2)
      /\ (is_Some (users w !! _id u) ->
          lastUploadDate <$> users (snd s') !! _id u = Some (Some (clock w2)))
      /\ exists entry, results (fst s') = pushSuccessful entry rs)).
    unfold processUserUpload, pipeline. apply wp_tryCatch, wp_bind.
    eapply wp_result; [exact Hacq|]. cbv beta iota. unfold publish. go.
    rewrite Hu1. eapply wp_result; [exact Hup|]. cbv beta iota.
    destruct (uploadVideo_effects _ _ _ _ _ _ _ _ Hup) as (_ & _ & _ & Hcred & _).
    unfold complete. go. apply wp_editUploadLog. go. apply wp_editUploadLog. go.
    apply wp_uploadLogSave. rewrite Hlog.
    destruct l1 as [u1 rs1 vd1 fp1 [[[i|] lf]|]]; norm; cbn [user results] in *; subst u1 rs1.
    all: go; apply wp_userSave; rewrite Huser; norm; go; run_total; go; run_total; go.
    all: destruct Hsame as (Hus4 & _).
    all: cbn [fst snd user results fields withUser withResults users emit withUsers
              withUploadLogs lastUploadDate withTotalUploads withLastUploadDate] in *.
    all: split; [reflexivity|]; split; [reflexivity|]; split; [|eauto].
    all: intros [stored Hstored]; rewrite Hus4; cbn [users withUsers];
      rewrite lookup_alter_eq, Hfresh;
      pose proof (Hcred (_id u)) as Hk; rewrite Hus1, Hstored in Hk;
      destruct (users w2 !! _id u) as [stored2|]; [reflexivity|contradiction].
Qed.


Lemma isAuthError_authExpired :
  isAuthError (message (newError ("Upload failed: " +:+ authExpiredMessage))) = true.
Proof. reflexivity. Qed.

(** C2: when the refresh exchange fails and the deactivation is written,
    [getValidTokens] throws the authentication-expired error and the stored
    Account is inactive; a run that reaches the publish step in that
    situation ends with the Account still inactive in the store, one failure
    entry carrying that error, and one notice: the re-authentication notice
    to the Account's own address, and no error notice. *)
Theorem refresh_failure_deactivates config sc u rs w video path l1 w1 stored tk e :
  modifiedPaths u = [] ->
  acquire sc (entry u rs, w) = (Ok (Some (video, path)), (l1, w1)) ->
  (forall size, files w1 !! path = Some size -> Z.of_N size <= MAX_YOUTUBE_FILE_SIZE) ->
  findReply (tokenScript (upload sc)) = None ->
  users w !! _id u = Some stored ->
  hasRefreshToken stored = true ->
  tokens stored = Some tk ->
  isExpiring (expiry_date tk) (clock w) = true ->
  refreshReply (tokenScript (upload sc)) = inr e ->
  deactivateSave (tokenScript (upload sc)) = None ->
  (exists w2,
      getValidTokens (tokenScript (upload sc)) (_id u) w1
      = (Throw (newError authExpiredMessage), w2)
      /\ users w2 !! _id u = Some (withIsActive false stored))
  /\ (let out := processUserUpload config sc (entry u rs, w) in
      fst out = Ok tt
      /\ isActive <$> users (snd (snd out)) !! _id u = Some false
      /\ results (fst (snd out))
         = pushFailed (mkFailedEntry (email (fields u)) (titleOrUnknown (Some video))
                         ("Upload failed: " +:+ authExpiredMessage)) rs
      /\ exists extra,
          trace (snd (snd out)) = trace w ++ EvRefresh (refresh_token tk) :: extra
          /\ oneSend 2 (mkMail (email (fields u)) (ReAuthBody (channelTitle (fields u))))
               (mailAttempts extra)).
Proof.
  intros Hfresh Hacq Hmax Hfind Hstored Hhas Htk Hexp Hrefresh Hsave.
  destruct (acquire_handover _ _ _ _ _ _ _ _ Hacq)
    as (Hu1 & Hr1 & Hus1 & Hc1 & Ht1 & Hv1 & Hp1 & size & Hfile & Hsize).
  rewrite <- Hus1 in Hstored. rewrite <- Hc1 in Hexp.
  split.
  - eexists. split.
    + apply (getValidTokens_exchange_fails _ _ _ stored tk e); assumption.
    + cbn [users withUsers]. apply deactivated_lookup. exact Hstored.
  - cbn zeta.
    change (wp (processUserUpload config sc) (entry u rs, w) (fun r s' =>
      r = Ok tt
      /\ isActive <$> users (snd s') !! _id u = Some false
      /\ results (fst s')
         = pushFailed (mkFailedEntry (email (fields u)) (titleOrUnknown (Some video))
                         ("Upload failed: " +:+ authExpiredMessage)) rs
      /\ exists extra,
          trace (snd s') = trace w ++ EvRefresh (refresh_token tk) :: extra
          /\ oneSend 2 (mkMail (email (fields u)) (ReAuthBody (channelTitle (fields u))))
               (mailAttempts extra))).
    unfold processUserUpload, pipeline. apply wp_tryCatch, wp_bind.
    eapply wp_result; [exact Hacq|]. cbv beta iota. unfold publish. go.
    rewrite Hu1. eapply wp_result.
    { apply (uploadVideo_exchange_fails config _ u video path w1 size stored tk e);
        try assumption. apply Hmax. exact Hfile. }
    cbv beta iota.
    eapply wp_mono; [apply onFailure_effects|].
    intros r3 [l3 w3]. cbn [fst snd users withUsers trace emit].
    unfold noticeFor. rewrite isAuthError_authExpired. cbn [fst snd message newError].
    intros (-> & Hres3 & _ & _ & Hus3 & _ & _ & _ & extra & Ht3 & _ & Hsend).
    split; [reflexivity|]. split.
    + destruct Hus3 as [->| ->].
      * rewrite deactivated_lookup by exact Hstored. reflexivity.
      * rewrite Hu1, Hfresh, failure_save_isActive.
        rewrite deactivated_lookup by exact Hstored. reflexivity.
    + split.
      * rewrite Hres3, Hr1, Hu1, Hv1. reflexivity.
      * exists extra. rewrite Ht3, Ht1, <- app_assoc. rewrite Hu1 in Hsend.
        split; [reflexivity|exact Hsend].
Qed.

(** Without a usable bundle the publish step fails before anything is read
    from the authorization service or written to the store. *)
Lemma uploadVideo_without_bundle config sc user video path w stored r w' :
  users w !! _id user = Some stored ->
  hasRefreshToken stored = false ->
  uploadVideo config sc user video path w = (r, w') ->
  w' = w /\ exists e, r = Throw e.
Proof.
  intros Hstored Hno. unfold uploadVideo, getValidTokens, findById. unfold_js.
  destruct (files w !! path) as [size|]; cbn.
  2:{ intros [= <- <-]. eauto. }
  destruct (Z.of_N size >? MAX_YOUTUBE_FILE_SIZE)%Z; cbn.
  { intros [= <- <-]. eauto. }
  destruct (findReply (tokenScript sc)); cbn.
  { intros [= <- <-]. eauto. }
  rewrite Hstored. cbn. rewrite Hno. cbn. intros [= <- <-]. eauto.
Qed.

(** A run on an Account whose stored bundle has no refresh token. *)
Lemma processUserUpload_without_bundle config sc u rs w stored :
  modifiedPaths u = [] ->
  users w !! _id u = Some stored ->
  hasRefreshToken stored = false ->
  wp (processUserUpload config sc) (entry u rs, w) (fun r s' =>
    isActive <$> users (snd s') !! _id u = Some (isActive stored)
    /\ tokens <$> users (snd s') !! _id u = Some (tokens stored)
    /\ lastUploadDate <$> users (snd s') !! _id u = Some (lastUploadDate stored)
    /\ refreshCalls (trace (snd s')) = refreshCalls (trace w)).
Proof.
  intros Hfresh Hstored Hno.
  unfold processUserUpload, pipeline. apply wp_tryCatch, wp_bind.
  eapply wp_mono; [apply acquire_effects; reflexivity|].
  intros r [l1 w1]. cbn [fst snd entry user results uploadLog].
  intros (Hu1 & _ & Hus1 & _ & _ & Ht1 & _ & _ & Hcase).
  assert (Hfail : forall error,
             wp (onFailure config sc error) (l1, w1) (fun r s' =>
               isActive <$> users (snd s') !! _id u = Some (isActive stored)
               /\ tokens <$> users (snd s') !! _id u = Some (tokens stored)
               /\ lastUploadDate <$> users (snd s') !! _id u = Some (lastUploadDate stored)
               /\ refreshCalls (trace (snd s')) = refreshCalls (trace w))).
  { intros error. eapply wp_mono; [apply onFailure_effects|].
    intros r3 [l3 w3]. cbn [fst snd].
    intros (_ & _ & _ & _ & Hus3 & _ & _ & _ & extra & Ht3 & Hrc & _).
    rewrite Ht3, refreshCalls_app, Hrc, Ht1, Nat.add_0_r.
    destruct Hus3 as [->| ->].
    - rewrite Hus1, Hstored. repeat split.
    - rewrite Hu1, Hfresh, failure_save_isActive, failure_save_tokens,
        failure_save_lastUploadDate, Hus1, Hstored.
      repeat split. }
  destruct r as [[[video path]|]|e]; cbv beta iota.
  - unfold publish. go. apply wp_of_eq. intros r2 w2 Hup.
    rewrite Hu1 in Hup. rewrite <- Hus1 in Hstored.
    destruct (uploadVideo_without_bundle _ _ _ _ _ _ _ _ _ Hstored Hno Hup) as [-> [e2 ->]].
    rewrite Hus1 in Hstored. apply Hfail.
  - destruct Hcase as (_ & _ & ->). apply wp_ret. cbn [snd]. rewrite Hstored. repeat split.
  - apply Hfail.
Qed.

(** C10: with no refresh token in the stored bundle [getValidTokens] throws
    the tokens-not-found error and leaves the world as it is; whatever else
    happens in a run on such an Account, its activation flag and bundle stay
    as stored and no refresh exchange is made, so an active Account stays
    selectable; and when [getValidTokens] does deactivate an Account, it had a
    refresh token, one refresh exchange was made, the call threw the
    authentication-expired error, and the exchange itself failed unless it was
    the write of the refreshed bundle that did. *)
Theorem missing_bundle_keeps_account_active config :
  (forall ts uid w stored,
      findReply ts = None ->
      users w !! uid = Some stored ->
      hasRefreshToken stored = false ->
      getValidTokens ts uid w
      = (Throw (newError "User tokens not found. User needs to re-authenticate."), w))
  /\ (forall sc u rs w stored,
        modifiedPaths u = [] ->
        users w !! _id u = Some stored ->
        hasRefreshToken stored = false ->
        let w' := snd (snd (processUserUpload config sc (entry u rs, w))) in
        isActive <$> users w' !! _id u = Some (isActive stored)
        /\ tokens <$> users w' !! _id u = Some (tokens stored)
        /\ lastUploadDate <$> users w' !! _id u = Some (lastUploadDate stored)
        /\ refreshCalls (trace w') = refreshCalls (trace w))
  /\ (forall ts uid w r w' stored,
        getValidTokens ts uid w = (r, w') ->
        users w !! uid = Some stored ->
        isActive stored = true ->
        isActive <$> users w' !! uid = Some false ->
        hasRefreshToken stored = true
        /\ refreshCalls (trace w') = (refreshCalls (trace w) + 1)%nat
        /\ (refreshSave ts = None -> exists e, refreshReply ts = inr e)).
Proof.
  split; [|split].
  - intros ts uid w stored. apply getValidTokens_bundle_missing.
  - intros sc u rs w stored Hfresh Hstored Hno. cbn zeta.
    apply (processUserUpload_without_bundle config sc u rs w stored Hfresh Hstored Hno).
  - intros ts uid w r w' stored Hrun Hstored Hactive Hoff.
    revert Hrun. unfold getValidTokens, findById, refreshTokenIfNeeded. unfold_js.
    destruct (findReply ts); cbn.
    { intros [= <- <-]. rewrite Hstored in Hoff. cbn in Hoff. congruence. }
    rewrite Hstored. cbn.
    destruct (hasRefreshToken stored) eqn:Hhas; cbn.
    2:{ intros [= <- <-]. rewrite Hstored in Hoff. cbn in Hoff. congruence. }
    assert (Htk : exists tk, tokens stored = Some tk).
    { unfold hasRefreshToken in Hhas. destruct (tokens stored); [eauto|discriminate]. }
    destruct Htk as [tk Htk]. rewrite Htk. cbn.
    destruct (isExpiring (expiry_date tk) (clock w)); cbn.
    2:{ intros [= <- <-]. rewrite Hstored in Hoff. cbn in Hoff. congruence. }
    destruct (refreshReply ts) as [c|e]; cbn.
    + destruct (refreshSave ts) as [e1|]; cbn.
      * destruct (deactivateSave ts); cbn; intros [= <- <-]; cbn in Hoff.
        -- rewrite Hstored in Hoff. cbn in Hoff. congruence.
        -- split; [reflexivity|]. cbn [trace withUsers emit].
           split; [rewrite refreshCalls_app; reflexivity|]. intros [=].
      * intros [= <- <-]. cbn in Hoff. rewrite lookup_alter_eq, Hstored in Hoff.
        cbn in Hoff. congruence.
    + destruct (deactivateSave ts); cbn; intros [= <- <-]; cbn in Hoff.
      * rewrite Hstored in Hoff. cbn in Hoff. congruence.
      * split; [reflexivity|]. cbn [trace withUsers emit].
        split; [rewrite refreshCalls_app; reflexivity|]. eauto.
Qed.

Lemma missing_bundle_keeps_account_active_witness :
  users world1 !! 2%N = Some bob
  /\ hasRefreshToken bob = false
  /\ getValidTokens refreshOk 2 world1
     = (Throw (newError "User tokens not found. User needs to re-authenticate."), world1)
  /\ isActive
       <$> users (snd (snd (processUserUpload sampleConfig okRun
                              (entry (mkUserDoc 2 bob []) emptyResults, world1)))) !! 2%N
     = Some true.
Proof.
  split; [reflexivity|]. split; [reflexivity|]. split.
  - apply (proj1 (missing_bundle_keeps_account_active sampleConfig)
             refreshOk 2%N world1 bob eq_refl eq_refl eq_refl).
  - apply (proj1 (proj2 (missing_bundle_keeps_account_active sampleConfig))
             okRun (mkUserDoc 2 bob []) emptyResults world1 bob eq_refl eq_refl eq_refl).
Defined.

Lemma lastUploadDate_written_on_success_only_witness :
  modifiedPaths aliceDoc = []
  /\ (exists l1 w1,
        acquire okRun (entry aliceDoc emptyResults, world0)
        = (Ok (Some (clip, downloadPath clip)), (l1, w1)))
  /\ lastUploadDate
       <$> users (snd (snd (processUserUpload sampleConfig okRun
                              (entry aliceDoc emptyResults, world0)))) !! 1%N
     = Some (Some 8000).
Proof.
  eassert (Hacq : acquire okRun (entry aliceDoc emptyResults, world0)
                  = (Ok (Some (clip, downloadPath clip)), (_, _)))
    by (vm_compute; reflexivity).
  split; [reflexivity|]. split; [eexists _, _; exact Hacq|].
  lazymatch type of Hacq with
  | _ = (_, (?l1, ?w1)) =>
      eassert (Hup : uploadVideo sampleConfig (upload okRun) aliceDoc clip
                       (downloadPath clip) w1 = (Ok _, _))
        by (vm_compute; reflexivity)
  end.
  destruct (proj2 (lastUploadDate_written_on_success_only sampleConfig okRun aliceDoc
                     emptyResults world0 clip (downloadPath clip) _ _ eq_refl Hacq)
              _ _ Hup eq_refl eq_refl) as (_ & _ & Hstored & _).
  apply Hstored. eexists. reflexivity.
Defined.

(** C1, against the claim as written: a run that reached the publish
    interface and failed there ends in the failure list with
    [lastUploadDate] still unset, in the document and in the store. *)
Lemma publish_failure_leaves_lastUploadDate :
  let out := processUserUpload sampleConfig quotaRun (entry aliceDoc emptyResults, world0) in
  publishCalled (trace (snd (snd out))) = true
  /\ List.map error (failed (results (fst (snd out))))
     = ["YouTube API quota exceeded - please try again later"]
  /\ lastUploadDate (fields (user (fst (snd out)))) = None
  /\ lastUploadDate <$> users (snd (snd out)) !! 1%N = Some None.
Proof. vm_compute. repeat split. Qed.

Lemma refresh_failure_deactivates_witness :
  users world0 !! 1%N = Some alice
  /\ isActive alice = true
  /\ refreshReply (tokenScript (upload revokedRun)) = inr (newError "invalid_grant")
  /\ isActive
       <$> users (snd (snd (processUserUpload sampleConfig revokedRun
                              (entry aliceDoc emptyResults, world0)))) !! 1%N
     = Some false.
Proof.
  eassert (Hacq : acquire revokedRun (entry aliceDoc emptyResults, world0)
                  = (Ok (Some (clip, downloadPath clip)), (_, _)))
    by (vm_compute; reflexivity).
  split; [reflexivity|]. split; [reflexivity|]. split; [reflexivity|].
  refine (proj1 (proj2 (proj2 (refresh_failure_deactivates sampleConfig revokedRun aliceDoc
                    emptyResults world0 clip (downloadPath clip) _ _ alice bundle
                    (newError "invalid_grant") eq_refl Hacq _ eq_refl eq_refl eq_refl
                    eq_refl eq_refl eq_refl eq_refl)))).
  intros size Hsize. vm_compute in Hsize. injection Hsize as <-. vm_compute. discriminate.
Defined.

End AccountFacts.

(** ** File names, markup and metadata *)

Module TextFacts.
Import JsString YouTubeMeta Helpers EmailService Spec.

Lemma length_substring_le (s : string) : forall m n, (String.length (String.substring m n s) <= n)%nat.
Proof.
  induction s as [|c t IH]; intros [|m] [|n]; simpl; try lia.
  - specialize (IH 0%nat n). lia.
  - apply (IH m 0%nat).
  - apply (IH m (S n)).
Qed.

Lemma allChars_substring P (s : string) :
  forall m n, allChars P s = true -> allChars P (String.substring m n s) = true.
Proof.
  induction s as [|c t IH]; intros [|m] [|n]; simpl; try reflexivity.
  - intros H. apply andb_true_iff in H as [H1 H2]. rewrite H1. simpl. apply IH, H2.
  - intros H. apply andb_true_iff in H as [_ H2]. apply (IH m 0%nat), H2.
  - intros H. apply andb_true_iff in H as [_ H2]. apply (IH m (S n)), H2.
Qed.

Lemma take_all (s : string) : forall n, (String.length s <= n)%nat -> take n s = s.
Proof.
  unfold take. induction s as [|c t IH]; intros [|n]; simpl; try reflexivity; try lia.
  intros H. f_equal. apply IH. lia.
Qed.

Lemma noDoubleUnderscore_take (s : string) :
  forall n, noDoubleUnderscore s = true -> noDoubleUnderscore (take n s) = true.
Proof.
  unfold take. induction s as [|c t IH]; intros [|n]; simpl; try reflexivity.
  destruct t as [|c' t']; [intros _; destruct n; reflexivity|].
  intros H. apply andb_true_iff in H as [H1 H2].
  specialize (IH n H2). destruct n as [|n]; [reflexivity|].
  simpl in *. rewrite H1. exact IH.
Qed.

Lemma allChars_trimStart P s : allChars P s = true -> allChars P (trimStart s) = true.
Proof.
  induction s as [|c t IH]; simpl; [reflexivity|].
  intros H. destruct (is_space c); [|exact H].
  apply andb_true_iff in H as [_ H]. apply IH, H.
Qed.

Lemma allChars_trimEnd P s : allChars P s = true -> allChars P (trimEnd s) = true.
Proof.
  induction s as [|c t IH]; simpl; [reflexivity|].
  intros H. apply andb_true_iff in H as [H1 H2]. specialize (IH H2).
  destruct (trimEnd t) as [|b t'].
  - destruct (is_space c); simpl; [reflexivity|]. rewrite H1. reflexivity.
  - change (P c && allChars P (String b t') = true). rewrite H1. exact IH.
Qed.

Lemma length_trimStart s : (String.length (trimStart s) <= String.length s)%nat.
Proof.
  induction s as [|c t IH]; simpl; [lia|]. destruct (is_space c); simpl; lia.
Qed.

Lemma length_trimEnd s : (String.length (trimEnd s) <= String.length s)%nat.
Proof.
  induction s as [|c t IH]; simpl; [lia|].
  destruct (trimEnd t) as [|b t']; [destruct (is_space c)|]; simpl in *; lia.
Qed.

Lemma allChars_remove_control s :
  allChars (fun c => negb (is_control c)) (remove_control s) = true.
Proof.
  induction s as [|c t IH]; simpl; [reflexivity|].
  destruct (is_control c) eqn:Hc; simpl; [exact IH|]. rewrite Hc. exact IH.
Qed.

Lemma sanitizeMetadata_props (text : option string) :
  let r := sanitizeMetadata text in
  allChars (fun c => negb (is_control c)) r = true /\
  (String.length r <=
     if match text with Some t => includes (String "010" "") t | None => false end
     then 5000 else 100)%nat.
Proof.
  intros r. subst r. destruct text as [[|c t]|].
  - split; [reflexivity|]. simpl. lia.
  - change (sanitizeMetadata (Some (String c t)))
      with (trim (if includes (String "010" "") (String c t)
                  then take 5000 (remove_control (String c t))
                  else take 100 (remove_control (String c t)))).
    split.
    + apply allChars_trimEnd, allChars_trimStart.
      destruct (includes _ (String c t)); apply allChars_substring, allChars_remove_control.
    + unfold trim. etrans; [apply length_trimEnd|]. etrans; [apply length_trimStart|].
      destruct (includes _ (String c t)); apply length_substring_le.
  - split; [reflexivity|]. simpl. lia.
Qed.

(** X5: sanitised metadata holds no control character (so no line break
    either), has no white space at its ends, and is at most 100 characters
    long, or 5000 when the raw text contains a line feed; a missing or empty
    text gives the empty string. *)
Theorem sanitizeMetadata_clean (text : option string) :
  let r := sanitizeMetadata text in
  allChars (fun c => negb (is_control c)) r = true /\
  trimmed r /\
  (String.length r <=
     if match text with Some t => includes (String "010" "") t | None => false end
     then 5000 else 100)%nat /\
  match text with
  | None | Some EmptyString => r = EmptyString
  | Some _ => True
  end.
Proof.
  intros r. subst r.
  destruct (sanitizeMetadata_props text) as [Hclean Hlen].
  split; [exact Hclean|]. split; [|split; [exact Hlen|]].
  - destruct text as [[|c t]|].
    + split; discriminate.
    + change (sanitizeMetadata (Some (String c t)))
        with (trim (if includes (String "010" "") (String c t)
                    then take 5000 (remove_control (String c t))
                    else take 100 (remove_control (String c t)))).
      apply TagsFacts.trim_trimmed.
    + split; discriminate.
  - destruct text as [[|c t]|]; [reflexivity|exact I|reflexivity].
Qed.

Lemma validatePrivacyStatus_In status :
  In (validatePrivacyStatus status) ["public"; "private"; "unlisted"].
Proof.
  unfold validatePrivacyStatus.
  destruct (existsb _ _) eqn:H; [|left; reflexivity].
  apply existsb_exists in H as (x & Hx & Heq). apply String.eqb_eq in Heq. subst x. exact Hx.
Qed.

Lemma toLowerCase_fix s :
  In s ["public"; "private"; "unlisted"] -> toLowerCase s = s.
Proof. simpl. intros [<-|[<-|[<-|[]]]]; reflexivity. Qed.

Lemma validatePrivacyStatus_cases status :
  (validatePrivacyStatus status = toLowerCase status /\
   In (toLowerCase status) ["public"; "private"; "unlisted"]) \/
  (validatePrivacyStatus status = "public" /\
   ~ In (toLowerCase status) ["public"; "private"; "unlisted"]).
Proof.
  unfold validatePrivacyStatus.
  destruct (existsb _ _) eqn:H.
  - left. split; [reflexivity|].
    apply existsb_exists in H as (x & Hx & Heq). apply String.eqb_eq in Heq. subst x. exact Hx.
  - right. split; [reflexivity|]. intros Hin.
    assert (existsb (String.eqb (toLowerCase status)) ["public"; "private"; "unlisted"] = true).
    { apply existsb_exists. eexists. split; [exact Hin|]. apply String.eqb_refl. }
    congruence.
Qed.

(** X6: the privacy status sent to the publish interface is always one of
    public, private and unlisted: it is the input in lower case when that is
    one of the three, and public when it is not; validating twice changes
    nothing. *)
Theorem validatePrivacyStatus_enum (status : string) :
  In (validatePrivacyStatus status) ["public"; "private"; "unlisted"] /\
  validatePrivacyStatus (validatePrivacyStatus status) = validatePrivacyStatus status /\
  (In (toLowerCase status) ["public"; "private"; "unlisted"] ->
   validatePrivacyStatus status = toLowerCase status) /\
  (~ In (toLowerCase status) ["public"; "private"; "unlisted"] ->
   validatePrivacyStatus status = "public").
Proof.
  assert (Hin : In (validatePrivacyStatus status) ["public"; "private"; "unlisted"]).
  { destruct (validatePrivacyStatus_cases status) as [[-> H]|[-> _]]; [exact H|left; reflexivity]. }
  split; [exact Hin|]. split; [|split].
  - simpl in Hin. destruct Hin as [<-|[<-|[<-|[]]]]; reflexivity.
  - intros Hvalid.
    destruct (validatePrivacyStatus_cases status) as [[-> _]|[_ Hno]];
      [reflexivity|contradiction].
  - intros Hinvalid.
    destruct (validatePrivacyStatus_cases status) as [[_ Hyes]|[-> _]];
      [contradiction|reflexivity].
Qed.

Lemma validatePrivacyStatus_enum_witness :
  validatePrivacyStatus "Private" = "private"
  /\ validatePrivacyStatus "friends" = "public".
Proof.
  split.
  - apply (proj1 (proj2 (proj2 (validatePrivacyStatus_enum "Private")))).
    vm_compute. right. left. reflexivity.
  - apply (proj2 (proj2 (proj2 (validatePrivacyStatus_enum "friends")))).
    vm_compute. intros [H|[H|[H|[]]]]; discriminate H.
Defined.

Lemma allChars_replaceUnsafe s : allChars is_safe (replaceUnsafe s) = true.
Proof.
  induction s as [|c t IH]; simpl; [reflexivity|].
  rewrite IH. destruct (is_safe c) eqn:Hc; [rewrite Hc|]; reflexivity.
Qed.

Lemma replaceUnsafe_safe s : allChars is_safe s = true -> replaceUnsafe s = s.
Proof.
  induction s as [|c t IH]; simpl; [reflexivity|].
  intros H. apply andb_true_iff in H as [H1 H2]. rewrite H1, IH by exact H2. reflexivity.
Qed.

Lemma allChars_collapse P s : allChars P s = true -> allChars P (collapseUnderscores s) = true.
Proof.
  induction s as [|c t IH]; [reflexivity|].
  intros H. simpl in H. apply andb_true_iff in H as [H1 H2]. specialize (IH H2).
  simpl. destruct (Ascii.eqb c "_").
  - destruct t as [|c' t']; [simpl; rewrite H1; reflexivity|].
    destruct (Ascii.eqb c' "_"); [exact IH|].
    change (P c && allChars P (collapseUnderscores (String c' t')) = true).
    rewrite H1. exact IH.
  - change (P c && allChars P (collapseUnderscores t) = true). rewrite H1. exact IH.
Qed.

Lemma collapse_first s c :
  first_char (collapseUnderscores s) = Some c -> first_char s = Some c.
Proof.
  induction s as [|a t IH]; [discriminate|].
  simpl. destruct (Ascii.eqb a "_") eqn:Ha; [|simpl; congruence].
  destruct t as [|c' t']; [simpl; congruence|].
  destruct (Ascii.eqb c' "_") eqn:Hc'; [|simpl; congruence].
  intros H. apply IH in H. simpl in H. injection H as <-.
  apply Ascii.eqb_eq in Ha, Hc'. congruence.
Qed.

Lemma noDouble_cons c s :
  noDoubleUnderscore (String c s)
  = match first_char s with
    | Some c' => negb (Ascii.eqb c "_" && Ascii.eqb c' "_") && noDoubleUnderscore s
    | None => true
    end.
Proof. destruct s; reflexivity. Qed.

Lemma noDouble_collapse s : noDoubleUnderscore (collapseUnderscores s) = true.
Proof.
  induction s as [|c t IH]; [reflexivity|].
  simpl. destruct (Ascii.eqb c "_") eqn:Hc.
  - destruct t as [|c' t']; [reflexivity|].
    destruct (Ascii.eqb c' "_") eqn:Hc'; [exact IH|].
    rewrite noDouble_cons.
    destruct (first_char _) as [d|] eqn:Hd; [|reflexivity].
    apply collapse_first in Hd. simpl in Hd. injection Hd as <-.
    rewrite Hc', IH, andb_false_r. reflexivity.
  - rewrite noDouble_cons. destruct (first_char _); [|reflexivity].
    rewrite IH, Hc. reflexivity.
Qed.

Lemma collapse_noDouble s : noDoubleUnderscore s = true -> collapseUnderscores s = s.
Proof.
  induction s as [|c t IH]; [reflexivity|].
  intros H. rewrite noDouble_cons in H. simpl.
  destruct t as [|c' t'].
  - destruct (Ascii.eqb c "_"); reflexivity.
  - simpl first_char in H. apply andb_true_iff in H as [H1 H2].
    rewrite (IH H2).
    destruct (Ascii.eqb c "_"); [|reflexivity].
    destruct (Ascii.eqb c' "_"); [discriminate|reflexivity].
Qed.

Lemma sanitizeFilename_fixed s :
  allChars is_safe s = true -> noDoubleUnderscore s = true ->
  (String.length s <= 200)%nat -> sanitizeFilename s = s.
Proof.
  intros H1 H2 H3. unfold sanitizeFilename.
  rewrite replaceUnsafe_safe, collapse_noDouble by assumption.
  apply take_all, H3.
Qed.

Lemma sanitizeFilename_props filename :
  let r := sanitizeFilename filename in
  allChars is_safe r = true /\ noDoubleUnderscore r = true /\ (String.length r <= 200)%nat.
Proof.
  intros r. subst r. unfold sanitizeFilename. split; [|split].
  - apply allChars_substring, allChars_collapse, allChars_replaceUnsafe.
  - apply noDoubleUnderscore_take, noDouble_collapse.
  - apply length_substring_le.
Qed.

Lemma length_replaceUnsafe s : String.length (replaceUnsafe s) = String.length s.
Proof. induction s as [|c t IH]; simpl; [reflexivity|]. rewrite IH. reflexivity. Qed.

Lemma length_collapse s :
  (String.length (collapseUnderscores s) <= String.length s)%nat.
Proof.
  induction s as [|c t IH]; [reflexivity|].
  simpl. destruct (Ascii.eqb c "_").
  - destruct t as [|c' t']; [simpl; lia|].
    destruct (Ascii.eqb c' "_"); [lia|].
    change (S (String.length (collapseUnderscores (String c' t')))
            <= S (String.length (String c' t')))%nat. lia.
  - change (S (String.length (collapseUnderscores t)) <= S (String.length t))%nat. lia.
Qed.

Lemma length_take_le n s : (String.length (take n s) <= String.length s)%nat.
Proof.
  unfold take. revert n. induction s as [|c t IH]; intros [|n]; simpl; try lia.
  specialize (IH n). lia.
Qed.

(** X1: whatever the input, the sanitised file name consists of letters,
    digits, dots, underscores and hyphens only, has no two underscores in a
    row, is at most 200 characters long and never longer than the input. *)
Theorem sanitizeFilename_normal_form (filename : string) :
  let r := sanitizeFilename filename in
  allChars is_safe r = true /\ noDoubleUnderscore r = true
  /\ (String.length r <= 200)%nat /\ (String.length r <= String.length filename)%nat.
Proof.
  intros r. subst r. unfold sanitizeFilename. split; [|split; [|split]].
  - apply allChars_substring, allChars_collapse, allChars_replaceUnsafe.
  - apply noDoubleUnderscore_take, noDouble_collapse.
  - apply length_substring_le.
  - etrans; [apply length_take_le|]. etrans; [apply length_collapse|].
    rewrite length_replaceUnsafe. reflexivity.
Qed.

(** X2: sanitising a sanitised file name changes nothing. *)
Theorem sanitizeFilename_idempotent (filename : string) :
  sanitizeFilename (sanitizeFilename filename) = sanitizeFilename filename.
Proof.
  destruct (sanitizeFilename_props filename) as (H1 & H2 & H3).
  apply sanitizeFilename_fixed; assumption.
Qed.

Lemma allChars_app P a b : allChars P (a +:+ b) = allChars P a && allChars P b.
Proof. induction a as [|c t IH]; simpl; [reflexivity|]. rewrite IH, andb_assoc. reflexivity. Qed.


Lemma escapeChar_no_markup c : allChars (fun c => negb (rawMarkup c)) (escapeChar c) = true.
Proof.
  unfold escapeChar.
  destruct (Ascii.eqb c "&") eqn:H1; [reflexivity|].
  destruct (Ascii.eqb c "<") eqn:H2; [reflexivity|].
  destruct (Ascii.eqb c ">") eqn:H3; [reflexivity|].
  destruct (Ascii.eqb c quoteChar) eqn:H4; [reflexivity|].
  destruct (Ascii.eqb c "'") eqn:H5; [reflexivity|].
  simpl. unfold rawMarkup. rewrite H2, H3, H4, H5. reflexivity.
Qed.

(** X3: escaped text contains no angle bracket and no quote of either kind. *)
Theorem escapeHtml_no_markup (text : option string) :
  allChars (fun c => negb (rawMarkup c)) (escapeHtml text) = true.
Proof.
  destruct text as [t|]; [|reflexivity]. simpl.
  induction t as [|c t IH]; [reflexivity|].
  simpl. rewrite allChars_app, escapeChar_no_markup, IH. reflexivity.
Qed.

Lemma unescapeHtml_other c s :
  Ascii.eqb c "&" = false -> unescapeHtml (String c s) = String c (unescapeHtml s).
Proof. intros H. simpl. rewrite H. reflexivity. Qed.

(** X4: reading the five entities back gives the text that was escaped, so
    two different texts never escape to the same string. *)
Theorem escapeHtml_decodes (text : string) :
  unescapeHtml (escapeHtml (Some text)) = text.
Proof.
  simpl. induction text as [|c t IH]; [reflexivity|].
  cbn [escapeChars]. unfold escapeChar.
  destruct (Ascii.eqb c "&") eqn:H1;
    [|destruct (Ascii.eqb c "<") eqn:H2;
      [|destruct (Ascii.eqb c ">") eqn:H3;
        [|destruct (Ascii.eqb c quoteChar) eqn:H4;
          [|destruct (Ascii.eqb c "'") eqn:H5]]]].
  1-5: match goal with H : Ascii.eqb ?x _ = true |- _ =>
         apply Ascii.eqb_eq in H; subst x end;
       (etrans; [|apply (f_equal (String _)), IH]); reflexivity.
  change (String c "" +:+ escapeChars t) with (String c (escapeChars t)).
  rewrite unescapeHtml_other, IH by exact H1. reflexivity.
Qed.

End TextFacts.

(** ** Durations *)

Module DurationFacts.
Import VideoService Duration Spec.

(** X7: a positive whole number of seconds, up to the largest one that
    JavaScript numbers hold exactly, is rendered from its hours, minutes
    below 60 and seconds below 60, which add up to it; a component that is
    zero is left out and at least one component is shown. *)
Theorem formatDuration_components (seconds : Z) :
  0 < seconds <= MAX_SAFE_INTEGER ->
  exists h m s,
    seconds = h * 3600 + m * 60 + s /\ 0 <= h /\ 0 <= m < 60 /\ 0 <= s < 60
    /\ formatDuration seconds
       = String.concat " "
           (List.map render (List.filter shown [(h, "h"); (m, "m"); (s, "s")]))
    /\ List.filter shown [(h, "h"); (m, "m"); (s, "s")] <> [].
Proof.
  intros [Hpos _].
  exists (seconds / 3600), ((seconds mod 3600) / 60), (seconds mod 60).
  assert (Harith : seconds = seconds / 3600 * 3600 + (seconds mod 3600) / 60 * 60
                             + seconds mod 60
                   /\ 0 <= seconds / 3600
                   /\ 0 <= (seconds mod 3600) / 60 < 60
                   /\ 0 <= seconds mod 60 < 60).
  { Z.to_euclidean_division_equations. lia. }
  destruct Harith as (Hsum & Hh & Hm & Hs).
  split; [exact Hsum|]. split; [exact Hh|]. split; [exact Hm|]. split; [exact Hs|].
  unfold formatDuration, shown. cbn [List.filter fst].
  destruct (Z.eqb_spec seconds 0) as [->|_]; [lia|].
  destruct (Z.ltb_spec seconds 0) as [Hneg|_]; [lia|]. cbn [orb].
  rewrite !Z.gtb_ltb.
  destruct (Z.ltb_spec 0 (seconds / 3600)) as [H1|H1];
    destruct (Z.ltb_spec 0 (seconds mod 3600 / 60)) as [H2|H2];
    destruct (Z.ltb_spec 0 (seconds mod 60)) as [H3|H3];
    cbn; try (split; [reflexivity|discriminate]).
  exfalso. lia.
Qed.

Lemma formatDuration_components_witness :
  0 < 3725 <= MAX_SAFE_INTEGER
  /\ exists h m s,
      3725 = h * 3600 + m * 60 + s /\ 0 <= h /\ 0 <= m < 60 /\ 0 <= s < 60
      /\ formatDuration 3725
         = String.concat " "
             (List.map render (List.filter shown [(h, "h"); (m, "m"); (s, "s")]))
      /\ List.filter shown [(h, "h"); (m, "m"); (s, "s")] <> [].
Proof.
  split; [unfold MAX_SAFE_INTEGER; lia|].
  apply (formatDuration_components 3725). unfold MAX_SAFE_INTEGER. lia.
Defined.

End DurationFacts.

(** ** The services, one by one *)

Module ServiceFacts.
Import Js JsString Model Helpers Persistence EmailService TokenService VideoService
  YouTubeService UploadJob Spec WorldFacts.

(** A fetched video is reported under its title. *)
Lemma fetched_title (r : NextReply) (v : VideoData) :
  nextOutcome r = Ok (Some v) -> titleOrUnknown (Some v) = title v.
Proof.
  unfold nextOutcome, getNextVideo, tryCatch, throw, ret. cbn [fst].
  destruct r as [[|] [d|]|e]; cbn; try discriminate.
  - unfold missing. destruct (String.eqb (id d) ""); [cbn; discriminate|].
    destruct (String.eqb (title d) "") eqn:H2; [cbn; discriminate|].
    destruct (_ || _); [discriminate|]. intros [= ->]. rewrite H2. reflexivity.
  - destruct (bool_decide _); [discriminate|]. destruct (bool_decide _); discriminate.
Qed.

(** X8: a descriptor returned by the fetch was sent with the success flag
    and has an id, a title, a file name and a download address, none of them
    empty; so a run that fetched a video reports it under its title, never
    as Unknown. *)
Theorem getNextVideo_descriptor (r : NextReply) (v : VideoData) :
  nextOutcome r = Ok (Some v) ->
  r = NextResponse true (Some v)
  /\ id v <> "" /\ title v <> "" /\ filename v <> "" /\ downloadUrl v <> ""
  /\ titleOrUnknown (Some v) = title v.
Proof.
  unfold nextOutcome, getNextVideo, tryCatch, throw, ret. cbn [fst].
  destruct r as [[|] [d|]|e]; cbn; try discriminate.
  - unfold missing.
    destruct (String.eqb (id d) "") eqn:H1; [cbn; discriminate|].
    destruct (String.eqb (title d) "") eqn:H2; [cbn; discriminate|].
    destruct (String.eqb (filename d) "") eqn:H3; [cbn; discriminate|].
    destruct (String.eqb (downloadUrl d) "") eqn:H4; [cbn; discriminate|].
    cbn. intros [= ->]. rewrite H2.
    apply String.eqb_neq in H1, H2, H3, H4. repeat split; assumption.
  - destruct (bool_decide _); [discriminate|]. destruct (bool_decide _); discriminate.
Qed.

Lemma getNextVideo_descriptor_witness :
  nextOutcome (NextResponse true (Some Samples.clip)) = Ok (Some Samples.clip)
  /\ titleOrUnknown (Some Samples.clip) = title Samples.clip.
Proof.
  split; [reflexivity|].
  apply (getNextVideo_descriptor (NextResponse true (Some Samples.clip)) Samples.clip).
  reflexivity.
Defined.

(** X9: the fetch reports that nothing is available, rather than failing,
    exactly when the request fails with status 404 or the response comes
    without the success flag or without data. *)
Theorem getNextVideo_none (r : NextReply) :
  nextOutcome r = Ok None <->
  match r with
  | NextError e => responseStatus e = Some 404
  | NextResponse success data => success = false \/ data = None
  end.
Proof.
  unfold nextOutcome, getNextVideo, tryCatch, throw, ret. cbn [fst].
  destruct r as [[|] [d|]|e]; cbn.
  - destruct (missing (id d) || missing (title d) || missing (filename d)
              || missing (downloadUrl d)); cbn;
      (split; [discriminate|intros [H|H]; discriminate]).
  - split; auto.
  - split; auto.
  - split; auto.
  - destruct (bool_decide (responseStatus e = Some 404)) eqn:H.
    + apply bool_decide_eq_true in H. split; auto.
    + apply bool_decide_eq_false in H.
      destruct (bool_decide _); (split; [discriminate|contradiction]).
Qed.

(** X10: the file check changes nothing; it returns true exactly when the
    file is there with at least 1024 bytes, and it never returns false: every
    other file makes it throw. *)
Theorem validateVideoFile_accepts (p : string) (w : World) :
  exists r,
    validateVideoFile p w = (r, w)
    /\ (r = Ok true <-> exists size, files w !! p = Some size /\ (1024 <= size)%N)
    /\ (forall ok, r = Ok ok -> ok = true).
Proof.
  unfold validateVideoFile. unfold_js.
  destruct (files w !! p) as [size|] eqn:Hp; cbn.
  - destruct (size =? 0)%N eqn:H0; cbn.
    + apply N.eqb_eq in H0. eexists. split; [reflexivity|]. split.
      * split; [discriminate|]. intros (s & [= <-] & Hs). lia.
      * discriminate.
    + destruct (size <? 1024)%N eqn:H1; cbn.
      * apply N.ltb_lt in H1. eexists. split; [reflexivity|]. split.
        -- split; [discriminate|]. intros (s & [= <-] & Hs). lia.
        -- discriminate.
      * apply N.ltb_ge in H1. eexists. split; [reflexivity|]. split.
        -- split; [eauto|reflexivity].
        -- intros ok [= <-]. reflexivity.
  - eexists. split; [reflexivity|]. split.
    + split; [discriminate|]. intros (s & Hs & _). discriminate.
    + discriminate.
Qed.


End ServiceFacts.

(** ** The notification senders *)

Module MailFacts.
Import Js JsString Model Helpers Persistence EmailService Spec WorldFacts.

Lemma waits_app tr tr' : waits (tr ++ tr') = waits tr ++ waits tr'.
Proof. unfold waits. apply flat_map_app. Qed.

Lemma backoff_cons base i k :
  backoff base i (S k) = base * 2 ^ Z.of_nat i :: backoff base (S i) k.
Proof. reflexivity. Qed.

(** The retry loop around [sendMail], attempt by attempt. *)
Lemma retry_sendMail_waits m n b fuel : forall i le w,
  (i + fuel = n)%nat ->
  exists r w' extra k,
    retryLoop sleep (sendMail m) n b fuel i le w = (r, w')
    /\ users w' = users w /\ uploadLogs w' = uploadLogs w /\ files w' = files w
    /\ clock w' = clock w
    /\ trace w' = trace w ++ extra
    /\ match r with
       | Ok _ => (k < fuel)%nat
                 /\ mailAttempts extra = repeat (m, false) k ++ [(m, true)]
                 /\ waits extra = backoff b i k
       | Throw _ => k = fuel
                    /\ mailAttempts extra = repeat (m, false) k
                    /\ waits extra = backoff b i (k - 1)
       end.
Proof.
  induction fuel as [|fuel IH]; intros i le w Hn.
  - exists (Throw (default undefinedValue le)), w, [], 0%nat. cbn.
    rewrite app_nil_r. repeat split.
  - cbn [retryLoop]. unfold tryCatch at 1. unfold sendMail at 1.
    destruct (smtp w) as [|[e|] q] eqn:Hq.
    + exists (Ok tt), (emit (EvSendMail m true) w), [EvSendMail m true], 0%nat.
      repeat split. lia.
    + set (w1 := emit (EvSendMail m false) (withSmtp q w)).
      unfold bind at 1.
      destruct fuel as [|fuel].
      * assert (Hlt : (Z.of_nat i <? Z.of_nat n - 1)%Z = false) by (apply Z.ltb_ge; lia).
        rewrite Hlt. cbn.
        exists (Throw e), w1, [EvSendMail m false], 1%nat. repeat split.
      * assert (Hlt : (Z.of_nat i <? Z.of_nat n - 1)%Z = true) by (apply Z.ltb_lt; lia).
        rewrite Hlt. unfold modify at 1.
        destruct (IH (S i) (Some e) (sleep (b * 2 ^ Z.of_nat i) w1) ltac:(lia))
          as (r & w' & extra & k & Hrun & Hu & Hl & Hf & Hc & Ht & Hcase).
        exists r, w', (EvSendMail m false :: EvSleep (b * 2 ^ Z.of_nat i) :: extra), (S k).
        split; [exact Hrun|].
        split; [rewrite Hu; reflexivity|]. split; [rewrite Hl; reflexivity|].
        split; [rewrite Hf; reflexivity|]. split; [rewrite Hc; reflexivity|].
        split.
        { rewrite Ht. cbn. rewrite <- !app_assoc. reflexivity. }
        change (EvSendMail m false :: EvSleep (b * 2 ^ Z.of_nat i) :: extra)
          with ([EvSendMail m false; EvSleep (b * 2 ^ Z.of_nat i)] ++ extra).
        rewrite mailAttempts_app, waits_app.
        destruct r as [[]|err]; destruct Hcase as (Hk & Hm & Hw);
          (split; [lia|]); rewrite Hm, Hw; (split; [reflexivity|]).
        -- reflexivity.
        -- subst k. cbn [Nat.sub]. rewrite Nat.sub_0_r. reflexivity.
    + exists (Ok tt), (emit (EvSendMail m true) (withSmtp q w)), [EvSendMail m true], 0%nat.
      repeat split. lia.
Qed.

Lemma retried_delivery m n b w :
  delivery n b m
    (tryCatch (bind (retryWithBackoff sleep (sendMail m) n b) (fun _ => ret true))
       (fun _ => ret false)) w.
Proof.
  unfold delivery, retryWithBackoff.
  destruct (retry_sendMail_waits m n b n 0%nat None w eq_refl)
    as (r & w' & extra & k & Hrun & Hu & Hl & Hf & Hc & Ht & Hcase).
  unfold tryCatch, bind, ret. rewrite Hrun.
  destruct r as [[]|e].
  - destruct Hcase as (Hk & Hm & Hw).
    exists true, w', extra, k. repeat split; assumption.
  - destruct Hcase as (Hk & Hm & Hw).
    exists false, w', extra, k. rewrite app_nil_r. repeat split; assumption.
Qed.

(** X12: none of the three senders throws. The report and the error
    notice go to the report address with at most 3 attempts and waits of
    1000 and 2000 ms between them, the re-authentication notice to the
    Account's address with at most 2 attempts and a wait of 500 ms; each stops
    at the first acceptance, returns whether the message was accepted, and
    touches nothing but the mail queue and the trace. *)
Theorem senders_deliver_or_give_up (config : Config) (results : Results)
    (userEmail videoTitle errorMessage channelTitle : string) (w : World) :
  delivery 3 1000 (mkMail (reportEmail config) (ReportBody results))
    (sendUploadReport config results) w
  /\ delivery 3 1000
       (mkMail (reportEmail config) (ErrorBody userEmail videoTitle errorMessage))
       (sendErrorNotification config userEmail videoTitle errorMessage) w
  /\ delivery 2 500 (mkMail userEmail (ReAuthBody channelTitle))
       (sendReAuthenticationRequired userEmail channelTitle) w.
Proof. repeat split; apply retried_delivery. Qed.

End MailFacts.

(** ** What the publish step may touch, and what it throws *)

Module FrameFacts.
Import Js JsString Model Helpers Persistence EmailService TokenService VideoService
  YouTubeService UploadJob Spec WorldFacts PublishFacts.

Lemma onlyAt_refl `{Countable K} {V} (k : K) (m : gmap K V) : onlyAt k m m.
Proof. intros k' _. reflexivity. Qed.

Lemma onlyAt_alter `{Countable K} {V} (k : K) f (m : gmap K V) : onlyAt k m (alter f k m).
Proof. intros k' Hk. apply lookup_alter_ne. congruence. Qed.


Lemma onlyAt_delete `{Countable K} {V} (k : K) (m : gmap K V) : onlyAt k m (delete k m).
Proof. intros k' Hk. apply lookup_delete_ne. congruence. Qed.

Lemma onlyAt_trans `{Countable K} {V} (k : K) (m1 m2 m3 : gmap K V) :
  onlyAt k m1 m2 -> onlyAt k m2 m3 -> onlyAt k m1 m3.
Proof. intros H1 H2 k' Hk. rewrite H2, H1 by exact Hk. reflexivity. Qed.

Lemma onlyAt_eq `{Countable K} {V} (k : K) (m m' : gmap K V) : m' = m -> onlyAt k m m'.
Proof. intros ->. apply onlyAt_refl. Qed.

Lemma published_app tr tr' : published (tr ++ tr') = published tr ++ published tr'.
Proof. unfold published. apply flat_map_app. Qed.

(** getValidTokens touches one Account and calls nothing but the exchange. *)
Lemma getValidTokens_local sc userId w r w' :
  getValidTokens sc userId w = (r, w') ->
  onlyAt userId (users w) (users w')
  /\ exists extra, trace w' = trace w ++ extra /\ published extra = [].
Proof.
  unfold getValidTokens, findById, refreshTokenIfNeeded. unfold_js.
  assert (Hnil : forall w0 : World, exists extra,
             trace w0 = trace w0 ++ extra /\ published extra = []).
  { intros w0. exists []. rewrite app_nil_r. split; reflexivity. }
  destruct (findReply sc); cbn.
  { intros [= <- <-]. split; [apply onlyAt_refl|apply Hnil]. }
  destruct (users w !! userId) as [u|] eqn:Hu; cbn.
  2:{ intros [= <- <-]. split; [apply onlyAt_refl|apply Hnil]. }
  destruct (hasRefreshToken u); cbn.
  2:{ intros [= <- <-]. split; [apply onlyAt_refl|apply Hnil]. }
  destruct (tokens u) as [tk|]; cbn.
  2:{ destruct (deactivateSave sc); cbn; intros [= <- <-]; cbn;
        (split; [first [apply onlyAt_refl|apply onlyAt_alter]|apply Hnil]). }
  destruct (isExpiring (expiry_date tk) (clock w)); cbn.
  2:{ intros [= <- <-]. split; [apply onlyAt_refl|apply Hnil]. }
  destruct (refreshReply sc) as [c|e]; cbn.
  - destruct (refreshSave sc); cbn.
    + destruct (deactivateSave sc); cbn; intros [= <- <-]; cbn;
        (split; [first [apply onlyAt_refl|apply onlyAt_alter]|]);
        exists [EvRefresh (refresh_token tk)]; split; reflexivity.
    + intros [= <- <-]; cbn. split; [apply onlyAt_alter|].
      exists [EvRefresh (refresh_token tk)]; split; reflexivity.
  - destruct (deactivateSave sc); cbn; intros [= <- <-]; cbn;
      (split; [first [apply onlyAt_refl|apply onlyAt_alter]|]);
      exists [EvRefresh (refresh_token tk)]; split; reflexivity.
Qed.

(** uploadVideo: its Account only, and at most one publish call, made
    after the file was found within the size limit. *)
Lemma uploadVideo_local config sc user video path w r w' :
  uploadVideo config sc user video path w = (r, w') ->
  onlyAt (_id user) (users w) (users w')
  /\ exists extra,
      trace w' = trace w ++ extra
      /\ (published extra = []
          \/ published extra = [videoMetadata config video]
             /\ exists size, files w !! path = Some size
                             /\ Z.of_N size <= MAX_YOUTUBE_FILE_SIZE).
Proof.
  unfold uploadVideo. unfold tryCatch at 1. unfold bind at 1. unfold get at 1.
  destruct (files w !! path) as [size|] eqn:Hfile; cbn.
  2:{ intros [= <- <-]. split; [apply onlyAt_refl|].
      exists []. rewrite app_nil_r. split; [reflexivity|left; reflexivity]. }
  destruct (Z.of_N size >? MAX_YOUTUBE_FILE_SIZE)%Z eqn:Hbig; cbn.
  { intros [= <- <-]. split; [apply onlyAt_refl|].
    exists []. rewrite app_nil_r. split; [reflexivity|left; reflexivity]. }
  assert (Hsize : Z.of_N size <= MAX_YOUTUBE_FILE_SIZE).
  { destruct (Z.gtb_spec (Z.of_N size) MAX_YOUTUBE_FILE_SIZE); [discriminate|assumption]. }
  unfold bind at 1. unfold tryCatch at 1.
  destruct (getValidTokens (tokenScript sc) (_id user) w) as [[tk|e] w1] eqn:Htok;
    destruct (getValidTokens_local _ _ _ _ _ Htok) as (Hu & extra & Ht & Hp); cbn.
  - destruct (insertReply sc); cbn; intros [= <- <-]; cbn;
      (split; [exact Hu|]);
      exists (extra ++ [EvInsert (tk ≫= access_token) (videoMetadata config video)]);
      rewrite Ht, <- app_assoc, published_app, Hp;
      (split; [reflexivity|]); right; (split; [reflexivity|]); eauto.
  - intros [= <- <-]. split; [exact Hu|]. exists extra. split; [exact Ht|left; exact Hp].
Qed.

Lemma classify_cases error :
  code (classify error) = None /\ responseStatus (classify error) = None
  /\ (message (classify error) = quotaMessage
      \/ message (classify error) = authFailedMessage
      \/ message (classify error) = fileGoneMessage
      \/ message (classify error) = "Upload failed: " +:+ message error).
Proof.
  unfold classify.
  destruct (_ || _); [cbn; auto|].
  destruct (_ || _); [cbn; auto|].
  destruct (_ || _); cbn; auto 6.
Qed.

Lemma tryCatch_throw_inv {S A} (m : M S A) (f : Error -> Error) s e s' :
  tryCatch m (fun error => throw (f error)) s = (Throw e, s') ->
  exists e0, m s = (Throw e0, s') /\ e = f e0.
Proof.
  unfold tryCatch, throw. destruct (m s) as [[a|e0] s1]; [discriminate|].
  intros [= <- <-]. eauto.
Qed.

(** X15: whatever goes wrong in the publish step, the error it throws
    carries no code and no response, and its message is one of the three
    fixed texts (quota, authentication, file gone) or starts with
    "Upload failed: ". *)
Theorem uploadVideo_error_messages config sc user video path w e w' :
  uploadVideo config sc user video path w = (Throw e, w') ->
  code e = None /\ responseStatus e = None
  /\ (message e = quotaMessage \/ message e = authFailedMessage
      \/ message e = fileGoneMessage
      \/ exists m, message e = "Upload failed: " +:+ m).
Proof.
  unfold uploadVideo. intros H. apply tryCatch_throw_inv in H as (e0 & _ & ->).
  destruct (classify_cases e0) as (Hc & Hr & [H|[H|[H|H]]]); repeat split; eauto 6.
Qed.

Lemma uploadVideo_error_messages_witness :
  uploadVideo Samples.sampleConfig (UploadJob.upload Samples.quotaRun) Samples.aliceDoc
    Samples.clip "downloads/none" Samples.world0
  = (Throw (newError fileGoneMessage), Samples.world0)
  /\ (message (newError fileGoneMessage) = quotaMessage
      \/ message (newError fileGoneMessage) = authFailedMessage
      \/ message (newError fileGoneMessage) = fileGoneMessage
      \/ exists m, message (newError fileGoneMessage) = "Upload failed: " +:+ m).
Proof.
  split; [vm_compute; reflexivity|].
  apply (uploadVideo_error_messages Samples.sampleConfig (UploadJob.upload Samples.quotaRun)
           Samples.aliceDoc Samples.clip "downloads/none" Samples.world0
           (newError fileGoneMessage) Samples.world0).
  vm_compute. reflexivity.
Defined.

(** X16: when the file is not there at publish time, the publish step
    throws "Video file was deleted before upload completed" and calls and
    writes nothing: no Account is read, no token is refreshed, nothing is
    published. *)
Theorem uploadVideo_file_missing config sc user video path w :
  files w !! path = None ->
  uploadVideo config sc user video path w = (Throw (newError fileGoneMessage), w).
Proof.
  intros Hfile. unfold uploadVideo. unfold_js. rewrite Hfile. reflexivity.
Qed.

Lemma uploadVideo_file_missing_witness :
  files Samples.world0 !! "downloads/none" = None
  /\ uploadVideo Samples.sampleConfig (UploadJob.upload Samples.okRun) Samples.aliceDoc
       Samples.clip "downloads/none" Samples.world0
     = (Throw (newError fileGoneMessage), Samples.world0).
Proof.
  split; [reflexivity|].
  apply (uploadVideo_file_missing Samples.sampleConfig (UploadJob.upload Samples.okRun)
           Samples.aliceDoc Samples.clip "downloads/none" Samples.world0).
  reflexivity.
Defined.

End FrameFacts.

(** ** The credential manager *)

Module CredentialFacts.
Import Js JsString Model Helpers Persistence EmailService TokenService VideoService
  YouTubeService UploadJob Spec WorldFacts PublishFacts FrameFacts.

(** What a refresh on a freshly loaded document leaves in the store. *)
Lemma refresh_store sc uid stored w r d' w' :
  refreshTokenIfNeeded sc (mkUserDoc uid stored [], w) = (r, (d', w')) ->
  uploadLogs w' = uploadLogs w /\ files w' = files w /\ clock w' = clock w
  /\ smtp w' = smtp w
  /\ (users w' = users w
      \/ exists tk c,
           tokens stored = Some tk /\ refreshReply sc = inl c /\ refreshSave sc = None
           /\ r = Ok (Some (mkTokens (newAccessToken c) (refresh_token tk) (scope tk)
                              (token_type tk) (newExpiryDate c)))
           /\ users w'
              = alter (writePaths [PathLastTokenRefresh; PathTokens]
                         (withLastTokenRefresh (clock w)
                            (withTokens
                               (Some (mkTokens (newAccessToken c) (refresh_token tk) (scope tk)
                                        (token_type tk) (newExpiryDate c))) stored)))
                  uid (users w)).
Proof.
  unfold refreshTokenIfNeeded, saveUser. unfold_js. cbn.
  destruct (tokens stored) as [tk|] eqn:Htk; cbn.
  2:{ intros [= <- <- <-]. repeat split. left. reflexivity. }
  destruct (isExpiring (expiry_date tk) (clock w)); cbn.
  2:{ intros [= <- <- <-]. repeat split. left. reflexivity. }
  destruct (refreshReply sc) as [c|e] eqn:Hc; cbn.
  - destruct (refreshSave sc) eqn:Hs; cbn; intros [= <- <- <-]; cbn; repeat split.
    + left. reflexivity.
    + right. exists tk, c. repeat split.
  - intros [= <- <- <-]. repeat split. left. reflexivity.
Qed.

Lemma refresh_write_isActive (us : gmap N User) uid src k :
  isActive <$> alter (writePaths [PathLastTokenRefresh; PathTokens] src) uid us !! k
  = isActive <$> us !! k.
Proof.
  rewrite lookup_alter. destruct (decide (uid = k)) as [->|_]; [|reflexivity].
  destruct (us !! k); reflexivity.
Qed.

(** X13: the token probe never throws and never deactivates: whatever the
    replies, it returns a boolean, leaves every activation flag, every
    Transfer Record and every file as they were, and writes to no Account
    but the one probed; it returns true only for a stored Account with a
    refresh token. *)
Theorem validateUserTokens_probe (sc : TokenScript) (userId : N) (w : World) :
  exists ok w',
    validateUserTokens sc userId w = (Ok ok, w')
    /\ (forall k, isActive <$> users w' !! k = isActive <$> users w !! k)
    /\ onlyAt userId (users w) (users w')
    /\ uploadLogs w' = uploadLogs w /\ files w' = files w /\ smtp w' = smtp w
    /\ (ok = true -> exists u, users w !! userId = Some u /\ hasRefreshToken u = true).
Proof.
  unfold validateUserTokens, findById.
  unfold tryCatch at 1. unfold bind at 1. unfold bind at 1.
  destruct (findReply sc) as [e|]; cbn.
  { exists false, w. repeat split; try discriminate; try apply onlyAt_refl. }
  destruct (users w !! userId) as [u|] eqn:Hu; cbn.
  2:{ exists false, w. repeat split; try discriminate; try apply onlyAt_refl. }
  destruct (hasRefreshToken u) eqn:Hhas; cbn.
  2:{ exists false, w. repeat split; try discriminate; try apply onlyAt_refl. }
  unfold bind, withLocals, ret.
  destruct (refreshTokenIfNeeded sc (mkUserDoc userId u [], w)) as [r [d' w']] eqn:Hrun.
  destruct (refresh_store _ _ _ _ _ _ _ Hrun) as (Hl & Hf & _ & Hq & Hus).
  assert (Hact : forall k, isActive <$> users w' !! k = isActive <$> users w !! k).
  { intros k. destruct Hus as [->|(tk & c & _ & _ & _ & _ & ->)]; [reflexivity|].
    apply refresh_write_isActive. }
  assert (Honly : onlyAt userId (users w) (users w')).
  { destruct Hus as [->|(tk & c & _ & _ & _ & _ & ->)];
      [apply onlyAt_refl|apply onlyAt_alter]. }
  destruct r as [tk|e].
  - exists true, w'. repeat split; try assumption. intros _. eauto.
  - exists false, w'. repeat split; try assumption. discriminate.
Qed.

(** X14: when the bundle is expiring and the exchange and the write both
    succeed, the caller gets the new access token and expiry together with
    the old refresh token, scope and token type; the same bundle and the
    refresh time are stored on the Account, whose other fields, like every
    other Account, stay as they were; one exchange is made. *)
Theorem getValidTokens_refresh_persisted sc userId w u tk c :
  findReply sc = None ->
  users w !! userId = Some u ->
  hasRefreshToken u = true ->
  tokens u = Some tk ->
  isExpiring (expiry_date tk) (clock w) = true ->
  refreshReply sc = inl c ->
  refreshSave sc = None ->
  let tk' := mkTokens (newAccessToken c) (refresh_token tk) (scope tk) (token_type tk)
               (newExpiryDate c) in
  exists w',
    getValidTokens sc userId w = (Ok (Some tk'), w')
    /\ users w' !! userId
       = Some (withLastTokenRefresh (clock w) (withTokens (Some tk') u))
    /\ onlyAt userId (users w) (users w')
    /\ trace w' = trace w ++ [EvRefresh (refresh_token tk)]
    /\ uploadLogs w' = uploadLogs w /\ files w' = files w /\ clock w' = clock w.
Proof.
  intros Hfind Hu Hhas Htk Hexp Hc Hs tk'.
  unfold getValidTokens, findById. unfold_js. rewrite Hfind. cbn. rewrite Hu. cbn.
  rewrite Hhas. cbn.
  unfold refreshTokenIfNeeded, saveUser. unfold_js. cbn.
  rewrite Htk. cbn. rewrite Hexp. cbn. rewrite Hc. cbn. rewrite Hs. cbn.
  eexists. split; [reflexivity|]. cbn. split.
  - rewrite lookup_alter_eq, Hu. reflexivity.
  - split; [apply onlyAt_alter|]. repeat split.
Qed.

Lemma getValidTokens_refresh_persisted_witness :
  isExpiring (expiry_date Samples.bundle) (clock Samples.world0) = true
  /\ exists w',
      getValidTokens Samples.refreshOk 1 Samples.world0
      = (Ok (Some (mkTokens (Some "access-2") (Some "refresh-1") None (Some "Bearer")
                     (Some 3605000))), w')
      /\ users w' !! 1%N
         = Some (withLastTokenRefresh 5000
                   (withTokens
                      (Some (mkTokens (Some "access-2") (Some "refresh-1") None
                               (Some "Bearer") (Some 3605000))) Samples.alice)).
Proof.
  split; [reflexivity|].
  destruct (getValidTokens_refresh_persisted Samples.refreshOk 1 Samples.world0
              Samples.alice Samples.bundle
              (mkCredentials (Some "access-2") (Some 3605000))
              eq_refl eq_refl eq_refl eq_refl eq_refl eq_refl eq_refl)
    as (w' & Hrun & Hstored & _).
  exists w'. split; [exact Hrun|exact Hstored].
Defined.

End CredentialFacts.

(** ** The request sent to the publish interface *)

Module MetadataFacts.
Import Js JsString Model YouTubeMeta Helpers TokenService YouTubeService Spec.
Import TextFacts FrameFacts.

(** The request body built by [uploadVideo]. *)
Lemma videoMetadata_props config video :
  let meta := videoMetadata config video in
  allChars (fun c => negb (is_control c)) (metaTitle meta) = true
  /\ (String.length (metaTitle meta)
      <= if includes (String "010" "") (title video) then 5000 else 100)%nat
  /\ allChars (fun c => negb (is_control c)) (metaDescription meta) = true
  /\ (String.length (metaDescription meta) <= 5000)%nat
  /\ (length (metaTags meta) <= 30)%nat
  /\ In (privacyStatus meta) ["public"; "private"; "unlisted"]
  /\ categoryId meta = youtubeCategory config.
Proof.
  cbn zeta. unfold videoMetadata. cbn [metaTitle metaDescription metaTags privacyStatus categoryId].
  destruct (sanitizeMetadata_props (Some (title video))) as (Ht1 & Ht2).
  split; [exact Ht1|]. split; [exact Ht2|].
  match goal with
  | |- context [sanitizeMetadata (Some ?d)] =>
      destruct (sanitizeMetadata_props (Some d)) as (Hd1 & Hd2)
  end.
  split; [exact Hd1|]. split.
  { etrans; [exact Hd2|]. cbv beta iota.
    match goal with |- context [if ?b then _ else _] => destruct b end; lia. }
  split.
  { rewrite TagsFacts.validateAndFormatTags_eq. apply firstn_le_length. }
  split; [apply validatePrivacyStatus_In|reflexivity].
Qed.

(** X17: the publish step calls the publish interface at most once, and
    only for a file that is there and within the 256 GB limit; the request it
    sends has a title and a description without control characters, the
    title at most 100 characters long (5000 when the raw title has a line
    feed), the description at most 5000, at most 30 tags, and a privacy
    status among public, private and unlisted. *)
Theorem uploadVideo_publishes_sanitised config sc user video path w r w' :
  uploadVideo config sc user video path w = (r, w') ->
  exists extra,
    trace w' = trace w ++ extra
    /\ (length (published extra) <= 1)%nat
    /\ forall meta, In meta (published extra) ->
         (exists size, files w !! path = Some size
                       /\ Z.of_N size <= MAX_YOUTUBE_FILE_SIZE)
         /\ allChars (fun c => negb (is_control c)) (metaTitle meta) = true
         /\ (String.length (metaTitle meta)
             <= if includes (String "010" "") (title video) then 5000 else 100)%nat
         /\ allChars (fun c => negb (is_control c)) (metaDescription meta) = true
         /\ (String.length (metaDescription meta) <= 5000)%nat
         /\ (length (metaTags meta) <= 30)%nat
         /\ In (privacyStatus meta) ["public"; "private"; "unlisted"].
Proof.
  intros Hup. destruct (uploadVideo_local _ _ _ _ _ _ _ _ Hup) as (_ & extra & Ht & Hp).
  exists extra. split; [exact Ht|].
  destruct Hp as [-> |[-> Hfile]]; cbn [length]; (split; [lia|]).
  - intros meta [].
  - intros meta [<-|[]]. split; [exact Hfile|].
    destruct (videoMetadata_props config video) as (H1 & H2 & H3 & H4 & H5 & H6 & _).
    repeat split; assumption.
Qed.

Lemma uploadVideo_publishes_sanitised_witness :
  let w := snd (VideoService.downloadVideo Samples.downloadOk Samples.clip Samples.world0) in
  let out := uploadVideo Samples.sampleConfig (UploadJob.upload Samples.okRun)
               Samples.aliceDoc Samples.clip "downloads/v1_clip.mp4" w in
  exists extra,
    trace (snd out) = trace w ++ extra
    /\ (length (published extra) <= 1)%nat
    /\ forall meta, In meta (published extra) ->
         (exists size, files w !! "downloads/v1_clip.mp4" = Some size
                       /\ Z.of_N size <= MAX_YOUTUBE_FILE_SIZE)
         /\ allChars (fun c => negb (is_control c)) (metaTitle meta) = true
         /\ (String.length (metaTitle meta)
             <= if includes (String "010" "") (title Samples.clip) then 5000 else 100)%nat
         /\ allChars (fun c => negb (is_control c)) (metaDescription meta) = true
         /\ (String.length (metaDescription meta) <= 5000)%nat
         /\ (length (metaTags meta) <= 30)%nat
         /\ In (privacyStatus meta) ["public"; "private"; "unlisted"].
Proof.
  cbn zeta.
  apply (uploadVideo_publishes_sanitised Samples.sampleConfig
           (UploadJob.upload Samples.okRun) Samples.aliceDoc Samples.clip
           "downloads/v1_clip.mp4"
           (snd (VideoService.downloadVideo Samples.downloadOk Samples.clip Samples.world0))
           (fst (uploadVideo Samples.sampleConfig (UploadJob.upload Samples.okRun)
                   Samples.aliceDoc Samples.clip "downloads/v1_clip.mp4"
                   (snd (VideoService.downloadVideo Samples.downloadOk Samples.clip
                           Samples.world0))))).
  vm_compute. reflexivity.
Defined.

(** X18: for a video without description the default text is sent on one
    line: the two line feeds between "Uploaded via Auto-Uploader" and
    "Original filename: ..." are removed with the control characters. *)
Theorem default_description_on_one_line config video :
  description video = None \/ description video = Some "" ->
  metaDescription (videoMetadata config video)
  = trim (take 5000 ("Uploaded via Auto-UploaderOriginal filename: "
                     +:+ remove_control (filename video))).
Proof.
  intros Hd. unfold videoMetadata. cbn [metaDescription].
  assert (Heq : match description video with
                | Some d => if String.eqb d "" then
                              "Uploaded via Auto-Uploader" +:+ String "010" (String "010" "")
                              +:+ "Original filename: " +:+ filename video
                            else d
                | None => "Uploaded via Auto-Uploader" +:+ String "010" (String "010" "")
                          +:+ "Original filename: " +:+ filename video
                end
                = "Uploaded via Auto-Uploader" +:+ String "010" (String "010" "")
                  +:+ "Original filename: " +:+ filename video).
  { destruct Hd as [-> | ->]; reflexivity. }
  rewrite Heq. reflexivity.
Qed.

Lemma default_description_on_one_line_witness :
  description Samples.clip = None
  /\ metaDescription (videoMetadata Samples.sampleConfig Samples.clip)
     = "Uploaded via Auto-UploaderOriginal filename: clip.mp4".
Proof.
  split; [reflexivity|].
  rewrite (default_description_on_one_line Samples.sampleConfig Samples.clip
             (or_introl eq_refl)).
  vm_compute. reflexivity.
Defined.

End MetadataFacts.

(** ** Local storage during a download *)

Module TransferFacts.
Import Js JsString Model Helpers Persistence VideoService Spec WorldFacts DownloadFacts
  FrameFacts.














End TransferFacts.

(** ** The pipeline runner on the store and on local storage *)

Module StageFacts.
Import Js JsString Model Helpers Persistence TokenService VideoService YouTubeService.
Import UploadJob Spec WorldFacts DownloadFacts PublishFacts WpRules RunFacts.
Import FrameFacts TransferFacts.

Lemma cleanupFile_at r p w :
  exists ok w',
    cleanupFile r (Some p) w = (Ok ok, w')
    /\ sameButFiles w w'
    /\ onlyAt p (files w) (files w')
    /\ (r = None -> files w' !! p = None).
Proof.
  unfold cleanupFile. unfold_js.
  destruct (bool_decide (is_Some (files w !! p))) eqn:Hex; cbn.
  - destruct r as [e|]; cbn.
    + exists false, w. repeat split; try discriminate; try apply onlyAt_refl.
    + exists true, (withFiles (delete p (files w)) w). split; [reflexivity|].
      split; [repeat split|]. split; [apply onlyAt_delete|].
      intros _. cbn. apply lookup_delete_eq.
  - apply bool_decide_eq_false in Hex.
    exists false, w. split; [reflexivity|]. split; [repeat split|].
    split; [apply onlyAt_refl|]. intros _.
    destruct (files w !! p) eqn:Hp; [|reflexivity]. exfalso. apply Hex. eauto.
Qed.

Ltac run_cleanup :=
  lazymatch goal with
  | |- wp (cleanupFile ?r (Some ?p)) ?w0 _ =>
      let ok := fresh "ok" in
      let w2 := fresh "w" in
      let H := fresh "Hclean" in
      let Hs := fresh "Hsame" in
      let Ho := fresh "Honly" in
      let Hn := fresh "Hgone" in
      destruct (cleanupFile_at r p w0) as (ok & w2 & H & Hs & Ho & Hn);
      eapply wp_result; [exact H|]
  end.


(** The publish stage on the store and on local storage. *)
Lemma publish_frame config sc video path l w :
  wp (publish config sc video path) (l, w) (fun r s' =>
    let l' := fst s' in let w' := snd s' in
    filePath l' = filePath l
    /\ onlyAt (_id (user l)) (users w) (users w')
    /\ onlyAt path (files w) (files w')
    /\ match r with
       | Ok _ => cleanupReply sc = None -> files w' !! path = None
       | Throw _ => files w' = files w
       end).
Proof.
  unfold publish. go. apply wp_of_eq. intros [res|e] w1 Hup;
    destruct (uploadVideo_effects _ _ _ _ _ _ _ _ Hup) as (_ & Hf1 & _);
    destruct (uploadVideo_local _ _ _ _ _ _ _ _ Hup) as (Hu1 & _).
  2:{ cbn. rewrite Hf1. repeat split; try assumption; try apply onlyAt_refl. }
  unfold complete. go. apply wp_editUploadLog. go. apply wp_editUploadLog.
  go. apply wp_uploadLogSave.
  destruct l as [u rs vd fp [[[i|] lf]|]]; norm; destruct (logSaveSuccess sc) as [err1|].
  all: try (cbn; rewrite Hf1; repeat split; try assumption; try apply onlyAt_refl; fail).
  all: go; apply wp_userSave; norm; destruct (userSaveSuccess sc) as [err2|].
  all: try (cbn; rewrite Hf1; repeat split; try assumption; try apply onlyAt_refl; fail).
  all: go.
  all: run_total; go; run_cleanup; go.
  all: destruct Hsame as (Hu2 & _).
  all: cbn in Honly, Hgone |- *; rewrite Hu2; cbn.
  all: split; [reflexivity|]; split;
    [eapply onlyAt_trans; [exact Hu1|apply onlyAt_alter]|]; split;
    [rewrite <- Hf1; exact Honly|exact Hgone].
Qed.


End StageFacts.

Module RunFrameFacts.
Import Js JsString Model Helpers Persistence TokenService VideoService YouTubeService.
Import UploadJob Spec WorldFacts DownloadFacts PublishFacts WpRules RunFacts.
Import FrameFacts TransferFacts StageFacts.

Lemma wp_conj {S A} (m : M S A) s (Q Q' : Result A -> S -> Prop) :
  wp m s Q -> wp m s Q' -> wp m s (fun r s' => Q r s' /\ Q' r s').
Proof. unfold wp. auto. Qed.

Lemma onFailure_account config sc error l w :
  wp (onFailure config sc error) (l, w) (fun r s' =>
    r = Ok tt /\ onlyAt (_id (user l)) (users w) (users (snd s'))).
Proof.
  eapply wp_mono; [apply onFailure_effects|].
  intros r [l' w']. cbn [fst snd].
  intros (-> & _ & _ & _ & Hus & _). split; [reflexivity|].
  destruct Hus as [->| ->]; [apply onlyAt_refl|apply onlyAt_alter].
Qed.

(** A run returns, and what it writes to the store it writes to its own
    Account. *)
Lemma processUserUpload_account config sc u rs w :
  wp (processUserUpload config sc) (entry u rs, w) (fun r s' =>
    r = Ok tt /\ onlyAt (_id u) (users w) (users (snd s'))).
Proof.
  unfold processUserUpload, pipeline. apply wp_tryCatch, wp_bind.
  eapply wp_mono; [apply acquire_effects; reflexivity|].
  intros r [l1 w1]. cbn [fst snd entry user results uploadLog].
  intros (Hu1 & _ & Hus1 & _).
  assert (Hfail : forall error l2 w2,
             _id (user l2) = _id u -> onlyAt (_id u) (users w) (users w2) ->
             wp (onFailure config sc error) (l2, w2) (fun r s' =>
               r = Ok tt /\ onlyAt (_id u) (users w) (users (snd s')))).
  { intros error l2 w2 Hid Hin. eapply wp_mono; [apply onFailure_account|].
    intros r3 [l3 w3]. cbn [fst snd]. rewrite Hid. intros [-> Hout].
    split; [reflexivity|]. eapply onlyAt_trans; eassumption. }
  destruct r as [[[video path]|]|e]; cbv beta iota.
  - eapply wp_mono; [apply wp_conj; [apply publish_frame|apply publish_effects]|].
    intros r2 [l2 w2]. cbn [fst snd]. rewrite Hu1.
    intros [(_ & Hus2 & _) (_ & _ & Hid2 & _)].
    rewrite Hus1 in Hus2.
    destruct r2 as [[]|e2]; [split; [reflexivity|exact Hus2]|].
    apply Hfail; assumption.
  - apply wp_ret. split; [reflexivity|]. cbn [snd]. rewrite Hus1. apply onlyAt_refl.
  - apply Hfail; [rewrite Hu1; reflexivity|rewrite Hus1; apply onlyAt_refl].
Qed.


(** X20: a run of the pipeline for one Account never throws, whatever the
    replies, and leaves every other Account of the store as it was. *)
Theorem run_touches_own_account config sc u rs w :
  let out := processUserUpload config sc (entry u rs, w) in
  fst out = Ok tt
  /\ forall k, k <> _id u -> users (snd (snd out)) !! k = users w !! k.
Proof. apply (processUserUpload_account config sc u rs w). Qed.



End RunFrameFacts.

(** ** The Transfer Record of a run *)

Module RecordFacts.
Import Js JsString Model Helpers Persistence TokenService VideoService YouTubeService.
Import UploadJob Spec WorldFacts DownloadFacts PublishFacts WpRules RunFacts.
Import FrameFacts TransferFacts StageFacts RunFrameFacts.

Lemma insert_last {A} (base : list A) (x y : A) :
  <[length base := y]> (base ++ [x]) = base ++ [y].
Proof.
  replace (length base) with (length base + 0)%nat by lia.
  rewrite insert_app_r. reflexivity.
Qed.

Lemma acquire_record sc l w video :
  nextOutcome (nextVideo sc) = Ok (Some video) ->
  uploadLog l = None ->
  wp (acquire sc) (l, w) (fun r s' =>
    let l' := fst s' in let w' := snd s' in
    recordAt (uploadLogs w) (_id (user l)) video l' w'
    /\ videoData l' = Some video
    /\ match r with
       | Ok (Some (v, _)) => v = video
       | Ok None => False
       | Throw _ => True
       end).
Proof.
  intros Hnext Hlog. unfold acquire. wp_step.
  unfold wp at 1. rewrite getNextVideo_pure. cbn [fst snd]. rewrite Hnext.
  wp_steps. apply wp_uploadLogSave. cbn [uploadLog withUploadLog slot logFields].
  destruct (logSaveCreate sc) as [e|].
  { cbn. split; [|split; reflexivity].
    eexists. split; [reflexivity|]. split; [repeat split|]. left. split; reflexivity. }
  wp_steps. apply wp_of_eq. intros [path|e] w2 Hdl;
    destruct (downloadVideo_sameButFiles _ _ _ _ _ Hdl) as (Hu2 & Hl2 & Hc2 & Hs2 & Ht2).
  2:{ cbn. split; [|split; reflexivity].
      eexists. split; [reflexivity|]. split; [repeat split|]. right.
      split; [reflexivity|]. rewrite Hl2. cbn. eauto. }
  wp_steps. apply wp_of_eq. intros [ok|e] w3 Hval;
    destruct (validateVideoFile_pure _ _ _ _ Hval) as [-> Hsize].
  2:{ wp_steps. cbn. split; [|split; reflexivity].
      eexists. split; [reflexivity|]. split; [repeat split|]. right.
      split; [reflexivity|]. rewrite Hl2. cbn. eauto. }
  wp_steps. apply wp_editUploadLog. wp_step. apply wp_uploadLogSave.
  cbn [uploadLog withUploadLog withFilePath slot logFields].
  destruct (logSaveUploading sc) as [e|].
  { cbn. split; [|split; reflexivity].
    eexists. split; [reflexivity|]. split; [repeat split|]. right.
    split; [reflexivity|]. rewrite Hl2. cbn. eauto. }
  wp_steps. cbn. split; [|split; reflexivity].
  eexists. split; [reflexivity|]. split; [repeat split|]. right.
  split; [reflexivity|]. rewrite Hl2. cbn. rewrite insert_last. eauto.
Qed.

Lemma uploadVideo_url config sc user video path w res w' :
  uploadVideo config sc user video path w = (Ok res, w') ->
  resultVideoUrl res = "https://www.youtube.com/watch?v=" +:+ resultVideoId res.
Proof.
  unfold uploadVideo. unfold tryCatch at 1. unfold bind at 1. unfold get at 1.
  destruct (files w !! path) as [size|]; cbn; [|discriminate].
  destruct (Z.of_N size >? MAX_YOUTUBE_FILE_SIZE)%Z; cbn; [discriminate|].
  unfold bind at 1. unfold tryCatch at 1.
  destruct (getValidTokens (tokenScript sc) (_id user) w) as [[tk|e] w1]; cbn;
    [|discriminate].
  destruct (insertReply sc); cbn; intros [= <- <-]; reflexivity.
Qed.

(** The Transfer Record through the publish stage. *)
Lemma publish_record config sc video path l w base uid :
  recordAt base uid video l w ->
  wp (publish config sc video path) (l, w) (fun r s' =>
    let l' := fst s' in let w' := snd s' in
    match r with
    | Ok _ =>
        exists rec ytid secs,
          uploadLogs w' = base ++ [rec] /\ describes uid video rec
          /\ status rec = Success /\ youtubeVideoId rec = Some ytid
          /\ duration rec = Some secs
          /\ results l'
             = pushSuccessful
                 (mkSuccessEntry (email (fields (user l))) (title video)
                    ("https://www.youtube.com/watch?v=" +:+ ytid) secs)
                 (results l)
    | Throw _ => recordAt base uid video l' w'
    end).
Proof.
  intros (d & Hd & Hdesc & Hslot).
  unfold publish. go. apply wp_of_eq. intros [res|e] w1 Hup;
    destruct (uploadVideo_effects _ _ _ _ _ _ _ _ Hup) as (Hl1 & _).
  2:{ cbn. exists d. rewrite Hl1. split; [exact Hd|]. split; [exact Hdesc|exact Hslot]. }
  pose proof (uploadVideo_url _ _ _ _ _ _ _ _ Hup) as Hurl.
  unfold complete. go. apply wp_editUploadLog. go. apply wp_editUploadLog.
  go. apply wp_uploadLogSave.
  destruct l as [u rs vd fp ul]. cbn [uploadLog] in Hd. subst ul.
  destruct d as [sl lf]. cbn [slot logFields] in Hdesc, Hslot. norm.
  destruct (logSaveSuccess sc) as [err1|].
  { cbn. eexists. split; [reflexivity|]. split; [exact Hdesc|].
    cbn [slot]. rewrite Hl1. exact Hslot. }
  assert (Hstored : uploadLogs
            (match sl with
             | Some i => withUploadLogs
                           (<[i := withPublished (resultVideoId res) (clock w1)
                                     ((clock w1 - clock w) / 1000)
                                     (withStatus Success lf)]> (uploadLogs w1)) w1
             | None => withUploadLogs
                         (uploadLogs w1
                          ++ [withPublished (resultVideoId res) (clock w1)
                                ((clock w1 - clock w) / 1000) (withStatus Success lf)]) w1
             end)
          = base ++ [withPublished (resultVideoId res) (clock w1)
                       ((clock w1 - clock w) / 1000) (withStatus Success lf)]).
  { destruct Hslot as [[-> Hb]|[-> (x & Hb)]]; cbn; rewrite Hl1, Hb;
      [reflexivity|apply insert_last]. }
  assert (Hslot' : match sl with
                   | Some i => Some i
                   | None => Some (length (uploadLogs w1))
                   end = Some (length base)).
  { destruct Hslot as [[-> Hb]|[-> _]]; [rewrite Hl1, Hb|]; reflexivity. }
  destruct sl as [i|]; go; apply wp_userSave; norm; destruct (userSaveSuccess sc) as [err2|].
  all: try (cbn; eexists; split; [reflexivity|]; split; [exact Hdesc|];
            right; split; [exact Hslot'|]; eexists; exact Hstored).
  all: go; run_total; go; run_total; go.
  all: destruct Hsame as (_ & Hl2 & _).
  all: cbn [fst snd results withResults user withUser fields uploadLogs emit withUsers
            withUploadLogs email withTotalUploads withLastUploadDate] in *.
  all: eexists _, (resultVideoId res), ((clock w1 - clock w) / 1000).
  all: rewrite Hl2, Hstored, Hurl.
  all: split; [reflexivity|]; split; [exact Hdesc|]; repeat split.
Qed.

(** The Transfer Record through the [catch] block. *)
Lemma onFailure_record config sc error l w base uid video :
  recordAt base uid video l w ->
  logSaveFailed sc = None ->
  wp (onFailure config sc error) (l, w) (fun r s' =>
    exists rec,
      uploadLogs (snd s') = base ++ [rec] /\ describes uid video rec
      /\ status rec = Failed /\ errorMessage rec = Some (message error)).
Proof.
  intros (d & Hd & Hdesc & Hslot) Hsave.
  unfold onFailure. go.
  destruct l as [u rs vd fp ul]. cbn [uploadLog] in Hd. subst ul.
  destruct d as [sl lf]. cbn [slot logFields] in Hdesc, Hslot. norm.
  go. apply wp_editUploadLog. go. apply wp_editUploadLog. go.
  apply wp_uploadLogSave. norm. rewrite Hsave.
  assert (Hstored : uploadLogs
            (match sl with
             | Some i => withUploadLogs
                           (<[i := withErrorMessage (message error)
                                     (withStatus Failed lf)]> (uploadLogs w)) w
             | None => withUploadLogs
                         (uploadLogs w
                          ++ [withErrorMessage (message error) (withStatus Failed lf)]) w
             end)
          = base ++ [withErrorMessage (message error) (withStatus Failed lf)]).
  { destruct Hslot as [[-> Hb]|[-> (x & Hb)]]; cbn; rewrite Hb;
      [reflexivity|apply insert_last]. }
  destruct sl as [i|]; go; apply wp_userSave; norm;
    destruct (userSaveFailed sc) as [err2|]; go;
    destruct fp as [p|]; go; try (run_total; go);
    destruct (isAuthError (message error)); go; run_total; go;
    repeat match goal with
           | H : sameButFiles _ _ |- _ => destruct H as (_ & ? & _)
           | H : sent _ _ _ _ |- _ => destruct H as (_ & ? & _)
           end;
    cbn [uploadLogs withUploadLogs withUsers] in *;
    eexists;
    (split; [repeat match goal with
                    | H : uploadLogs _ = _ |- _ => rewrite H; clear H
                    end;
             exact Hstored|]);
    (split; [exact Hdesc|split; reflexivity]).
Qed.

(** X22: when the catalogue hands out a video and the write of a failed
    Transfer Record goes through, the run adds exactly one Transfer Record,
    for this Account and this video, and its final status agrees with the
    cycle result: success, with the published id, next to a success entry
    whose address ends in that id, or failed, with the error text that is
    also in the failure entry. *)
Theorem record_matches_entry config sc u rs w video :
  nextOutcome (nextVideo sc) = Ok (Some video) ->
  logSaveFailed sc = None ->
  let out := processUserUpload config sc (entry u rs, w) in
  exists rec,
    uploadLogs (snd (snd out)) = uploadLogs w ++ [rec]
    /\ describes (_id u) video rec
    /\ ((status rec = Success
         /\ exists ytid secs,
              youtubeVideoId rec = Some ytid /\ duration rec = Some secs
              /\ results (fst (snd out))
                 = pushSuccessful
                     (mkSuccessEntry (email (fields u)) (title video)
                        ("https://www.youtube.com/watch?v=" +:+ ytid) secs) rs)
        \/ (status rec = Failed
            /\ exists msg,
                 errorMessage rec = Some msg
                 /\ results (fst (snd out))
                    = pushFailed (mkFailedEntry (email (fields u)) (title video) msg) rs)).
Proof.
  intros Hnext Hsave. cbn zeta.
  set (Q := fun (r : Result unit) (s' : Locals * World) =>
    exists rec,
      uploadLogs (snd s') = uploadLogs w ++ [rec]
      /\ describes (_id u) video rec
      /\ ((status rec = Success
           /\ exists ytid secs,
                youtubeVideoId rec = Some ytid /\ duration rec = Some secs
                /\ results (fst s')
                   = pushSuccessful
                       (mkSuccessEntry (email (fields u)) (title video)
                          ("https://www.youtube.com/watch?v=" +:+ ytid) secs) rs)
          \/ (status rec = Failed
              /\ exists msg,
                   errorMessage rec = Some msg
                   /\ results (fst s')
                      = pushFailed (mkFailedEntry (email (fields u)) (title video) msg) rs))).
  change (wp (processUserUpload config sc) (entry u rs, w) Q).
  pose proof (ServiceFacts.fetched_title _ _ Hnext) as Htitle.
  assert (Hnone : noneAvailable (nextVideo sc) = false).
  { unfold noneAvailable. rewrite Hnext. reflexivity. }
  assert (Hfail : forall error l2 w2,
             recordAt (uploadLogs w) (_id u) video l2 w2 ->
             email (fields (user l2)) = email (fields u) ->
             videoData l2 = Some video -> results l2 = rs ->
             wp (onFailure config sc error) (l2, w2) Q).
  { intros error l2 w2 Hrec Hmail Hvd Hrs.
    eapply wp_mono;
      [apply wp_conj; [apply (onFailure_record _ _ _ _ _ _ _ _ Hrec Hsave)
                      |apply onFailure_effects]|].
    intros r3 [l3 w3]. cbn [fst snd].
    intros [(rec & Hlogs & Hdesc & Hst & Hmsg) (_ & Hres & _)].
    unfold Q. cbn [fst snd]. exists rec. split; [exact Hlogs|]. split; [exact Hdesc|]. right.
    split; [exact Hst|]. exists (message error). split; [exact Hmsg|].
    rewrite Hres, Hmail, Hvd, Htitle, Hrs. reflexivity. }
  unfold processUserUpload, pipeline. apply wp_tryCatch, wp_bind.
  eapply wp_mono;
    [apply wp_conj; [apply (acquire_record sc (entry u rs) w video Hnext eq_refl)
                    |apply acquire_effects; reflexivity]|].
  intros r [l1 w1]. cbn [fst snd entry user results uploadLog].
  rewrite Hnone.
  intros [(Hrec & Hvd & Hcase) (Hu1 & Hr1 & _)].
  destruct r as [[[v path]|]|e]; cbv beta iota; [subst v|contradiction|].
  - eapply wp_mono;
      [apply wp_conj; [apply (publish_record _ _ _ _ _ _ _ _ Hrec)|apply publish_effects]|].
    intros r2 [l2 w2]. cbn [fst snd].
    intros [Hpub (Hvd2 & _ & _ & Hmail2 & _ & _ & _ & _ & Hres2)].
    destruct r2 as [[]|e2].
    + destruct Hpub as (rec & ytid & secs & Hlogs & Hdesc & Hst & Hyt & Hdur & Hres).
      unfold Q. cbn [fst snd]. exists rec. split; [exact Hlogs|]. split; [exact Hdesc|]. left.
      split; [exact Hst|]. exists ytid, secs. repeat split; try assumption.
      cbn [fst]. rewrite Hres, Hu1, Hr1. reflexivity.
    + apply Hfail; [exact Hpub|rewrite Hmail2, Hu1; reflexivity|congruence|congruence].
  - apply Hfail; [exact Hrec|rewrite Hu1; reflexivity|exact Hvd|exact Hr1].
Qed.

Lemma record_matches_entry_witness :
  nextOutcome (nextVideo Samples.okRun) = Ok (Some Samples.clip)
  /\ logSaveFailed Samples.okRun = None
  /\ exists rec,
      uploadLogs (snd (snd (processUserUpload Samples.sampleConfig Samples.okRun
                              (entry Samples.aliceDoc emptyResults, Samples.world0))))
      = uploadLogs Samples.world0 ++ [rec]
      /\ describes 1 Samples.clip rec.
Proof.
  split; [reflexivity|]. split; [reflexivity|].
  destruct (record_matches_entry Samples.sampleConfig Samples.okRun Samples.aliceDoc
              emptyResults Samples.world0 Samples.clip eq_refl eq_refl)
    as (rec & Hlogs & Hdesc & _).
  exists rec. split; [exact Hlogs|exact Hdesc].
Defined.

End RecordFacts.

(** ** A publish call that is rejected *)

Module RejectionFacts.
Import Js JsString Model Helpers Persistence TokenService VideoService YouTubeService.
Import UploadJob Spec WorldFacts DownloadFacts PublishFacts WpRules RunFacts.
Import AccountFacts.


Lemma failure_save_failedUploads (us : gmap N User) uid src stored :
  us !! uid = Some stored ->
  failedUploads <$> alter (writePaths [PathFailedUploads] src) uid us !! uid
  = Some (failedUploads src).
Proof. intros H. rewrite lookup_alter_eq, H. reflexivity. Qed.








End RejectionFacts.

(** ** The acknowledgement to the catalogue *)

Module AcknowledgeFacts.
Import Js JsString Model Helpers Persistence TokenService VideoService YouTubeService.
Import UploadJob Spec WorldFacts.

Lemma bind_ext {S A B} (m m' : M S A) (k k' : A -> M S B) s :
  m s = m' s -> (forall a s', k a s' = k' a s') -> bind m k s = bind m' k' s.
Proof.
  intros Hm Hk. unfold bind. rewrite Hm. destruct (m' s) as [[a|e] s']; [apply Hk|reflexivity].
Qed.

Lemma tryCatch_ext {S A} (m m' : M S A) (h h' : Error -> M S A) s :
  m s = m' s -> (forall e s', h e s' = h' e s') -> tryCatch m h s = tryCatch m' h' s.
Proof.
  intros Hm Hh. unfold tryCatch. rewrite Hm. destruct (m' s) as [[a|e] s']; [reflexivity|apply Hh].
Qed.

Lemma mark_then {L B} r r' videoId (k : M (L * World) B) s :
  bind (liftW (markAsDownloaded r videoId)) (fun _ => k) s
  = bind (liftW (markAsDownloaded r' videoId)) (fun _ => k) s.
Proof.
  destruct s as [l w]. unfold bind, liftW.
  destruct (markAsDownloaded_trace r videoId w) as [ok ->].
  destruct (markAsDownloaded_trace r' videoId w) as [ok' ->]. reflexivity.
Qed.

(** X25: the reply of the catalogue to the acknowledgement is not looked
    at: with any other reply to [markAsDownloaded] the run returns the same
    result and leaves the same cycle result, store, local storage and trace;
    a failed acknowledgement shows in no record and no notice. *)
Theorem acknowledgement_not_checked config r sc s :
  processUserUpload config (withMarkReply r sc) s = processUserUpload config sc s.
Proof.
  unfold processUserUpload. apply tryCatch_ext; [|reflexivity].
  unfold pipeline. apply bind_ext; [reflexivity|]. intros [[video path]|] s'; [|reflexivity].
  unfold publish. repeat (apply bind_ext; [reflexivity|intros ? ?]).
  apply mark_then.
Qed.

End AcknowledgeFacts.

(** ** The cycle on the store *)

Module CycleFacts.
Import Js JsString Model Helpers Persistence TokenService VideoService YouTubeService.
Import UploadJob Spec WorldFacts DownloadFacts PublishFacts WpRules RunFacts.
Import FrameFacts TransferFacts StageFacts RunFrameFacts.

Lemma In_insertByDate d x l : In d (insertByDate x l) -> d = x \/ In d l.
Proof.
  induction l as [|y l IH]; cbn.
  - intros [<-|[]]. left. reflexivity.
  - destruct (dateLe _ _); cbn.
    + intros [<-|H]; [left; reflexivity|right; exact H].
    + intros [<-|H]; [right; left; reflexivity|].
      destruct (IH H) as [->|H']; [left; reflexivity|right; right; exact H'].
Qed.

Lemma In_sortByDate d l : In d (sortByDate l) -> In d l.
Proof.
  induction l as [|x l IH]; cbn; [tauto|].
  intros H. apply In_insertByDate in H as [->|H]; [left; reflexivity|right; apply IH, H].
Qed.

(** Who is selected: stored, active, loaded afresh; a hundred at most. *)
Lemma activeUsers_In us d :
  In d (activeUsers us) ->
  us !! _id d = Some (fields d) /\ isActive (fields d) = true /\ modifiedPaths d = [].
Proof.
  unfold activeUsers. intros H.
  apply list_elem_of_In, elem_of_take in H as (i & H & _).
  apply list_elem_of_lookup_2, list_elem_of_In, In_sortByDate in H.
  apply in_map_iff in H as ([k u] & <- & H).
  apply filter_In in H as [H Hact]. apply list_elem_of_In, elem_of_map_to_list in H.
  cbn. repeat split; assumption.
Qed.

Lemma activeUsers_length us : (length (activeUsers us) <= 100)%nat.
Proof. unfold activeUsers. apply firstn_le_length. Qed.

Lemma forEachUser_accounts config cy us : forall i rs w,
  wp (forEachUser config cy i us) (rs, w) (fun r s' =>
    forall k, ~ In k (List.map _id us) -> users (snd s') !! k = users w !! k).
Proof.
  induction us as [|u rest IH]; intros i rs w.
  - apply wp_ret. reflexivity.
  - cbn [forEachUser]. apply wp_bind, wp_tryCatch, wp_onLocal.
    eapply wp_mono; [apply processUserUpload_account|].
    intros r [l1 w1]. cbn [fst snd]. intros [-> Hown].
    eapply wp_mono; [apply IH|].
    intros r2 [rs2 w2]. cbn [fst snd]. intros Hrest k Hk.
    cbn in Hk. rewrite Hrest by tauto. apply Hown. intros ->. tauto.
Qed.

Lemma attempted_le cy n : forall i, (attempted cy i n <= n)%nat.
Proof.
  induction n as [|n IH]; intros i; cbn [attempted]; [lia|].
  specialize (IH (S i)). destruct (noneAvailable _); lia.
Qed.

(** One cycle on the store and on the figures of its result. *)
Lemma cycle_frame config cy w :
  wp (cycle config cy) (emptyResults, w) (fun r s' =>
    let rs' := fst s' in let w' := snd s' in
    totalUsers rs' = length (selected cy w)
    /\ dbError rs' = negb (dbReady cy)
    /\ (forall k, ~ In k (List.map _id (selected cy w)) ->
                  users w' !! k = users w !! k)
    /\ (selected cy w = [] ->
        rs' = (if dbReady cy then emptyResults else setDbError emptyResults)
        /\ sent 3 (mkMail (reportEmail config) (ReportBody rs')) w w')).
Proof.
  unfold cycle, selected, checkDatabaseConnection, findActiveUsers.
  apply wp_tryCatch, wp_bind, wp_tryCatch.
  destruct (dbReady cy); cbn [negb]; go; cbn [negb]; go.
  - destruct (findUsers cy) as [e|]; go.
    + run_total. go. cbn. destruct Hsent as (Hu & Hrest).
      repeat split; try (rewrite Hu; reflexivity); try apply Hrest; try exact Hu.
    + destruct (activeUsers (users w)) as [|u us] eqn:Hsel; go.
      * run_total. go. cbn. destruct Hsent as (Hu & Hrest).
        repeat split; try (rewrite Hu; reflexivity); try apply Hrest; try exact Hu.
      * eapply wp_mono;
          [apply wp_conj; [apply forEachUser_accounts|apply forEachUser_effects]|].
        intros r [rs1 w1]. cbn [fst snd].
        intros [Hacc (-> & _ & Htot & Hdb & _)].
        go. run_total. go.
        destruct Hsent as (Hu & _).
        cbn [fst snd]. rewrite Hu. split; [exact Htot|]. split; [exact Hdb|].
        split; [exact Hacc|discriminate].
  - run_total. go. cbn. destruct Hsent as (Hu & Hrest).
    repeat split; try (rewrite Hu; reflexivity); try apply Hrest; try exact Hu.
Qed.

(** A trigger that starts a cycle, in terms of the cycle. *)
Lemma processUploads_cycle config cy j w :
  isRunning j = false ->
  processUploads config cy (j, w)
  = (fst (cycle config cy (emptyResults, w)),
     (mkJob false (cronJob j) 0, snd (snd (cycle config cy (emptyResults, w))))).
Proof.
  intros Hidle. unfold processUploads, processUploadsDuring. unfold_js. cbn.
  rewrite Hidle. cbn.
  destruct (cycle config cy (emptyResults, w)) as [r [rs w']]. reflexivity.
Qed.

(** X26: when a cycle starts and the storage backend is not reachable, the
    query for Accounts fails, or no Account is active, the cycle touches no
    Account, no Transfer Record and no file, sends one report to the report
    address (with up to 3 attempts), and ends with the running flag cleared;
    the report has no entries and carries the database-error flag exactly
    when the backend was not reachable. *)
Theorem cycle_without_accounts config cy j w :
  isRunning j = false ->
  selected cy w = [] ->
  let out := processUploads config cy (j, w) in
  fst out = Ok tt
  /\ fst (snd out) = mkJob false (cronJob j) 0
  /\ sent 3
       (mkMail (reportEmail config)
          (ReportBody (if dbReady cy then emptyResults else setDbError emptyResults)))
       w (snd (snd out)).
Proof.
  intros Hidle Hsel. cbn zeta. rewrite (processUploads_cycle _ _ _ _ Hidle). cbn [fst snd].
  pose proof (cycle_effects config cy w) as H1.
  pose proof (cycle_frame config cy w) as H2. unfold wp in H1, H2.
  destruct (cycle config cy (emptyResults, w)) as [r [rs w']]. cbn [fst snd] in *.
  destruct H1 as (-> & _). destruct H2 as (_ & _ & _ & H2).
  destruct (H2 Hsel) as [<- Hsent]. repeat split; try reflexivity; apply Hsent.
Qed.

Lemma cycle_without_accounts_witness :
  isRunning (mkJob false None 0) = false
  /\ selected Samples.offline Samples.world1 = []
  /\ sent 3 (mkMail "ops@example.com" (ReportBody (setDbError emptyResults)))
       Samples.world1
       (snd (snd (processUploads Samples.sampleConfig Samples.offline
                    (mkJob false None 0, Samples.world1)))).
Proof.
  split; [reflexivity|]. split; [reflexivity|].
  apply (cycle_without_accounts Samples.sampleConfig Samples.offline (mkJob false None 0)
           Samples.world1 eq_refl eq_refl).
Defined.

(** X27: an Account that is inactive, or not stored, when a trigger arrives
    is stored exactly as before when the call returns: a cycle reads and
    writes active Accounts only. *)
Theorem cycle_spares_unselected config cy j w k :
  (forall a, users w !! k = Some a -> isActive a = false) ->
  users (snd (snd (processUploads config cy (j, w)))) !! k = users w !! k.
Proof.
  intros Hk. destruct (isRunning j) eqn:Hrun.
  { rewrite SchedulerFacts.processUploads_running by exact Hrun. reflexivity. }
  rewrite (processUploads_cycle _ _ _ _ Hrun). cbn [fst snd].
  pose proof (cycle_frame config cy w) as H2. unfold wp in H2.
  destruct (cycle config cy (emptyResults, w)) as [r [rs w']]. cbn [fst snd] in *.
  destruct H2 as (_ & _ & H2 & _). apply H2.
  intros Hin. apply in_map_iff in Hin as (d & <- & Hd).
  unfold selected in Hd. destruct (dbReady cy); [|contradiction].
  destruct (findUsers cy); [contradiction|].
  apply activeUsers_In in Hd as (Hstored & Hact & _).
  rewrite (Hk _ Hstored) in Hact. discriminate.
Qed.

Lemma cycle_spares_unselected_witness :
  isActive Samples.carol = false
  /\ users (snd (snd (processUploads Samples.sampleConfig
                        (mkCycleScript true None (fun _ => Samples.okRun))
                        (mkJob false None 0, Samples.world1)))) !! 3%N
     = Some Samples.carol.
Proof.
  split; [reflexivity|].
  rewrite (cycle_spares_unselected Samples.sampleConfig
             (mkCycleScript true None (fun _ => Samples.okRun)) (mkJob false None 0)
             Samples.world1 3%N).
  - reflexivity.
  - intros a Ha. vm_compute in Ha. injection Ha as <-. reflexivity.
Defined.

(** X28: the report of a cycle that started is rendered from a result
    whose count of Accounts is the number of Accounts selected, at most 100,
    whose entries are at most as many, and whose database-error flag is set
    exactly when the storage backend was not reachable. *)
Theorem cycle_report_totals config cy j w :
  isRunning j = false ->
  exists rs extra,
    trace (snd (snd (processUploads config cy (j, w)))) = trace w ++ extra
    /\ oneSend 3 (mkMail (reportEmail config) (ReportBody rs)) (reportAttempts extra)
    /\ totalUsers rs = length (selected cy w)
    /\ (entries rs <= totalUsers rs <= 100)%nat
    /\ dbError rs = negb (dbReady cy).
Proof.
  intros Hidle. rewrite (processUploads_cycle _ _ _ _ Hidle). cbn [fst snd].
  pose proof (cycle_effects config cy w) as H1.
  pose proof (cycle_frame config cy w) as H2. unfold wp in H1, H2.
  destruct (cycle config cy (emptyResults, w)) as [r [rs w']]. cbn [fst snd] in *.
  destruct H1 as (_ & Hent & _ & _ & extra & Ht & Hone).
  destruct H2 as (Htot & Hdb & _).
  exists rs, extra. split; [exact Ht|]. split; [exact Hone|]. split; [exact Htot|].
  split; [|exact Hdb]. rewrite Hent, Htot. split; [apply attempted_le|].
  unfold selected. destruct (dbReady cy); [|cbn; lia].
  destruct (findUsers cy); [cbn; lia|apply activeUsers_length].
Qed.

Lemma cycle_report_totals_witness :
  isRunning (mkJob false None 0) = false
  /\ exists rs extra,
      trace (snd (snd (processUploads Samples.sampleConfig Samples.offline
                         (mkJob false None 0, Samples.world1))))
      = trace Samples.world1 ++ extra
      /\ oneSend 3 (mkMail "ops@example.com" (ReportBody rs)) (reportAttempts extra)
      /\ totalUsers rs = 0%nat
      /\ dbError rs = true.
Proof.
  split; [reflexivity|].
  destruct (cycle_report_totals Samples.sampleConfig Samples.offline (mkJob false None 0)
              Samples.world1 eq_refl) as (rs & extra & Ht & Hone & Htot & _ & Hdb).
  exists rs, extra. split; [exact Ht|]. split; [exact Hone|]. split; assumption.
Defined.

End CycleFacts.

(** ** The counters of an Account *)

Module CounterFacts.
Import Js JsString Model Helpers Persistence TokenService VideoService YouTubeService.
Import UploadJob Spec WorldFacts DownloadFacts PublishFacts WpRules RunFacts.
Import RunFrameFacts.

(** The counters and the store through the publish stage, when the write
    of the counters goes through. *)
Lemma publish_counters config sc video path l w :
  userSaveSuccess sc = None ->
  wp (publish config sc video path) (l, w) (fun r s' =>
    let l' := fst s' in let w' := snd s' in
    match r with
    | Ok _ =>
        exists us1,
          credentialsOnly (users w) us1
          /\ users w'
             = alter (writePaths (PathTotalUploads :: PathLastUploadDate
                                    :: modifiedPaths (user l))
                        (withTotalUploads (totalUploads (fields (user l)) + 1)
                           (withLastUploadDate (Some (clock w')) (fields (user l)))))
                 (_id (user l)) us1
    | Throw _ => user l' = user l /\ credentialsOnly (users w) (users w')
    end).
Proof.
  intros Hsave. unfold publish. go. apply wp_of_eq. intros [res|e] w1 Hup;
    destruct (uploadVideo_effects _ _ _ _ _ _ _ _ Hup) as (_ & _ & _ & Hcred & _).
  2:{ cbn. split; [reflexivity|exact Hcred]. }
  unfold complete. go. apply wp_editUploadLog. go. apply wp_editUploadLog.
  go. apply wp_uploadLogSave.
  destruct l as [u rs vd fp [[[i|] lf]|]]; norm; destruct (logSaveSuccess sc) as [err1|].
  all: try (cbn; split; [reflexivity|exact Hcred]).
  all: go; apply wp_userSave; norm; rewrite Hsave.
  all: go; run_total; go; run_total; go.
  all: destruct Hsame as (Hu2 & _ & Hc2 & _).
  all: cbn [fst snd users user fields withUsers emit withUploadLogs clock _id modifiedPaths
            withUser withResults] in *.
  all: exists (users w1); split; [exact Hcred|]; rewrite Hu2, Hc2; reflexivity.
Qed.

(** The store after the [catch] block, when the write of the failure
    counter goes through. *)
Lemma onFailure_saved config sc error l w :
  userSaveFailed sc = None ->
  wp (onFailure config sc error) (l, w) (fun r s' =>
    users (snd s')
    = alter (writePaths (PathFailedUploads :: modifiedPaths (user l))
               (withFailedUploads (failedUploads (fields (user l)) + 1) (fields (user l))))
        (_id (user l)) (users w)).
Proof.
  intros Hsave. unfold onFailure. go.
  destruct l as [u rs vd fp [[sl lf]|]]; norm.
  - go. apply wp_editUploadLog. go. apply wp_editUploadLog. go.
    apply wp_uploadLogSave. norm.
    destruct (logSaveFailed sc) as [err1|], sl as [i|]; go; apply wp_userSave; norm;
      rewrite Hsave; go;
      destruct fp as [p|]; go; try (run_total; go);
      destruct (isAuthError (message error)); go; run_total; go;
      repeat match goal with
             | H : sameButFiles _ _ |- _ => destruct H as (? & _)
             | H : sent _ _ _ _ |- _ => destruct H as (? & _)
             end;
      cbn [users withUsers withUploadLogs] in *;
      repeat match goal with H : users _ = _ |- _ => rewrite H; clear H end;
      reflexivity.
  - go. apply wp_userSave; norm; rewrite Hsave; go;
      destruct fp as [p|]; go; try (run_total; go);
      destruct (isAuthError (message error)); go; run_total; go;
      repeat match goal with
             | H : sameButFiles _ _ |- _ => destruct H as (? & _)
             | H : sent _ _ _ _ |- _ => destruct H as (? & _)
             end;
      cbn [users withUsers withUploadLogs] in *;
      repeat match goal with H : users _ = _ |- _ => rewrite H; clear H end;
      reflexivity.
Qed.

Lemma success_save_counters (us : gmap N User) uid src stored :
  us !! uid = Some stored ->
  totalUploads <$> alter (writePaths [PathTotalUploads; PathLastUploadDate] src) uid us !! uid
  = Some (totalUploads src)
  /\ failedUploads <$> alter (writePaths [PathTotalUploads; PathLastUploadDate] src) uid us !! uid
     = Some (failedUploads stored).
Proof. intros H. rewrite lookup_alter_eq, H. split; reflexivity. Qed.

Lemma failure_save_counters (us : gmap N User) uid src stored :
  us !! uid = Some stored ->
  totalUploads <$> alter (writePaths [PathFailedUploads] src) uid us !! uid
  = Some (totalUploads stored)
  /\ failedUploads <$> alter (writePaths [PathFailedUploads] src) uid us !! uid
     = Some (failedUploads src).
Proof. intros H. rewrite lookup_alter_eq, H. split; reflexivity. Qed.

Lemma credentialsOnly_counters us us' k stored :
  credentialsOnly us us' -> us !! k = Some stored ->
  exists stored', us' !! k = Some stored'
    /\ totalUploads stored' = totalUploads stored
    /\ failedUploads stored' = failedUploads stored.
Proof.
  intros H Hk. specialize (H k). rewrite Hk in H.
  destruct (us' !! k) as [stored'|]; [|contradiction].
  destruct H as (_ & _ & _ & Ht & Hf). eauto.
Qed.

(** X29: for an Account loaded from the store, when the writes of the
    counters go through, a run that finds no video leaves the stored Account
    as it is, a run that ends in the success list adds one to the stored
    count of uploads and leaves the count of failures, and a run that ends
    in the failure list adds one to the stored count of failures and leaves
    the count of uploads. *)
Theorem one_counter_per_attempt config sc u rs w :
  modifiedPaths u = [] ->
  users w !! _id u = Some (fields u) ->
  userSaveSuccess sc = None ->
  userSaveFailed sc = None ->
  let out := processUserUpload config sc (entry u rs, w) in
  let stored' := users (snd (snd out)) !! _id u in
  if noneAvailable (nextVideo sc)
  then stored' = Some (fields u)
  else (exists e, results (fst (snd out)) = pushSuccessful e rs)
       /\ totalUploads <$> stored' = Some (totalUploads (fields u) + 1)
       /\ failedUploads <$> stored' = Some (failedUploads (fields u))
       \/ (exists e, results (fst (snd out)) = pushFailed e rs)
          /\ totalUploads <$> stored' = Some (totalUploads (fields u))
          /\ failedUploads <$> stored' = Some (failedUploads (fields u) + 1).
Proof.
  intros Hfresh Hstored Hok Hfailed. cbn zeta.
  set (Q := fun (r : Result unit) (s' : Locals * World) =>
    if noneAvailable (nextVideo sc)
    then users (snd s') !! _id u = Some (fields u)
    else (exists e, results (fst s') = pushSuccessful e rs)
         /\ totalUploads <$> users (snd s') !! _id u = Some (totalUploads (fields u) + 1)
         /\ failedUploads <$> users (snd s') !! _id u = Some (failedUploads (fields u))
         \/ (exists e, results (fst s') = pushFailed e rs)
            /\ totalUploads <$> users (snd s') !! _id u = Some (totalUploads (fields u))
            /\ failedUploads <$> users (snd s') !! _id u
               = Some (failedUploads (fields u) + 1)).
  change (wp (processUserUpload config sc) (entry u rs, w) Q).
  assert (Hfail : forall error l2 w2,
             noneAvailable (nextVideo sc) = false ->
             user l2 = u -> results l2 = rs -> credentialsOnly (users w) (users w2) ->
             wp (onFailure config sc error) (l2, w2) Q).
  { intros error l2 w2 Hnone Hu2 Hr2 Hcred.
    eapply wp_mono;
      [apply wp_conj; [apply (onFailure_saved _ _ _ _ _ Hfailed)|apply onFailure_effects]|].
    intros r3 [l3 w3]. cbn [fst snd]. intros [Hus3 (_ & Hres3 & _)].
    unfold Q. cbn [fst snd]. rewrite Hnone. right.
    split; [rewrite Hres3, Hr2; eauto|].
    rewrite Hus3, Hu2, Hfresh.
    destruct (credentialsOnly_counters _ _ _ _ Hcred Hstored) as (st2 & Hst2 & Ht2 & Hf2).
    destruct (failure_save_counters (users w2) (_id u)
                (withFailedUploads (failedUploads (fields u) + 1) (fields u)) st2 Hst2)
      as [-> ->].
    rewrite Ht2. split; reflexivity. }
  unfold processUserUpload, pipeline. apply wp_tryCatch, wp_bind.
  eapply wp_mono; [apply acquire_effects; reflexivity|].
  intros r [l1 w1]. cbn [fst snd entry user results uploadLog].
  intros (Hu1 & Hr1 & Hus1 & _ & _ & _ & _ & _ & Hcase).
  destruct r as [[[video path]|]|e]; cbv beta iota.
  - destruct Hcase as (Hnone & _). rewrite Hnone in Hr1.
    eapply wp_mono;
      [apply wp_conj; [apply (publish_counters _ _ _ _ _ _ Hok)|apply publish_effects]|].
    intros r2 [l2 w2]. cbn [fst snd]. rewrite Hu1, Hus1, Hfresh.
    intros [Hpub (_ & _ & _ & _ & _ & _ & _ & _ & Hres2)].
    destruct r2 as [[]|e2].
    + destruct Hpub as (us1 & Hcred & Hus2). destruct Hres2 as [e Hres2].
      unfold Q. cbn [fst snd]. rewrite Hnone. left.
      split; [rewrite Hres2, Hr1; eauto|].
      destruct (credentialsOnly_counters _ _ _ _ Hcred Hstored) as (st1 & Hst1 & Ht1 & Hf1).
      rewrite Hus2.
      destruct (success_save_counters us1 (_id u)
                  (withTotalUploads (totalUploads (fields u) + 1)
                     (withLastUploadDate (Some (clock w2)) (fields u))) st1 Hst1)
        as [-> ->].
      rewrite Hf1. split; reflexivity.
    + destruct Hpub as [Hu2 Hcred]. apply Hfail; try assumption; congruence.
  - destruct Hcase as (Hnone & _ & ->). apply wp_ret. unfold Q. cbn [snd].
    rewrite Hnone. exact Hstored.
  - destruct Hcase as (Hnone & _). rewrite Hnone in Hr1.
    apply Hfail; try assumption. rewrite Hus1. apply credentialsOnly_refl.
Qed.


Lemma one_counter_per_attempt_witness :
  users Samples.world0 !! 1%N = Some (fields Samples.aliceDoc)
  /\ (let out := processUserUpload Samples.sampleConfig Samples.okRun
                   (entry Samples.aliceDoc emptyResults, Samples.world0) in
      let stored' := users (snd (snd out)) !! _id Samples.aliceDoc in
      if noneAvailable (nextVideo Samples.okRun)
      then stored' = Some (fields Samples.aliceDoc)
      else (exists e, results (fst (snd out)) = pushSuccessful e emptyResults)
           /\ totalUploads <$> stored' = Some (totalUploads (fields Samples.aliceDoc) + 1)
           /\ failedUploads <$> stored' = Some (failedUploads (fields Samples.aliceDoc))
           \/ (exists e, results (fst (snd out)) = pushFailed e emptyResults)
              /\ totalUploads <$> stored' = Some (totalUploads (fields Samples.aliceDoc))
              /\ failedUploads <$> stored'
                 = Some (failedUploads (fields Samples.aliceDoc) + 1)).
Proof.
  split; [reflexivity|].
  apply (one_counter_per_attempt Samples.sampleConfig Samples.okRun Samples.aliceDoc
           emptyResults Samples.world0); reflexivity.
Defined.

End CounterFacts.
